(** * Rolling-window statistical transforms of the fixture generators

    A shallow embedding of the hand-written numerical code of

      - [frac_diff_python_gen/generate_test_data.py]
        ([compute_ffd_weights], [frac_diff_manual]), and
      - [cointegration_python_gen/generate_cointegration_expected.py]
        ([compute_half_life_ar1], [compute_rolling_adf],
        [compute_engle_granger], [compute_johansen],
        [generate_cointegrated_pair]), with the comparison formulas of
        [cointegration_python_gen/debug_comparison.py],

    followed by the properties the specification states about them.

    Numbers.  A Python/numpy float is modelled by an exact rational [Q];
    a float that may be NaN is a [cell], with [None] standing for NaN (the
    "not computable" sentinel).  Integer arrays ([dtype=int]) are lists of
    [Z]: they have no NaN.  Rounding is not modelled.

    Effects.  A Python call either returns or raises ([outcome]).  Arrays
    are mutated in place inside loops, and a [try]/[except Exception: pass]
    block keeps every write that happened before the exception: the code is
    therefore written in a small state-and-exception monad [M] in which the
    state survives a raise. *)

From Stdlib Require Import QArith Qabs Qminmax Lia Lqa ZArith String.
From stdpp Require Import base list.

Local Open Scope Q_scope.

(** ** Python and numpy primitives *)

Module Py.

Inductive exn : Type :=
| IndexError      (* subscript out of range *)
| ValueError      (* ill-shaped argument of a library call *)
| BackendError.   (* any exception raised inside an external collaborator *)

Inductive outcome (A : Type) : Type :=
| Returns (a : A)
| Raises (e : exn).
Arguments Returns {A} a.
Arguments Raises {A} e.

(** A float64 array entry: [None] is NaN. *)
Definition cell : Type := option Q.
Definition nan : cell := None.

Definition np_full (n : nat) (v : cell) : list cell := replicate n v.
Definition np_zeros_int (n : nat) : list Z := replicate n 0%Z.

(** [range(a, b)] for [0 <= a].  The loops run over
    [range(window - 1, n)]: the window is a positive integer, and
    [window - 1] is read on naturals. *)
Definition range (a b : nat) : list nat := seq a (b - a).

(** [l[a:b]] for [0 <= a]. *)
Definition slice {A} (l : list A) (a b : nat) : list A := take (b - a) (drop a l).

(** [l[i]] and [l[i] = x] with [0 <= i]: out of range raises. *)
Definition getitem {A} (l : list A) (i : nat) : outcome A :=
  match l !! i with
  | Some x => Returns x
  | None => Raises IndexError
  end.

Definition setitem {A} (l : list A) (i : nat) (x : A) : outcome (list A) :=
  if decide (i < length l)%nat then Returns (<[i:=x]> l) else Raises IndexError.

(** Comparisons of floats; every comparison with NaN is false. *)
Definition Qltb (a b : Q) : bool :=
  match a ?= b with Lt => true | _ => false end.

Definition cell_ltb (a b : cell) : bool :=
  match a, b with
  | Some x, Some y => Qltb x y
  | _, _ => false
  end.

Definition cell_div (a b : cell) : cell :=
  match a, b with
  | Some x, Some y => Some (x / y)
  | _, _ => nan
  end.

(** The builtin [min(a, b)]: the first argument unless the second is
    smaller. *)
Definition py_min (a b : cell) : cell := if cell_ltb b a then b else a.

Definition of_nat (k : nat) : Q := inject_Z (Z.of_nat k).

Definition Qsum (l : list Q) : Q := foldr Qplus 0 l.

(** [np.mean]: NaN on an empty array. *)
Definition np_mean (a : list Q) : cell :=
  match a with
  | [] => nan
  | _ => Some (Qsum a / of_nat (length a))
  end.

(** [a - c] and [a * b] on arrays. *)
Definition np_sub_scalar (a : list Q) (c : Q) : list Q := map (fun v => v - c) a.
Definition np_mul (a b : list Q) : list Q := zip_with Qmult a b.

(** The state-and-exception monad: the state is kept when a computation
    raises, as Python keeps the writes made before an exception. *)
Definition M (S A : Type) : Type := S -> outcome A * S.

Definition ret {S A} (a : A) : M S A := fun s => (Returns a, s).

Definition bind {S A B} (m : M S A) (k : A -> M S B) : M S B :=
  fun s =>
    match m s with
    | (Returns a, s') => k a s'
    | (Raises e, s') => (Raises e, s')
    end.

Definition lift {S A} (o : outcome A) : M S A := fun s => (o, s).

(** [try: m except Exception: pass]. *)
Definition try_except_pass {S} (m : M S unit) : M S unit :=
  fun s => (Returns tt, snd (m s)).

(** [for i in l: body i]. *)
Fixpoint for_each {S} (l : list nat) (body : nat -> M S unit) : M S unit :=
  match l with
  | [] => ret tt
  | i :: l' => bind (body i) (fun _ => for_each l' body)
  end.

(** The function's outcome: the value built from the final state, or the
    exception that escaped. *)
Definition run {S A} (m : M S unit) (init : S) (result : S -> A) : outcome A :=
  match m init with
  | (Returns _, s) => Returns (result s)
  | (Raises e, _) => Raises e
  end.

(** A local array variable of the state. *)
Record var (S A : Type) : Type := Var {
  load : S -> list A;
  store : list A -> S -> S
}.
Arguments Var {S A} load store.
Arguments load {S A} v s.
Arguments store {S A} v l s.

(** [v[i] = x] and [v[i]]. *)
Definition assign {S A} (v : var S A) (i : nat) (x : A) : M S unit :=
  fun s =>
    match setitem (load v s) i x with
    | Returns l => (Returns tt, store v l s)
    | Raises e => (Raises e, s)
    end.

Definition read {S A} (v : var S A) (i : nat) : M S A :=
  fun s => (getitem (load v s) i, s).

End Py.

Import Py.

Notation "x <- m ;; k" := (bind m (fun x => k))
  (at level 100, m at next level, right associativity).
Notation "m ;;; k" := (bind m (fun _ => k))
  (at level 100, right associativity).

(** ** Fractional differentiation ([generate_test_data.py]) *)

Module FracDiff.

(** The default of [max_size]. *)
Definition MAX_SIZE : nat := Z.to_nat 10000.

(** One turn of the recurrence, [-w * (d - k + 1) / k]. *)
Definition next_weight (d : Q) (k : nat) (w : Q) : Q :=
  (- w) * (d - of_nat k + 1) / of_nat k.

(** The loop [for k in range(1, max_size)] of [compute_ffd_weights], with
    its [break]. *)
Fixpoint ffd_loop (d threshold : Q) (ks : list nat) (w : Q) (weights : list Q)
  : list Q :=
  match ks with
  | [] => weights
  | k :: ks' =>
      let w' := next_weight d k w in
      if Qltb (Qabs w') threshold then weights
      else ffd_loop d threshold ks' w' (weights ++ [w'])
  end.

Definition compute_ffd_weights (d threshold : Q) (max_size : nat) : list Q :=
  ffd_loop d threshold (range 1 max_size) 1 [1].

(** The inner loop of [frac_diff_manual]:
    [for k in range(window): sum_val += weights[k] * series[t - k]]. *)
Fixpoint conv_loop (weights series : list Q) (t : nat) (ks : list nat)
  (sum_val : Q) : outcome Q :=
  match ks with
  | [] => Returns sum_val
  | k :: ks' =>
      match getitem weights k, getitem series (t - k) with
      | Returns wk, Returns x => conv_loop weights series t ks' (sum_val + wk * x)
      | Raises e, _ => Raises e
      | _, Raises e => Raises e
      end
  end.

(** The only array of [frac_diff_manual]. *)
Definition result_var : var (list cell) cell := Var (fun s => s) (fun l _ => l).

Definition frac_diff_body (weights series : list Q) (window t : nat)
  : M (list cell) unit :=
  sum_val <- lift (conv_loop weights series t (range 0 window) 0) ;;
  assign result_var t (Some sum_val).

Definition frac_diff_manual (series : list Q) (d threshold : Q)
  : outcome (list cell) :=
  let weights := compute_ffd_weights d threshold MAX_SIZE in
  let window := length weights in
  let n := length series in
  run (for_each (range (window - 1) n) (frac_diff_body weights series window))
      (np_full n nan) (fun result => result).

End FracDiff.

(** ** numpy statistics used by the half-life estimator *)

Module Numpy.

Definition dot (a b : list Q) : Q := Qsum (np_mul a b).

(** [np.var(a, ddof=1)]: the squared deviations from the mean, summed and
    divided by [N - 1].  On an empty array the mean is NaN; on one element
    the only deviation is 0 and the quotient is 0/0: NaN both times. *)
Definition np_var_ddof1 (a : list Q) : cell :=
  match np_mean a with
  | Some arrmean =>
      let x := np_sub_scalar a arrmean in
      if decide (length a <= 1)%nat then nan
      else Some (Qsum (np_mul x x) / (of_nat (length a) - 1))
  | None => nan
  end.

(** [np.cov(m, y)] with its defaults ([bias=False], so [ddof = 1]): the rows
    [m] and [y] are stacked (they must have one length), their means are
    subtracted, and the 2x2 matrix of dot products is scaled by
    [1 / (N - 1)].  For [N <= 1] every entry is NaN. *)
Definition np_cov (m y : list Q) : outcome (list (list cell)) :=
  if decide (length m = length y) then
    match np_mean m, np_mean y with
    | Some avg_m, Some avg_y =>
        let Xm := np_sub_scalar m avg_m in
        let Xy := np_sub_scalar y avg_y in
        let scaled (c : Q) : cell :=
          if decide (length m <= 1)%nat then nan
          else Some (c * (1 / (of_nat (length m) - 1))) in
        Returns [[scaled (dot Xm Xm); scaled (dot Xm Xy)];
                 [scaled (dot Xy Xm); scaled (dot Xy Xy)]]
    | _, _ => Returns [[nan; nan]; [nan; nan]]
    end
  else Raises ValueError.

(** [c[i, j]] on a two-dimensional array. *)
Definition getitem2 {A} (c : list (list A)) (i j : nat) : outcome A :=
  match getitem c i with
  | Returns row => getitem row j
  | Raises e => Raises e
  end.

End Numpy.

Import Numpy.

(** ** External collaborators

    [np.log] and the statsmodels entry points are not part of the
    repository: they are an interface the code is parametrised by.  Each
    statsmodels call is described by the record of its arguments, and either
    returns the record of the fields the code reads or raises.  [np_log] is
    the library's logarithm as a number of the model; no property of it is
    assumed. *)

Module Collaborators.

(** [adfuller(x, maxlag=, regression=)]; the code reads [result[0]],
    [result[1]] and [result[4]] at the keys "1%", "5%", "10%". *)
Record adfuller_args : Type := {
  adf_x : list Q;
  adf_maxlag : nat;
  adf_regression : string
}.

Record adfuller_result : Type := {
  adf_statistic : Q;
  adf_pvalue : Q;
  adf_crit_1pct : Q;
  adf_crit_5pct : Q;
  adf_crit_10pct : Q
}.

(** [OLS(endog, add_constant(exog)).fit().params]. *)
Record ols_args : Type := {
  ols_endog : list Q;
  ols_exog : list Q
}.

(** [coint(y0, y1, trend=, maxlag=)]; the code reads [coint_result[0]],
    [coint_result[1]] and the three entries of [coint_result[2]]. *)
Record coint_args : Type := {
  coint_y0 : list Q;
  coint_y1 : list Q;
  coint_trend : string;
  coint_maxlag : nat
}.

Record coint_result : Type := {
  coint_t : Q;
  coint_pvalue : Q;
  coint_crit_0 : Q;
  coint_crit_1 : Q;
  coint_crit_2 : Q
}.

(** [coint_johansen(endog, det_order=, k_ar_diff=)]; the code reads the
    arrays [eig], [lr1], [lr2] and the table [cvt]. *)
Record johansen_args : Type := {
  joh_endog : list (list Q);
  joh_det_order : Z;
  joh_k_ar_diff : nat
}.

Record johansen_result : Type := {
  eig : list Q;
  lr1 : list Q;
  lr2 : list Q;
  cvt : list (list Q)
}.

Class Libraries : Type := {
  np_log : Q -> Q;
  adfuller : adfuller_args -> outcome adfuller_result;
  ols_params : ols_args -> outcome (list Q);
  coint : coint_args -> outcome coint_result;
  coint_johansen : johansen_args -> outcome johansen_result
}.

End Collaborators.

Import Collaborators.

(** ** Rolling half-life ([compute_half_life_ar1]) *)

Module HalfLife.

Record frame : Type := {
  half_lives : list cell;
  ar1_coefs : list cell;
  is_mean_reverting : list Z
}.

Definition half_lives_var : var frame cell :=
  Var half_lives
      (fun l s => {| half_lives := l; ar1_coefs := ar1_coefs s;
                     is_mean_reverting := is_mean_reverting s |}).
Definition ar1_coefs_var : var frame cell :=
  Var ar1_coefs
      (fun l s => {| half_lives := half_lives s; ar1_coefs := l;
                     is_mean_reverting := is_mean_reverting s |}).
Definition is_mean_reverting_var : var frame Z :=
  Var is_mean_reverting
      (fun l s => {| half_lives := half_lives s; ar1_coefs := ar1_coefs s;
                     is_mean_reverting := l |}).

Section WithLibraries.
Context `{Libraries}.

(** [-np.log(2) / np.log(phi)]. *)
Definition raw_half_life (phi : cell) : cell :=
  cell_div (Some (- np_log 2)) (option_map np_log phi).

(** The body of [for i in range(window - 1, n)].  The slice starts at
    [i - window + 1], written [i + 1 - window] on naturals. *)
Definition body (series : list Q) (window i : nat) : M frame unit :=
  let window_data := slice series (i + 1 - window) (i + 1) in
  let y_t := drop 1 window_data in
  let y_lag := take (length window_data - 1) window_data in
  c <- lift (np_cov y_t y_lag) ;;
  cov <- lift (getitem2 c 0 1) ;;
  let var_lag := np_var_ddof1 y_lag in
  let phi := if cell_ltb (Some 1e-10) var_lag then cell_div cov var_lag
             else Some 0 in
  assign ar1_coefs_var i phi ;;;
  if cell_ltb (Some 0) phi && cell_ltb phi (Some 1) then
    assign is_mean_reverting_var i 1%Z ;;;
    assign half_lives_var i (raw_half_life phi) ;;;
    h <- read half_lives_var i ;;
    assign half_lives_var i (py_min h (Some (of_nat (window * 10))))
  else
    assign half_lives_var i nan.

Definition compute_half_life_ar1 (series : list Q) (window : nat)
  : outcome frame :=
  let n := length series in
  run (for_each (range (window - 1) n) (body series window))
      {| half_lives := np_full n nan;
         ar1_coefs := np_full n nan;
         is_mean_reverting := np_zeros_int n |}
      (fun s => s).

End WithLibraries.

End HalfLife.

(** ** Rolling ADF ([compute_rolling_adf]) *)

Module RollingADF.

Record frame : Type := {
  adf_stats : list cell;
  p_values : list cell;
  critical_1pct : list cell;
  critical_5pct : list cell;
  critical_10pct : list cell;
  is_stationary : list Z
}.

Definition adf_stats_var : var frame cell :=
  Var adf_stats
      (fun l s => {| adf_stats := l; p_values := p_values s;
                     critical_1pct := critical_1pct s;
                     critical_5pct := critical_5pct s;
                     critical_10pct := critical_10pct s;
                     is_stationary := is_stationary s |}).
Definition p_values_var : var frame cell :=
  Var p_values
      (fun l s => {| adf_stats := adf_stats s; p_values := l;
                     critical_1pct := critical_1pct s;
                     critical_5pct := critical_5pct s;
                     critical_10pct := critical_10pct s;
                     is_stationary := is_stationary s |}).
Definition critical_1pct_var : var frame cell :=
  Var critical_1pct
      (fun l s => {| adf_stats := adf_stats s; p_values := p_values s;
                     critical_1pct := l;
                     critical_5pct := critical_5pct s;
                     critical_10pct := critical_10pct s;
                     is_stationary := is_stationary s |}).
Definition critical_5pct_var : var frame cell :=
  Var critical_5pct
      (fun l s => {| adf_stats := adf_stats s; p_values := p_values s;
                     critical_1pct := critical_1pct s;
                     critical_5pct := l;
                     critical_10pct := critical_10pct s;
                     is_stationary := is_stationary s |}).
Definition critical_10pct_var : var frame cell :=
  Var critical_10pct
      (fun l s => {| adf_stats := adf_stats s; p_values := p_values s;
                     critical_1pct := critical_1pct s;
                     critical_5pct := critical_5pct s;
                     critical_10pct := l;
                     is_stationary := is_stationary s |}).
Definition is_stationary_var : var frame Z :=
  Var is_stationary
      (fun l s => {| adf_stats := adf_stats s; p_values := p_values s;
                     critical_1pct := critical_1pct s;
                     critical_5pct := critical_5pct s;
                     critical_10pct := critical_10pct s;
                     is_stationary := l |}).

Section WithLibraries.
Context `{Libraries}.

(** The arguments of the call at window [i]. *)
Definition request (series : list Q) (window maxlag : nat)
  (regression : string) (i : nat) : adfuller_args :=
  {| adf_x := slice series (i + 1 - window) (i + 1);
     adf_maxlag := maxlag;
     adf_regression := regression |}.

(** The [try] block of the loop. *)
Definition try_block (series : list Q) (window maxlag : nat)
  (regression : string) (i : nat) : M frame unit :=
  result <- lift (adfuller (request series window maxlag regression i)) ;;
  assign adf_stats_var i (Some (adf_statistic result)) ;;;
  assign p_values_var i (Some (adf_pvalue result)) ;;;
  assign critical_1pct_var i (Some (adf_crit_1pct result)) ;;;
  assign critical_5pct_var i (Some (adf_crit_5pct result)) ;;;
  assign critical_10pct_var i (Some (adf_crit_10pct result)) ;;;
  assign is_stationary_var i
    (if Qltb (adf_pvalue result) 0.05 then 1%Z else 0%Z).

Definition compute_rolling_adf (series : list Q) (window maxlag : nat)
  (regression : string) : outcome frame :=
  let n := length series in
  run (for_each (range (window - 1) n)
         (fun i => try_except_pass
                     (try_block series window maxlag regression i)))
      {| adf_stats := np_full n nan;
         p_values := np_full n nan;
         critical_1pct := np_full n nan;
         critical_5pct := np_full n nan;
         critical_10pct := np_full n nan;
         is_stationary := np_zeros_int n |}
      (fun s => s).

End WithLibraries.

End RollingADF.

(** ** Rolling Engle-Granger ([compute_engle_granger]) *)

Module EngleGranger.

Record frame : Type := {
  hedge_ratios : list cell;
  intercepts : list cell;
  spreads : list cell;
  adf_stats : list cell;
  p_values : list cell;
  critical_1pct : list cell;
  critical_5pct : list cell;
  critical_10pct : list cell;
  is_cointegrated : list Z
}.

Definition hedge_ratios_var : var frame cell :=
  Var hedge_ratios
      (fun l s => {| hedge_ratios := l; intercepts := intercepts s;
                     spreads := spreads s; adf_stats := adf_stats s;
                     p_values := p_values s;
                     critical_1pct := critical_1pct s;
                     critical_5pct := critical_5pct s;
                     critical_10pct := critical_10pct s;
                     is_cointegrated := is_cointegrated s |}).
Definition intercepts_var : var frame cell :=
  Var intercepts
      (fun l s => {| hedge_ratios := hedge_ratios s; intercepts := l;
                     spreads := spreads s; adf_stats := adf_stats s;
                     p_values := p_values s;
                     critical_1pct := critical_1pct s;
                     critical_5pct := critical_5pct s;
                     critical_10pct := critical_10pct s;
                     is_cointegrated := is_cointegrated s |}).
Definition spreads_var : var frame cell :=
  Var spreads
      (fun l s => {| hedge_ratios := hedge_ratios s;
                     intercepts := intercepts s;
                     spreads := l; adf_stats := adf_stats s;
                     p_values := p_values s;
                     critical_1pct := critical_1pct s;
                     critical_5pct := critical_5pct s;
                     critical_10pct := critical_10pct s;
                     is_cointegrated := is_cointegrated s |}).
Definition adf_stats_var : var frame cell :=
  Var adf_stats
      (fun l s => {| hedge_ratios := hedge_ratios s;
                     intercepts := intercepts s;
                     spreads := spreads s; adf_stats := l;
                     p_values := p_values s;
                     critical_1pct := critical_1pct s;
                     critical_5pct := critical_5pct s;
                     critical_10pct := critical_10pct s;
                     is_cointegrated := is_cointegrated s |}).
Definition p_values_var : var frame cell :=
  Var p_values
      (fun l s => {| hedge_ratios := hedge_ratios s;
                     intercepts := intercepts s;
                     spreads := spreads s; adf_stats := adf_stats s;
                     p_values := l;
                     critical_1pct := critical_1pct s;
                     critical_5pct := critical_5pct s;
                     critical_10pct := critical_10pct s;
                     is_cointegrated := is_cointegrated s |}).
Definition critical_1pct_var : var frame cell :=
  Var critical_1pct
      (fun l s => {| hedge_ratios := hedge_ratios s;
                     intercepts := intercepts s;
                     spreads := spreads s; adf_stats := adf_stats s;
                     p_values := p_values s;
                     critical_1pct := l;
                     critical_5pct := critical_5pct s;
                     critical_10pct := critical_10pct s;
                     is_cointegrated := is_cointegrated s |}).
Definition critical_5pct_var : var frame cell :=
  Var critical_5pct
      (fun l s => {| hedge_ratios := hedge_ratios s;
                     intercepts := intercepts s;
                     spreads := spreads s; adf_stats := adf_stats s;
                     p_values := p_values s;
                     critical_1pct := critical_1pct s;
                     critical_5pct := l;
                     critical_10pct := critical_10pct s;
                     is_cointegrated := is_cointegrated s |}).
Definition critical_10pct_var : var frame cell :=
  Var critical_10pct
      (fun l s => {| hedge_ratios := hedge_ratios s;
                     intercepts := intercepts s;
                     spreads := spreads s; adf_stats := adf_stats s;
                     p_values := p_values s;
                     critical_1pct := critical_1pct s;
                     critical_5pct := critical_5pct s;
                     critical_10pct := l;
                     is_cointegrated := is_cointegrated s |}).
Definition is_cointegrated_var : var frame Z :=
  Var is_cointegrated
      (fun l s => {| hedge_ratios := hedge_ratios s;
                     intercepts := intercepts s;
                     spreads := spreads s; adf_stats := adf_stats s;
                     p_values := p_values s;
                     critical_1pct := critical_1pct s;
                     critical_5pct := critical_5pct s;
                     critical_10pct := critical_10pct s;
                     is_cointegrated := l |}).

Section WithLibraries.
Context `{Libraries}.

Definition y_win (y : list Q) (window i : nat) : list Q :=
  slice y (i + 1 - window) (i + 1).
Definition x_win (x : list Q) (window i : nat) : list Q :=
  slice x (i + 1 - window) (i + 1).

(** The arguments of the two calls at window [i]. *)
Definition ols_request (y x : list Q) (window i : nat) : ols_args :=
  {| ols_endog := y_win y window i; ols_exog := x_win x window i |}.

Definition coint_request (y x : list Q) (window i : nat) : coint_args :=
  {| coint_y0 := y_win y window i;
     coint_y1 := x_win x window i;
     coint_trend := "c";
     coint_maxlag := 1 |}.

(** The [try] block of the loop. *)
Definition try_block (y x : list Q) (window i : nat) : M frame unit :=
  params <- lift (ols_params (ols_request y x window i)) ;;
  alpha <- lift (getitem params 0) ;;
  beta <- lift (getitem params 1) ;;
  assign intercepts_var i (Some alpha) ;;;
  assign hedge_ratios_var i (Some beta) ;;;
  yi <- lift (getitem y i) ;;
  xi <- lift (getitem x i) ;;
  assign spreads_var i (Some (yi - alpha - beta * xi)) ;;;
  coint_result <- lift (coint (coint_request y x window i)) ;;
  assign adf_stats_var i (Some (coint_t coint_result)) ;;;
  assign p_values_var i (Some (coint_pvalue coint_result)) ;;;
  assign critical_1pct_var i (Some (coint_crit_0 coint_result)) ;;;
  assign critical_5pct_var i (Some (coint_crit_1 coint_result)) ;;;
  assign critical_10pct_var i (Some (coint_crit_2 coint_result)) ;;;
  assign is_cointegrated_var i
    (if Qltb (coint_pvalue coint_result) 0.05 then 1%Z else 0%Z).

Definition compute_engle_granger (y x : list Q) (window : nat)
  : outcome frame :=
  let n := length y in
  run (for_each (range (window - 1) n)
         (fun i => try_except_pass (try_block y x window i)))
      {| hedge_ratios := np_full n nan;
         intercepts := np_full n nan;
         spreads := np_full n nan;
         adf_stats := np_full n nan;
         p_values := np_full n nan;
         critical_1pct := np_full n nan;
         critical_5pct := np_full n nan;
         critical_10pct := np_full n nan;
         is_cointegrated := np_zeros_int n |}
      (fun s => s).

End WithLibraries.

End EngleGranger.

(** ** Rolling Johansen ([compute_johansen]) *)

Module Johansen.

(** A two-dimensional array: its rows, and the number of columns
    ([shape[1]], which the rows of an empty array do not tell). *)
Record ndarray2 : Type := {
  rows : list (list Q);
  shape1 : nat
}.

Record frame : Type := {
  ranks : list cell;
  trace_stat_0 : list cell;
  trace_stat_1 : list cell;
  max_stat_0 : list cell;
  max_stat_1 : list cell;
  eigval_0 : list cell;
  eigval_1 : list cell
}.

Definition ranks_var : var frame cell :=
  Var ranks
      (fun l s => {| ranks := l; trace_stat_0 := trace_stat_0 s;
                     trace_stat_1 := trace_stat_1 s;
                     max_stat_0 := max_stat_0 s; max_stat_1 := max_stat_1 s;
                     eigval_0 := eigval_0 s; eigval_1 := eigval_1 s |}).
Definition trace_stat_0_var : var frame cell :=
  Var trace_stat_0
      (fun l s => {| ranks := ranks s; trace_stat_0 := l;
                     trace_stat_1 := trace_stat_1 s;
                     max_stat_0 := max_stat_0 s; max_stat_1 := max_stat_1 s;
                     eigval_0 := eigval_0 s; eigval_1 := eigval_1 s |}).
Definition trace_stat_1_var : var frame cell :=
  Var trace_stat_1
      (fun l s => {| ranks := ranks s; trace_stat_0 := trace_stat_0 s;
                     trace_stat_1 := l;
                     max_stat_0 := max_stat_0 s; max_stat_1 := max_stat_1 s;
                     eigval_0 := eigval_0 s; eigval_1 := eigval_1 s |}).
Definition max_stat_0_var : var frame cell :=
  Var max_stat_0
      (fun l s => {| ranks := ranks s; trace_stat_0 := trace_stat_0 s;
                     trace_stat_1 := trace_stat_1 s;
                     max_stat_0 := l; max_stat_1 := max_stat_1 s;
                     eigval_0 := eigval_0 s; eigval_1 := eigval_1 s |}).
Definition max_stat_1_var : var frame cell :=
  Var max_stat_1
      (fun l s => {| ranks := ranks s; trace_stat_0 := trace_stat_0 s;
                     trace_stat_1 := trace_stat_1 s;
                     max_stat_0 := max_stat_0 s; max_stat_1 := l;
                     eigval_0 := eigval_0 s; eigval_1 := eigval_1 s |}).
Definition eigval_0_var : var frame cell :=
  Var eigval_0
      (fun l s => {| ranks := ranks s; trace_stat_0 := trace_stat_0 s;
                     trace_stat_1 := trace_stat_1 s;
                     max_stat_0 := max_stat_0 s; max_stat_1 := max_stat_1 s;
                     eigval_0 := l; eigval_1 := eigval_1 s |}).
Definition eigval_1_var : var frame cell :=
  Var eigval_1
      (fun l s => {| ranks := ranks s; trace_stat_0 := trace_stat_0 s;
                     trace_stat_1 := trace_stat_1 s;
                     max_stat_0 := max_stat_0 s; max_stat_1 := max_stat_1 s;
                     eigval_0 := eigval_0 s; eigval_1 := l |}).

(** The rank decision at the 5% column of [cvt] (columns 0 = 10%, 1 = 5%,
    2 = 1%): [rank = 0], raised to 1 and then to 2 as the trace statistics
    exceed their critical values.  The subscripts are evaluated in the
    order of the source and may raise. *)
Definition rank_decision {S} (result : johansen_result) : M S Z :=
  l0 <- lift (getitem (lr1 result) 0) ;;
  c0 <- lift (getitem2 (cvt result) 0 1) ;;
  if Qltb c0 l0 then
    l1 <- lift (getitem (lr1 result) 1) ;;
    c1 <- lift (getitem2 (cvt result) 1 1) ;;
    if Qltb c1 l1 then ret 2%Z else ret 1%Z
  else ret 0%Z.

Section WithLibraries.
Context `{Libraries}.

(** The arguments of the call at window [i]. *)
Definition request (data : ndarray2) (window : nat) (det_order : Z)
  (k_ar_diff : nat) (i : nat) : johansen_args :=
  {| joh_endog := slice (rows data) (i + 1 - window) (i + 1);
     joh_det_order := det_order;
     joh_k_ar_diff := k_ar_diff |}.

(** The [try] block of the loop. *)
Definition try_block (data : ndarray2) (window : nat) (det_order : Z)
  (k_ar_diff : nat) (i : nat) : M frame unit :=
  result <- lift (coint_johansen (request data window det_order k_ar_diff i)) ;;
  e0 <- lift (getitem (eig result) 0) ;;
  assign eigval_0_var i (Some e0) ;;;
  e1 <- lift (getitem (eig result) 1) ;;
  assign eigval_1_var i (Some e1) ;;;
  t0 <- lift (getitem (lr1 result) 0) ;;
  assign trace_stat_0_var i (Some t0) ;;;
  t1 <- lift (getitem (lr1 result) 1) ;;
  assign trace_stat_1_var i (Some t1) ;;;
  m0 <- lift (getitem (lr2 result) 0) ;;
  assign max_stat_0_var i (Some m0) ;;;
  m1 <- lift (getitem (lr2 result) 1) ;;
  assign max_stat_1_var i (Some m1) ;;;
  rank <- rank_decision result ;;
  assign ranks_var i (Some (inject_Z rank)).

Definition compute_johansen (data : ndarray2) (window : nat) (det_order : Z)
  (k_ar_diff : nat) : outcome frame :=
  let n := length (rows data) in
  let n_vars := shape1 data in
  run (for_each (range (window - 1) n)
         (fun i => try_except_pass
                     (try_block data window det_order k_ar_diff i)))
      {| ranks := np_full n nan;
         trace_stat_0 := np_full n nan;
         trace_stat_1 := np_full n nan;
         max_stat_0 := np_full n nan;
         max_stat_1 := np_full n nan;
         eigval_0 := np_full n nan;
         eigval_1 := np_full n nan |}
      (fun s => s).

End WithLibraries.

End Johansen.

(** ** The comparison formulas of [debug_half_life_ar1]

    "Method 3" (sample, [N - 1] denominator) and "Method 2" (population,
    [N] denominator) of [debug_comparison.py], on the lag pairs of one
    window: two arrays of one length [n = len(y_lag)].  For [n = 1] the
    only deviation is 0 and the quotient by [n - 1] is 0/0, NaN; for
    [n = 0] the sum of no terms, 0.0, is divided by -1. *)

Module DebugComparison.

Definition cov_sample_correct (y_t y_lag : list Q) : cell :=
  let n := length y_lag in
  match np_mean y_t, np_mean y_lag with
  | Some mean_y, Some mean_y_lag =>
      if decide (n = 1)%nat then nan
      else Some (Qsum (np_mul (np_sub_scalar y_t mean_y)
                              (np_sub_scalar y_lag mean_y_lag))
                 / (of_nat n - 1))
  | _, _ => Some (0 / (of_nat n - 1))
  end.

Definition var_lag_sample (y_lag : list Q) : cell :=
  let n := length y_lag in
  match np_mean y_lag with
  | Some mean_y_lag =>
      if decide (n = 1)%nat then nan
      else Some (Qsum (map (fun v => v ^ 2) (np_sub_scalar y_lag mean_y_lag))
                 / (of_nat n - 1))
  | None => Some (0 / (of_nat n - 1))
  end.

Definition phi_sample (y_t y_lag : list Q) : cell :=
  if cell_ltb (Some 1e-10) (var_lag_sample y_lag)
  then cell_div (cov_sample_correct y_t y_lag) (var_lag_sample y_lag)
  else Some 0.

Definition cov_pop (y_t y_lag : list Q) : cell :=
  match np_mean y_t, np_mean y_lag, np_mean (np_mul y_t y_lag) with
  | Some mean_y, Some mean_y_lag, Some mean_cross =>
      Some (mean_cross - mean_y * mean_y_lag)
  | _, _, _ => nan
  end.

Definition var_lag_pop (y_lag : list Q) : cell :=
  match np_mean y_lag, np_mean (map (fun v => v ^ 2) y_lag) with
  | Some mean_y_lag, Some mean_sq => Some (mean_sq - mean_y_lag ^ 2)
  | _, _ => nan
  end.

Definition phi_pop (y_t y_lag : list Q) : cell :=
  if cell_ltb (Some 1e-10) (var_lag_pop y_lag)
  then cell_div (cov_pop y_t y_lag) (var_lag_pop y_lag)
  else Some 0.

End DebugComparison.

(** ** Loop summaries

    What a loop of in-place writes leaves in an array, and the value each
    function writes at an index, as functions of the inputs alone. *)

Module Summary.

(** One optional write, and the writes of a whole loop. *)
Definition write {A} (o : option A) (i : nat) (l : list A) : list A :=
  match o with
  | Some v => <[i:=v]> l
  | None => l
  end.

Definition writes {A} (g : nat -> option A) (idx : list nat) (l : list A)
  : list A :=
  foldl (fun l i => write (g i) i l) l idx.

(** Two cells are the same float: both NaN, or equal rationals. *)
Definition cell_equiv (a b : cell) : Prop :=
  match a, b with
  | Some x, Some y => x == y
  | None, None => True
  | _, _ => False
  end.

Definition on_return {R} (o : outcome R) : option R :=
  match o with
  | Returns r => Some r
  | Raises _ => None
  end.

(** The weights of the recurrence, without truncation. *)
Fixpoint ffd_weight (d : Q) (k : nat) : Q :=
  match k with
  | O => 1
  | S k' => FracDiff.next_weight d k (ffd_weight d k')
  end.

(** The convolution sum at [t], accumulated in the order of the loop. *)
Definition conv_value (weights series : list Q) (t : nat) : Q :=
  foldl (fun sum_val k => sum_val + nth k weights 0 * nth (t - k) series 0)
        0 (range 0 (length weights)).

Section HalfLife.
Context `{Libraries}.

Definition window_data (series : list Q) (window i : nat) : list Q :=
  slice series (i + 1 - window) (i + 1).
Definition y_t (series : list Q) (window i : nat) : list Q :=
  drop 1 (window_data series window i).
Definition y_lag (series : list Q) (window i : nat) : list Q :=
  take (length (window_data series window i) - 1) (window_data series window i).

(** The entry [[0, 1]] of [np.cov(m, y)]. *)
Definition cov01 (m y : list Q) : cell :=
  match np_mean m, np_mean y with
  | Some avg_m, Some avg_y =>
      if decide (length m <= 1)%nat then nan
      else Some (dot (np_sub_scalar m avg_m) (np_sub_scalar y avg_y)
                 * (1 / (of_nat (length m) - 1)))
  | _, _ => nan
  end.

(** The value the loop stores in [ar1_coefs], on the lag pairs. *)
Definition phi_code (yt ylag : list Q) : cell :=
  if cell_ltb (Some 1e-10) (np_var_ddof1 ylag)
  then cell_div (cov01 yt ylag) (np_var_ddof1 ylag)
  else Some 0.

Definition phi_at (series : list Q) (window i : nat) : cell :=
  phi_code (y_t series window i) (y_lag series window i).

Definition mean_reverting (phi : cell) : bool :=
  cell_ltb (Some 0) phi && cell_ltb phi (Some 1).

Definition half_life_at (series : list Q) (window i : nat) : cell :=
  let phi := phi_at series window i in
  if mean_reverting phi
  then py_min (HalfLife.raw_half_life phi) (Some (of_nat (window * 10)))
  else nan.

Definition flag_at (series : list Q) (window i : nat) : option Z :=
  if mean_reverting (phi_at series window i) then Some 1%Z else None.

Definition hl_step (series : list Q) (window i : nat) (s : HalfLife.frame)
  : HalfLife.frame :=
  {| HalfLife.half_lives :=
       <[i := half_life_at series window i]> (HalfLife.half_lives s);
     HalfLife.ar1_coefs :=
       <[i := phi_at series window i]> (HalfLife.ar1_coefs s);
     HalfLife.is_mean_reverting :=
       write (flag_at series window i) i (HalfLife.is_mean_reverting s) |}.

(** Every array of the frame has length [n]. *)
Definition hl_wf (n : nat) (s : HalfLife.frame) : Prop :=
  length (HalfLife.half_lives s) = n /\ length (HalfLife.ar1_coefs s) = n
  /\ length (HalfLife.is_mean_reverting s) = n.

End HalfLife.

(** *** Rolling ADF *)

Section RollingADF.
Context `{Libraries}.
Variables (series : list Q) (window maxlag : nat) (regression : string).

(** The answer of the collaborator at window [i], if it returns. *)
Definition adf_answer (i : nat) : option adfuller_result :=
  on_return (adfuller (RollingADF.request series window maxlag regression i)).

Definition adf_flag (result : adfuller_result) : Z :=
  if Qltb (adf_pvalue result) 0.05 then 1%Z else 0%Z.

Definition adf_step (i : nat) (s : RollingADF.frame) : RollingADF.frame :=
  let a := adf_answer i in
  {| RollingADF.adf_stats :=
       write ((fun r => Some (adf_statistic r)) <$> a) i (RollingADF.adf_stats s);
     RollingADF.p_values :=
       write ((fun r => Some (adf_pvalue r)) <$> a) i (RollingADF.p_values s);
     RollingADF.critical_1pct :=
       write ((fun r => Some (adf_crit_1pct r)) <$> a) i
             (RollingADF.critical_1pct s);
     RollingADF.critical_5pct :=
       write ((fun r => Some (adf_crit_5pct r)) <$> a) i
             (RollingADF.critical_5pct s);
     RollingADF.critical_10pct :=
       write ((fun r => Some (adf_crit_10pct r)) <$> a) i
             (RollingADF.critical_10pct s);
     RollingADF.is_stationary :=
       write (adf_flag <$> a) i (RollingADF.is_stationary s) |}.

Definition adf_wf (n : nat) (s : RollingADF.frame) : Prop :=
  length (RollingADF.adf_stats s) = n /\ length (RollingADF.p_values s) = n
  /\ length (RollingADF.critical_1pct s) = n
  /\ length (RollingADF.critical_5pct s) = n
  /\ length (RollingADF.critical_10pct s) = n
  /\ length (RollingADF.is_stationary s) = n.

End RollingADF.

(** *** Engle-Granger *)

Section EngleGranger.
Context `{Libraries}.
Variables (y x : list Q) (window : nat).

(** Step 1 at window [i]: the two regression parameters, if the fit
    returns at least two. *)
Definition eg_alpha_beta (i : nat) : option (Q * Q) :=
  params ← on_return (ols_params (EngleGranger.ols_request y x window i));
  alpha ← params !! 0%nat;
  beta ← params !! 1%nat;
  Some (alpha, beta).

(** The spread at the current point, if [y[i]] and [x[i]] exist. *)
Definition eg_spread (i : nat) : option Q :=
  ab ← eg_alpha_beta i;
  yi ← y !! i;
  xi ← x !! i;
  Some (yi - ab.1 - ab.2 * xi).

(** Step 2 at window [i]: reached after the spread, the answer of the
    test if it returns. *)
Definition eg_test (i : nat) : option coint_result :=
  _ ← eg_spread i;
  on_return (coint (EngleGranger.coint_request y x window i)).

Definition eg_flag (result : coint_result) : Z :=
  if Qltb (coint_pvalue result) 0.05 then 1%Z else 0%Z.

Definition eg_step (i : nat) (s : EngleGranger.frame) : EngleGranger.frame :=
  {| EngleGranger.hedge_ratios :=
       write ((fun ab => Some ab.2) <$> eg_alpha_beta i) i
             (EngleGranger.hedge_ratios s);
     EngleGranger.intercepts :=
       write ((fun ab => Some ab.1) <$> eg_alpha_beta i) i
             (EngleGranger.intercepts s);
     EngleGranger.spreads :=
       write (Some <$> eg_spread i) i (EngleGranger.spreads s);
     EngleGranger.adf_stats :=
       write ((fun r => Some (coint_t r)) <$> eg_test i) i
             (EngleGranger.adf_stats s);
     EngleGranger.p_values :=
       write ((fun r => Some (coint_pvalue r)) <$> eg_test i) i
             (EngleGranger.p_values s);
     EngleGranger.critical_1pct :=
       write ((fun r => Some (coint_crit_0 r)) <$> eg_test i) i
             (EngleGranger.critical_1pct s);
     EngleGranger.critical_5pct :=
       write ((fun r => Some (coint_crit_1 r)) <$> eg_test i) i
             (EngleGranger.critical_5pct s);
     EngleGranger.critical_10pct :=
       write ((fun r => Some (coint_crit_2 r)) <$> eg_test i) i
             (EngleGranger.critical_10pct s);
     EngleGranger.is_cointegrated :=
       write (eg_flag <$> eg_test i) i (EngleGranger.is_cointegrated s) |}.

Definition eg_wf (n : nat) (s : EngleGranger.frame) : Prop :=
  length (EngleGranger.hedge_ratios s) = n
  /\ length (EngleGranger.intercepts s) = n
  /\ length (EngleGranger.spreads s) = n
  /\ length (EngleGranger.adf_stats s) = n
  /\ length (EngleGranger.p_values s) = n
  /\ length (EngleGranger.critical_1pct s) = n
  /\ length (EngleGranger.critical_5pct s) = n
  /\ length (EngleGranger.critical_10pct s) = n
  /\ length (EngleGranger.is_cointegrated s) = n.

(** The residual spread series of Step 1 over the window,
    [y - alpha - beta * x]. *)
Definition residual_spread (i : nat) : option (list Q) :=
  ab ← eg_alpha_beta i;
  Some (zip_with (fun yj xj => yj - ab.1 - ab.2 * xj)
                 (EngleGranger.y_win y window i)
                 (EngleGranger.x_win x window i)).

(** The series handed to the test collaborator at window [i]. *)
Definition coint_inputs (i : nat) : list (list Q) :=
  [coint_y0 (EngleGranger.coint_request y x window i);
   coint_y1 (EngleGranger.coint_request y x window i)].

End EngleGranger.

(** *** Johansen *)

(** The rank decision without the monad: [None] when a subscript is out
    of range. *)
Definition rank_value (result : johansen_result) : option Z :=
  l0 ← lr1 result !! 0%nat;
  c0 ← cvt result !! 0%nat ≫= (fun row => row !! 1%nat);
  if Qltb c0 l0 then
    l1 ← lr1 result !! 1%nat;
    c1 ← cvt result !! 1%nat ≫= (fun row => row !! 1%nat);
    Some (if Qltb c1 l1 then 2%Z else 1%Z)
  else Some 0%Z.

Section Johansen.
Context `{Libraries}.
Variables (data : Johansen.ndarray2) (window : nat) (det_order : Z)
  (k_ar_diff : nat).

Definition joh_answer (i : nat) : option johansen_result :=
  on_return (coint_johansen
               (Johansen.request data window det_order k_ar_diff i)).

(** The values read from the answer, each reached only after the ones
    before it. *)
Definition joh_e0 (i : nat) : option Q :=
  r ← joh_answer i; eig r !! 0%nat.
Definition joh_e1 (i : nat) : option Q :=
  _ ← joh_e0 i; r ← joh_answer i; eig r !! 1%nat.
Definition joh_t0 (i : nat) : option Q :=
  _ ← joh_e1 i; r ← joh_answer i; lr1 r !! 0%nat.
Definition joh_t1 (i : nat) : option Q :=
  _ ← joh_t0 i; r ← joh_answer i; lr1 r !! 1%nat.
Definition joh_m0 (i : nat) : option Q :=
  _ ← joh_t1 i; r ← joh_answer i; lr2 r !! 0%nat.
Definition joh_m1 (i : nat) : option Q :=
  _ ← joh_m0 i; r ← joh_answer i; lr2 r !! 1%nat.
Definition joh_rank (i : nat) : option Z :=
  _ ← joh_m1 i; r ← joh_answer i; rank_value r.

Definition joh_step (i : nat) (s : Johansen.frame) : Johansen.frame :=
  {| Johansen.ranks :=
       write ((fun z => Some (inject_Z z)) <$> joh_rank i) i (Johansen.ranks s);
     Johansen.trace_stat_0 :=
       write (Some <$> joh_t0 i) i (Johansen.trace_stat_0 s);
     Johansen.trace_stat_1 :=
       write (Some <$> joh_t1 i) i (Johansen.trace_stat_1 s);
     Johansen.max_stat_0 :=
       write (Some <$> joh_m0 i) i (Johansen.max_stat_0 s);
     Johansen.max_stat_1 :=
       write (Some <$> joh_m1 i) i (Johansen.max_stat_1 s);
     Johansen.eigval_0 :=
       write (Some <$> joh_e0 i) i (Johansen.eigval_0 s);
     Johansen.eigval_1 :=
       write (Some <$> joh_e1 i) i (Johansen.eigval_1 s) |}.

Definition joh_wf (n : nat) (s : Johansen.frame) : Prop :=
  length (Johansen.ranks s) = n
  /\ length (Johansen.trace_stat_0 s) = n
  /\ length (Johansen.trace_stat_1 s) = n
  /\ length (Johansen.max_stat_0 s) = n
  /\ length (Johansen.max_stat_1 s) = n
  /\ length (Johansen.eigval_0 s) = n
  /\ length (Johansen.eigval_1 s) = n.

End Johansen.

End Summary.

Import Summary.

(** ** Rows of the returned frames

    The value of every column at one index.  A float column may hold the
    sentinel NaN; an integer column may not. *)

Module Rows.

Inductive value : Type :=
| Float (c : cell)
| Int (z : Z).

Definition sentinel : value := Float nan.

Definition frac_diff_row (result : list cell) (t : nat) : option (list value) :=
  r ← result !! t; Some [Float r].

Definition half_life_row (df : HalfLife.frame) (t : nat)
  : option (list value) :=
  h ← HalfLife.half_lives df !! t;
  a ← HalfLife.ar1_coefs df !! t;
  f ← HalfLife.is_mean_reverting df !! t;
  Some [Float h; Float a; Int f].

Definition adf_row (df : RollingADF.frame) (t : nat) : option (list value) :=
  st ← RollingADF.adf_stats df !! t;
  pv ← RollingADF.p_values df !! t;
  c1 ← RollingADF.critical_1pct df !! t;
  c5 ← RollingADF.critical_5pct df !! t;
  c10 ← RollingADF.critical_10pct df !! t;
  f ← RollingADF.is_stationary df !! t;
  Some [Float st; Float pv; Float c1; Float c5; Float c10; Int f].

Definition engle_granger_row (df : EngleGranger.frame) (t : nat)
  : option (list value) :=
  hr ← EngleGranger.hedge_ratios df !! t;
  ic ← EngleGranger.intercepts df !! t;
  sp ← EngleGranger.spreads df !! t;
  st ← EngleGranger.adf_stats df !! t;
  pv ← EngleGranger.p_values df !! t;
  c1 ← EngleGranger.critical_1pct df !! t;
  c5 ← EngleGranger.critical_5pct df !! t;
  c10 ← EngleGranger.critical_10pct df !! t;
  f ← EngleGranger.is_cointegrated df !! t;
  Some [Float hr; Float ic; Float sp; Float st; Float pv; Float c1; Float c5;
        Float c10; Int f].

Definition johansen_row (df : Johansen.frame) (t : nat)
  : option (list value) :=
  rk ← Johansen.ranks df !! t;
  t0 ← Johansen.trace_stat_0 df !! t;
  t1 ← Johansen.trace_stat_1 df !! t;
  m0 ← Johansen.max_stat_0 df !! t;
  m1 ← Johansen.max_stat_1 df !! t;
  e0 ← Johansen.eigval_0 df !! t;
  e1 ← Johansen.eigval_1 df !! t;
  Some [Float rk; Float t0; Float t1; Float m0; Float m1; Float e0; Float e1].

(** The frames before any window is processed. *)
Definition half_life_blank (n : nat) : HalfLife.frame :=
  {| HalfLife.half_lives := np_full n nan;
     HalfLife.ar1_coefs := np_full n nan;
     HalfLife.is_mean_reverting := np_zeros_int n |}.

Definition adf_blank (n : nat) : RollingADF.frame :=
  {| RollingADF.adf_stats := np_full n nan;
     RollingADF.p_values := np_full n nan;
     RollingADF.critical_1pct := np_full n nan;
     RollingADF.critical_5pct := np_full n nan;
     RollingADF.critical_10pct := np_full n nan;
     RollingADF.is_stationary := np_zeros_int n |}.

Definition engle_granger_blank (n : nat) : EngleGranger.frame :=
  {| EngleGranger.hedge_ratios := np_full n nan;
     EngleGranger.intercepts := np_full n nan;
     EngleGranger.spreads := np_full n nan;
     EngleGranger.adf_stats := np_full n nan;
     EngleGranger.p_values := np_full n nan;
     EngleGranger.critical_1pct := np_full n nan;
     EngleGranger.critical_5pct := np_full n nan;
     EngleGranger.critical_10pct := np_full n nan;
     EngleGranger.is_cointegrated := np_zeros_int n |}.

Definition johansen_blank (n : nat) : Johansen.frame :=
  {| Johansen.ranks := np_full n nan;
     Johansen.trace_stat_0 := np_full n nan;
     Johansen.trace_stat_1 := np_full n nan;
     Johansen.max_stat_0 := np_full n nan;
     Johansen.max_stat_1 := np_full n nan;
     Johansen.eigval_0 := np_full n nan;
     Johansen.eigval_1 := np_full n nan |}.

End Rows.

Import Rows.

(** ** The synthetic pair ([generate_cointegrated_pair])

    The random generator and the calendar are external.  A generator is a
    value; [seeded seed] is the generator [np.random.default_rng] builds
    from a non-negative seed, [rng.normal(loc, scale)] returns one draw and
    the advanced generator, and [rng.normal(loc, scale, n)] is [n] draws
    in a row.  [date_index n] stands for the [n] formatted daily
    timestamps of [pd.date_range]. *)

Module Pair.

Class Random : Type := {
  rng : Type;
  seeded : Z -> rng;
  normal : Q -> Q -> rng -> Q * rng;
  date_index : nat -> list string
}.

(** [np.random.default_rng(seed)]: a negative seed is refused. *)
Definition default_rng `{Random} (seed : Z) : outcome rng :=
  if decide (seed < 0)%Z then Raises ValueError else Returns (seeded seed).

(** The returned frame; a scalar given to [pd.DataFrame] fills its
    column. *)
Record frame : Type := {
  index : list string;
  x : list Q;
  y : list Q;
  true_beta : list Q;
  true_alpha : list Q;
  true_phi : list Q
}.

(** [np.cumsum]. *)
Fixpoint cumsum_from (acc : Q) (l : list Q) : list Q :=
  match l with
  | [] => []
  | v :: l' => (acc + v) :: cumsum_from (acc + v) l'
  end.

Definition np_cumsum (l : list Q) : list Q :=
  match l with
  | [] => []
  | v :: l' => v :: cumsum_from v l'
  end.

(** [a (op) b] on one-dimensional arrays: entry by entry on equal shapes,
    an array of one entry is stretched, other shapes do not broadcast. *)
Definition np_binary (op : Q -> Q -> Q) (a b : list Q) : outcome (list Q) :=
  if decide (length a = length b) then Returns (zip_with op a b)
  else match a, b with
       | [u], _ => Returns (map (op u) b)
       | _, [v] => Returns (map (fun u => op u v) a)
       | _, _ => Raises ValueError
       end.

(** [pd.DataFrame({...})] of three arrays and three scalars: the arrays
    must have one length. *)
Definition data_frame (index : list string) (x y : list Q)
  (true_beta true_alpha true_phi : Q) : outcome frame :=
  if decide (length index = length x /\ length x = length y) then
    Returns {| index := index; x := x; y := y;
               true_beta := replicate (length x) true_beta;
               true_alpha := replicate (length x) true_alpha;
               true_phi := replicate (length x) true_phi |}
  else Raises ValueError.

Section WithRandom.
Context `{Random}.

Fixpoint normal_array (loc scale : Q) (n : nat) (g : rng) : list Q * rng :=
  match n with
  | O => ([], g)
  | S n' =>
      let (v, g') := normal loc scale g in
      let (vs, g'') := normal_array loc scale n' g' in
      (v :: vs, g'')
  end.

(** The variables of the noise loop: the array and the generator. *)
Record state : Type := {
  noise : list Q;
  generator : rng
}.

Definition noise_var : var state Q :=
  Var noise (fun l s => {| noise := l; generator := generator s |}).

Definition draw (loc scale : Q) : M state Q :=
  fun s =>
    let (v, g) := normal loc scale (generator s) in
    (Returns v, {| noise := noise s; generator := g |}).

(** [noise[i] = phi * noise[i-1] + rng.normal(0.0, 2.0)]. *)
Definition noise_body (phi : Q) (i : nat) : M state unit :=
  prev <- read noise_var (i - 1) ;;
  shock <- draw 0 2 ;;
  assign noise_var i (phi * prev + shock).

(** The body of [generate_cointegrated_pair] once the generator exists
    and [n] is known not to be negative. *)
Definition generate_from (g0 : rng) (n : nat) : outcome frame :=
  let (x_returns, g1) := normal_array 0 1 n g0 in
  let x := map (fun c => 100 + c) (np_cumsum x_returns) in
  let true_beta := 1.5 in
  let true_alpha := 10 in
  let phi := 0.7 in
  match for_each (range 1 n) (noise_body phi)
                 {| noise := replicate n 0; generator := g1 |} with
  | (Raises e, _) => Raises e
  | (Returns _, s) =>
      match np_binary Qplus (map (fun v => true_alpha + true_beta * v) x)
                            (noise s) with
      | Raises e => Raises e
      | Returns y =>
          data_frame (date_index n) x y true_beta true_alpha phi
      end
  end.

(** [default_rng] refuses a negative seed and [rng.normal] a negative
    size; both raise before anything is computed. *)
Definition generate_cointegrated_pair (n seed : Z) : outcome frame :=
  match default_rng seed with
  | Raises e => Raises e
  | Returns g0 =>
      if decide (n < 0)%Z then Raises ValueError
      else generate_from g0 (Z.to_nat n)
  end.

(** *** Summaries *)

(** The draws of the random walk, and the generator left after them. *)
Definition x_returns (n : nat) (seed : Z) : list Q :=
  fst (normal_array 0 1 n (seeded seed)).

Definition after_returns (n : nat) (seed : Z) : rng :=
  snd (normal_array 0 1 n (seeded seed)).

(** The generator after [k] turns of the noise loop, and the draw of
    turn [k + 1]. *)
Fixpoint after_shocks (k : nat) (g : rng) : rng :=
  match k with
  | O => g
  | S k' => snd (normal 0 2 (after_shocks k' g))
  end.

Definition shock (g : rng) (k : nat) : Q :=
  fst (normal 0 2 (after_shocks k g)).

(** The value the loop leaves at index [t]. *)
Fixpoint noise_at (phi : Q) (g : rng) (t : nat) : Q :=
  match t with
  | O => 0
  | S t' => phi * noise_at phi g t' + shock g t'
  end.

Definition noise_step (phi : Q) (g : rng) (i : nat) (s : state) : state :=
  {| noise := <[i := noise_at phi g i]> (noise s);
     generator := after_shocks i g |}.

End WithRandom.

End Pair.

(** ** Sample collaborators and inputs

    One instance of the interface, used to run the functions on concrete
    series: a closed-form simple regression, tests that raise on windows of
    fewer than four observations and otherwise answer with fixed numbers,
    and a logarithm tabulated at the two arguments the examples need. *)

Module Samples.

Definition sample_log (q : Q) : Q :=
  if Qeq_bool q 2 then 0.693147
  else if Qeq_bool q 0.5 then - 0.693147
  else 0.

Definition sample_adfuller (args : adfuller_args) : outcome adfuller_result :=
  if decide (length (adf_x args) < 4)%nat then Raises BackendError
  else Returns {| adf_statistic := - 3.1; adf_pvalue := 0.03;
                  adf_crit_1pct := - 3.5; adf_crit_5pct := - 2.9;
                  adf_crit_10pct := - 2.6 |}.

(** Intercept and slope of the least-squares line; a constant regressor
    leaves one parameter only. *)
Definition sample_ols (args : ols_args) : outcome (list Q) :=
  let ys := ols_endog args in
  let xs := ols_exog args in
  match np_mean ys, np_mean xs with
  | Some mean_y, Some mean_x =>
      let sxx := dot (np_sub_scalar xs mean_x) (np_sub_scalar xs mean_x) in
      let sxy := dot (np_sub_scalar xs mean_x) (np_sub_scalar ys mean_y) in
      if Qeq_bool sxx 0 then Returns [dot xs ys / dot xs xs]
      else Returns [mean_y - sxy / sxx * mean_x; sxy / sxx]
  | _, _ => Raises ValueError
  end.

Definition sample_coint (args : coint_args) : outcome coint_result :=
  if decide (length (coint_y0 args) < 4)%nat then Raises BackendError
  else Returns {| coint_t := - 3.6; coint_pvalue := 0.02;
                  coint_crit_0 := - 3.9; coint_crit_1 := - 3.3;
                  coint_crit_2 := - 3.0 |}.

Definition sample_johansen (args : johansen_args) : outcome johansen_result :=
  if decide (length (joh_endog args) < 4)%nat then Raises BackendError
  else Returns {| eig := [0.3; 0.1];
                  lr1 := [20; 2];
                  lr2 := [18; 2];
                  cvt := [[13.4294; 15.4943; 19.9349];
                          [2.7055; 3.8415; 6.6349]] |}.

Definition sample_libraries : Libraries :=
  {| np_log := sample_log;
     adfuller := sample_adfuller;
     ols_params := sample_ols;
     coint := sample_coint;
     coint_johansen := sample_johansen |}.

(** A second instance whose tests answer on every window. *)
Definition answering_libraries : Libraries :=
  {| np_log := sample_log;
     adfuller := fun _ =>
       Returns {| adf_statistic := - 3.1; adf_pvalue := 0.03;
                  adf_crit_1pct := - 3.5; adf_crit_5pct := - 2.9;
                  adf_crit_10pct := - 2.6 |};
     ols_params := sample_ols;
     coint := fun _ =>
       Returns {| coint_t := - 3.6; coint_pvalue := 0.02;
                  coint_crit_0 := - 3.9; coint_crit_1 := - 3.3;
                  coint_crit_2 := - 3.0 |};
     coint_johansen := fun _ =>
       Returns {| eig := [0.3; 0.1]; lr1 := [20; 2]; lr2 := [18; 2];
                  cvt := [[13.4294; 15.4943; 19.9349];
                          [2.7055; 3.8415; 6.6349]] |} |}.

Definition series5 : list Q := [1; 2; 3; 3.5; 3.75].
Definition y3 : list Q := [1; 3; 2].
Definition x3 : list Q := [1; 2; 3].
Definition y5 : list Q := [1; 3; 2; 5; 4].
Definition x5 : list Q := [1; 2; 3; 4; 5].
Definition data5 : Johansen.ndarray2 :=
  {| Johansen.rows := [[1; 1]; [3; 2]; [2; 3]; [5; 4]; [4; 5]];
     Johansen.shape1 := 2 |}.

End Samples.

(** A generator for the examples: the state counts the draws, the
    standard draws cycle through -1, 0, 1, and every timestamp is a
    stand-in string. *)
Module PairSamples.

Definition sample_draw (k : nat) : Q := inject_Z (Z.of_nat (k mod 3)) - 1.

Definition sample_random : Pair.Random :=
  {| Pair.rng := nat;
     Pair.seeded := fun _ => 0%nat;
     Pair.normal := fun loc scale k => (loc + scale * sample_draw k, S k);
     Pair.date_index := fun n => replicate n "2020-01-01T00:00:00Z"%string |}.

End PairSamples.

(** * Properties *)

(** ** Comparisons *)

Lemma Qltb_true (a b : Q) : Qltb a b = true <-> a < b.
Proof.
  unfold Qltb. rewrite Qlt_alt. destruct (a ?= b); split; congruence.
Qed.

Lemma Qltb_false (a b : Q) : Qltb a b = false <-> b <= a.
Proof.
  unfold Qltb. destruct (a ?= b) eqn:E.
  - split; [intros _ | reflexivity].
    apply Qeq_alt in E. rewrite E. apply Qle_refl.
  - split; [discriminate |].
    intros Hle. apply Qlt_alt in E. exfalso. apply (Qlt_not_le _ _ E Hle).
  - split; [intros _ | reflexivity].
    apply Qgt_alt in E. apply Qlt_le_weak. exact E.
Qed.

(** ** Arrays and loops *)

Section Arrays.
Context {A : Type}.
Implicit Types (l : list A) (g : nat -> option A) (idx : list nat).

Lemma length_write o i l : length (write o i l) = length l.
Proof. destruct o; simpl; [apply length_insert | reflexivity]. Qed.

Lemma length_writes g idx l : length (writes g idx l) = length l.
Proof.
  unfold writes. revert l.
  induction idx as [|i idx IH]; intros l; simpl; [reflexivity |].
  rewrite IH. apply length_write.
Qed.

Lemma write_lookup_ne o i t l : i <> t -> write o i l !! t = l !! t.
Proof. intros Hne. destruct o; simpl; [by apply list_lookup_insert_ne | done]. Qed.

Lemma writes_lookup_out g idx l t :
  t ∉ idx -> writes g idx l !! t = l !! t.
Proof.
  unfold writes. revert l.
  induction idx as [|i idx IH]; intros l Hnotin; simpl; [done |].
  apply not_elem_of_cons in Hnotin as [Hne Hnotin].
  rewrite IH by done. apply write_lookup_ne. congruence.
Qed.

Lemma writes_lookup_in g idx l t :
  NoDup idx -> t ∈ idx -> (t < length l)%nat ->
  writes g idx l !! t = match g t with Some v => Some v | None => l !! t end.
Proof.
  revert l. induction idx as [|i idx IH]; intros l Hnd Hin Hlen.
  - by apply elem_of_nil in Hin.
  - apply NoDup_cons in Hnd as [Hi Hnd].
    change (writes g (i :: idx) l) with (writes g idx (write (g i) i l)).
    apply elem_of_cons in Hin as [-> | Hin].
    + rewrite writes_lookup_out by done.
      destruct (g i); simpl; [by apply list_lookup_insert_eq | done].
    + rewrite IH by (rewrite ?length_write; done).
      destruct (g t); [done |]. apply write_lookup_ne. intros ->. done.
Qed.

End Arrays.

Lemma elem_of_range (a b t : nat) : t ∈ range a b <-> (a <= t < b)%nat.
Proof. unfold range. rewrite elem_of_seq. lia. Qed.

Lemma NoDup_range (a b : nat) : NoDup (range a b).
Proof. apply NoDup_seq. Qed.

(** The lookups of an array after a loop over [range(a, b)]. *)
Lemma writes_range_lookup {A} (g : nat -> option A) (a b : nat) (l : list A) t :
  writes g (range a b) l !! t =
    if decide (a <= t < b /\ t < length l)%nat
    then match g t with Some v => Some v | None => l !! t end
    else l !! t.
Proof.
  destruct (decide _) as [[Hin Hlen] | Hout].
  - apply writes_lookup_in; [apply NoDup_range | by apply elem_of_range | done].
  - destruct (decide (a <= t < b)%nat) as [Hin | Hnot].
    + assert (length l <= t)%nat as Hge by lia.
      rewrite (lookup_ge_None_2 l t Hge).
      apply lookup_ge_None_2. by rewrite length_writes.
    + apply writes_lookup_out. by rewrite elem_of_range.
Qed.

Section Monad.
Context {S : Type}.

Lemma assign_ok {A} (v : var S A) (i : nat) (x : A) (s : S) :
  (i < length (load v s))%nat ->
  assign v i x s = (Returns tt, store v (<[i:=x]> (load v s)) s).
Proof.
  intros Hlt. unfold assign, setitem. by rewrite decide_True.
Qed.

(** A loop whose body acts at every index as a total function [f] of the
    state, under an invariant [P], is the left fold of [f]. *)
Lemma for_each_fold (P : S -> Prop) (f : nat -> S -> S)
  (body : nat -> M S unit) (idx : list nat) :
  (forall i s, i ∈ idx -> P s -> body i s = (Returns tt, f i s) /\ P (f i s)) ->
  forall s, P s ->
    for_each idx body s = (Returns tt, foldl (fun s i => f i s) s idx)
    /\ P (foldl (fun s i => f i s) s idx).
Proof.
  induction idx as [|i idx IH]; intros Hbody s HP; simpl; [done |].
  destruct (Hbody i s) as [Hrun HP']; [by left | done |].
  unfold bind. rewrite Hrun. apply IH; [| done].
  intros j s' Hj. apply Hbody. by right.
Qed.

End Monad.

(** ** The weight recurrence *)

Section Weights.
Import FracDiff.
Variables (d threshold : Q).

Lemma ffd_loop_spec (len : nat) : forall k,
  exists L, (k <= L <= k + len)%nat /\
    ffd_loop d threshold (seq (S k) len) (ffd_weight d k)
             (map (ffd_weight d) (seq 0 (S k)))
      = map (ffd_weight d) (seq 0 (S L)) /\
    (forall j, (k < j <= L)%nat ->
       Qltb (Qabs (ffd_weight d j)) threshold = false) /\
    ((L < k + len)%nat ->
       Qltb (Qabs (ffd_weight d (S L))) threshold = true).
Proof.
  induction len as [|len IH]; intros k.
  - exists k. cbn [ffd_loop]. repeat split; intros; lia.
  - change (seq (S k) (S len)) with (S k :: seq (S (S k)) len).
    cbn [ffd_loop].
    change (next_weight d (S k) (ffd_weight d k)) with (ffd_weight d (S k)).
    destruct (Qltb (Qabs (ffd_weight d (S k))) threshold) eqn:E.
    + exists k. repeat split; intros; try lia. exact E.
    + destruct (IH (S k)) as (L & HL & Heq & Hall & Hstop).
      exists L. split; [lia |]. split; [| split].
      * rewrite <- Heq. f_equal.
        rewrite (seq_S (S k) 0), map_app. reflexivity.
      * intros j Hj. destruct (decide (j = S k)) as [-> | Hne]; [exact E |].
        apply Hall. lia.
      * intros HltL. apply Hstop. lia.
Qed.

(** The returned list is a prefix of the recurrence: it stops before the
    first weight below the threshold, or at [max_size] entries. *)
Lemma compute_ffd_weights_spec (max_size : nat) :
  exists L, (L <= max_size - 1)%nat /\
    compute_ffd_weights d threshold max_size
      = map (ffd_weight d) (seq 0 (S L)) /\
    (forall j, (0 < j <= L)%nat ->
       Qltb (Qabs (ffd_weight d j)) threshold = false) /\
    ((L < max_size - 1)%nat ->
       Qltb (Qabs (ffd_weight d (S L))) threshold = true).
Proof.
  destruct (ffd_loop_spec (max_size - 1) 0) as (L & HL & Heq & Hall & Hstop).
  exists L. split; [lia |]. split; [exact Heq |]. split; [exact Hall |].
  intros Hlt. apply Hstop. lia.
Qed.

Lemma lookup_ffd_prefix (L k : nat) (wk : Q) :
  map (ffd_weight d) (seq 0 (S L)) !! k = Some wk ->
  (k <= L)%nat /\ wk = ffd_weight d k.
Proof.
  intros Hk. change (map (ffd_weight d) (seq 0 (S L)))
    with (ffd_weight d <$> seq 0 (S L)) in Hk.
  rewrite list_lookup_fmap in Hk.
  destruct (seq 0 (S L) !! k) as [j|] eqn:Hj; [| discriminate].
  apply lookup_seq in Hj as [-> Hlt]. simpl in Hk.
  split; [lia | congruence].
Qed.

Lemma ffd_prefix_lookup (L k : nat) :
  (k <= L)%nat ->
  map (ffd_weight d) (seq 0 (S L)) !! k = Some (ffd_weight d k).
Proof.
  intros Hk. change (map (ffd_weight d) (seq 0 (S L)))
    with (ffd_weight d <$> seq 0 (S L)).
  rewrite list_lookup_fmap, lookup_seq_lt by lia. reflexivity.
Qed.

End Weights.

Lemma MAX_SIZE_val : FracDiff.MAX_SIZE = Z.to_nat 10000.
Proof. reflexivity. Qed.

(** C2.  For every [d] and every threshold (in particular every positive
    one), the weights returned by [compute_ffd_weights] with the default
    guard start with 1.0 and follow the recurrence
    [w[k] = -w[k-1] * (d - k + 1) / k]; there are at most 10000 of them;
    every weight kept after the first is not below the threshold in
    magnitude; and when fewer than 10000 are returned, the next weight of
    the recurrence, the one that stopped the loop, is below the threshold
    and is not part of the result. *)
Theorem ffd_weights_recurrence_and_stop (d threshold : Q) :
  let weights := FracDiff.compute_ffd_weights d threshold FracDiff.MAX_SIZE in
  weights !! 0%nat = Some 1 /\
  (forall k wk, (1 <= k)%nat -> weights !! k = Some wk ->
     exists wprev, weights !! (k - 1)%nat = Some wprev /\
       wk = (- wprev) * (d - of_nat k + 1) / of_nat k) /\
  (1 <= Z.of_nat (length weights) <= 10000)%Z /\
  (forall k wk, (1 <= k)%nat -> weights !! k = Some wk ->
     ~ Qabs wk < threshold) /\
  ((Z.of_nat (length weights) < 10000)%Z ->
     exists wlast, weights !! (length weights - 1)%nat = Some wlast /\
       Qabs ((- wlast) * (d - of_nat (length weights) + 1)
             / of_nat (length weights)) < threshold).
Proof.
  intros weights.
  destruct (compute_ffd_weights_spec d threshold FracDiff.MAX_SIZE)
    as (L & HL & Heq & Hkept & Hstop).
  fold weights in Heq. rewrite MAX_SIZE_val in HL, Hstop.
  assert (length weights = Datatypes.S L) as Hlen.
  { rewrite Heq, length_map, length_seq. reflexivity. }
  split; [| split; [| split; [| split]]].
  - rewrite Heq. apply (ffd_prefix_lookup d L 0). lia.
  - intros k wk Hk Hlook. rewrite Heq in Hlook.
    apply lookup_ffd_prefix in Hlook as [HkL ->].
    exists (ffd_weight d (k - 1)). split.
    + rewrite Heq. apply ffd_prefix_lookup. lia.
    + destruct k as [|k]; [lia |].
      replace (Datatypes.S k - 1)%nat with k by lia. reflexivity.
  - rewrite Hlen. lia.
  - intros k wk Hk Hlook. rewrite Heq in Hlook.
    apply lookup_ffd_prefix in Hlook as [HkL ->].
    intros Hlt. apply Qltb_true in Hlt.
    rewrite Hkept in Hlt by lia. discriminate.
  - intros Hshort. rewrite Hlen in Hshort.
    exists (ffd_weight d L). split.
    + rewrite Hlen. replace (Datatypes.S L - 1)%nat with L by lia.
      rewrite Heq. apply ffd_prefix_lookup. lia.
    + rewrite Hlen. apply Qltb_true.
      apply (Hstop ltac:(lia)).
Qed.

(** ** The filter loop *)

Lemma getitem_lt {A} (l : list A) (i : nat) (dflt : A) :
  (i < length l)%nat -> getitem l i = Returns (nth i l dflt).
Proof.
  intros Hlt. unfold getitem.
  destruct (l !! i) as [x|] eqn:E.
  - by rewrite (nth_lookup_Some _ _ dflt _ E).
  - apply lookup_ge_None in E. lia.
Qed.

Section Filter.
Import FracDiff.
Variables (weights series : list Q).

Lemma conv_loop_spec (t : nat) (ks : list nat) : forall sum_val,
  (forall k, k ∈ ks -> (k < length weights /\ t - k < length series)%nat) ->
  conv_loop weights series t ks sum_val =
    Returns (foldl (fun sum_val k =>
                      sum_val + nth k weights 0 * nth (t - k) series 0)
                   sum_val ks).
Proof.
  induction ks as [|k ks IH]; intros sum_val Hin; [reflexivity |].
  destruct (Hin k) as [Hw Hs]; [by left |].
  cbn [conv_loop foldl].
  rewrite (getitem_lt weights k 0 Hw), (getitem_lt series (t - k) 0 Hs).
  apply IH. intros j Hj. apply Hin. by right.
Qed.

Lemma frac_diff_body_spec (t : nat) (s : list cell) :
  (length weights - 1 <= t < length series)%nat ->
  length s = length series ->
  frac_diff_body weights series (length weights) t s =
    (Returns tt, <[t := Some (conv_value weights series t)]> s).
Proof.
  intros Ht Hs. unfold frac_diff_body, bind, lift.
  rewrite conv_loop_spec.
  - rewrite assign_ok by (simpl; lia). reflexivity.
  - intros k Hk. apply elem_of_range in Hk. lia.
Qed.

Lemma frac_diff_loop_spec :
  run (for_each (range (length weights - 1) (length series))
         (frac_diff_body weights series (length weights)))
      (np_full (length series) nan) (fun result => result)
  = Returns (writes (fun t => Some (Some (conv_value weights series t)))
               (range (length weights - 1) (length series))
               (np_full (length series) nan)).
Proof.
  unfold run.
  destruct (for_each_fold (fun s => length s = length series)
              (fun t s => <[t := Some (conv_value weights series t)]> s)
              (frac_diff_body weights series (length weights))
              (range (length weights - 1) (length series)))
    with (s := np_full (length series) nan) as [Hrun _].
  - intros t s Ht Hs. apply elem_of_range in Ht. split.
    + by apply frac_diff_body_spec.
    + by rewrite length_insert.
  - apply length_replicate.
  - rewrite Hrun. reflexivity.
Qed.

End Filter.

Lemma frac_diff_manual_spec (series : list Q) (d threshold : Q) :
  let weights := FracDiff.compute_ffd_weights d threshold FracDiff.MAX_SIZE in
  FracDiff.frac_diff_manual series d threshold =
    Returns (writes (fun t => Some (Some (conv_value weights series t)))
               (range (length weights - 1) (length series))
               (np_full (length series) nan)).
Proof. intros weights. apply frac_diff_loop_spec. Qed.

(** ** The identity filter *)

Lemma Q_zero_plus_one_times (x : Q) : 0 + 1 * x = x.
Proof.
  destruct x as [num den]. unfold Qplus, Qmult. cbn [Qnum Qden].
  f_equal. lia.
Qed.

Lemma ffd_weights_d0 (d threshold : Q) :
  d == 0 -> 0 < threshold ->
  FracDiff.compute_ffd_weights d threshold FracDiff.MAX_SIZE = [1].
Proof.
  intros Hd Hthr. unfold FracDiff.compute_ffd_weights, range.
  assert (exists m, (FracDiff.MAX_SIZE - 1 = Datatypes.S m)%nat) as [m ->].
  { exists (Z.to_nat 9998). rewrite MAX_SIZE_val. lia. }
  change (seq 1 (Datatypes.S m)) with (1%nat :: seq 2 m).
  cbn [FracDiff.ffd_loop].
  assert (FracDiff.next_weight d 1 1 == 0) as Hw.
  { unfold FracDiff.next_weight, of_nat. rewrite Hd. reflexivity. }
  assert (Qltb (Qabs (FracDiff.next_weight d 1 1)) threshold = true) as ->.
  { apply Qltb_true. rewrite Hw. exact Hthr. }
  reflexivity.
Qed.

(** C7.  With [d = 0] (and a positive threshold, as [FFDParams] requires)
    the weight series is [[1.0]] and the filter returns the input series,
    entry for entry: no index is left at the sentinel. *)
Theorem frac_diff_identity (series : list Q) (d threshold : Q) :
  d == 0 -> 0 < threshold ->
  FracDiff.compute_ffd_weights d threshold FracDiff.MAX_SIZE = [1] /\
  FracDiff.frac_diff_manual series d threshold = Returns (map Some series).
Proof.
  intros Hd Hthr. split; [by apply ffd_weights_d0 |].
  rewrite frac_diff_manual_spec, (ffd_weights_d0 d threshold Hd Hthr).
  f_equal. apply list_eq. intros t.
  rewrite writes_range_lookup. unfold np_full. rewrite length_replicate.
  change (map Some series) with (Some <$> series).
  rewrite list_lookup_fmap.
  destruct (decide _) as [[_ Hlt] | Hout].
  - destruct (series !! t) as [x|] eqn:E.
    + unfold conv_value. simpl. rewrite Nat.sub_0_r.
      rewrite (nth_lookup_Some _ _ 0 _ E), Q_zero_plus_one_times. reflexivity.
    + apply lookup_ge_None in E. lia.
  - simpl in Hout. assert (length series <= t)%nat as Hge by lia.
    rewrite (lookup_ge_None_2 series t Hge).
    apply lookup_ge_None_2. by rewrite length_replicate.
Qed.

(** ** The half-life loop *)

Lemma np_cov_entry (m y : list Q) :
  length m = length y ->
  exists c, np_cov m y = Returns c /\ getitem2 c 0 1 = Returns (cov01 m y).
Proof.
  intros Hlen. unfold np_cov, cov01. rewrite decide_True by done.
  destruct (np_mean m), (np_mean y); eexists; split; reflexivity.
Qed.

Lemma lag_pairs_length (series : list Q) (window i : nat) :
  length (y_t series window i) = length (y_lag series window i).
Proof.
  unfold y_t, y_lag. rewrite length_drop, length_take. lia.
Qed.

Section HalfLifeLoop.
Context `{Libraries}.
Import HalfLife.

Lemma hl_step_wf n series window i s : hl_wf n s -> hl_wf n (hl_step series window i s).
Proof.
  intros (H1 & H2 & H3). unfold hl_wf, hl_step. simpl.
  rewrite !length_insert, length_write. done.
Qed.

Lemma hl_body_spec (series : list Q) (window i : nat) (s : frame) :
  (i < length series)%nat -> hl_wf (length series) s ->
  body series window i s = (Returns tt, hl_step series window i s).
Proof.
  intros Hi (H1 & H2 & H3). destruct s as [hl ar mr]. simpl in H1, H2, H3.
  unfold body.
  fold (window_data series window i).
  fold (y_t series window i). fold (y_lag series window i).
  destruct (np_cov_entry _ _ (lag_pairs_length series window i))
    as (c & Hc & Hentry).
  unfold bind at 1. unfold lift at 1. rewrite Hc.
  unfold bind at 1. unfold lift at 1. rewrite Hentry.
  change (if cell_ltb (Some 1e-10) (np_var_ddof1 (y_lag series window i))
          then cell_div (cov01 (y_t series window i) (y_lag series window i))
                        (np_var_ddof1 (y_lag series window i))
          else Some 0)
    with (phi_at series window i).
  unfold bind at 1. rewrite assign_ok by (simpl; lia).
  unfold hl_step, half_life_at, flag_at.
  fold (mean_reverting (phi_at series window i)).
  destruct (mean_reverting (phi_at series window i)).
  - unfold bind at 1. rewrite assign_ok by (simpl; lia).
    unfold bind at 1. rewrite assign_ok by (simpl; lia).
    unfold bind, read. simpl.
    rewrite (getitem_lt _ i nan) by (rewrite length_insert; lia).
    rewrite (nth_lookup_Some _ _ nan (raw_half_life (phi_at series window i)))
      by (apply list_lookup_insert_eq; lia).
    rewrite assign_ok by (simpl; rewrite length_insert; lia).
    simpl. by rewrite list_insert_insert_eq.
  - rewrite assign_ok by (simpl; lia). reflexivity.
Qed.

Lemma hl_fold (series : list Q) (window : nat) (idx : list nat) :
  forall hl ar mr,
    foldl (fun s i => hl_step series window i s)
          {| half_lives := hl; ar1_coefs := ar; is_mean_reverting := mr |} idx
    = {| half_lives :=
           writes (fun i => Some (half_life_at series window i)) idx hl;
         ar1_coefs := writes (fun i => Some (phi_at series window i)) idx ar;
         is_mean_reverting := writes (flag_at series window) idx mr |}.
Proof.
  unfold writes. induction idx as [|i idx IH]; intros hl ar mr; [reflexivity |].
  cbn [foldl]. rewrite <- IH. reflexivity.
Qed.

(** The function never raises: it returns the arrays left by the loop. *)
Lemma compute_half_life_ar1_spec (series : list Q) (window : nat) :
  let n := length series in
  let idx := range (window - 1) n in
  compute_half_life_ar1 series window =
    Returns {| half_lives :=
                 writes (fun i => Some (half_life_at series window i)) idx
                        (np_full n nan);
               ar1_coefs :=
                 writes (fun i => Some (phi_at series window i)) idx
                        (np_full n nan);
               is_mean_reverting :=
                 writes (flag_at series window) idx (np_zeros_int n) |}.
Proof.
  intros n idx. unfold compute_half_life_ar1, run. fold n. fold idx.
  destruct (for_each_fold (hl_wf n) (hl_step series window)
              (body series window) idx)
    with (s := {| half_lives := np_full n nan; ar1_coefs := np_full n nan;
                  is_mean_reverting := np_zeros_int n |}) as [Hrun _].
  - intros i s Hi Hwf. apply elem_of_range in Hi. split.
    + apply hl_body_spec; [lia | done].
    + by apply hl_step_wf.
  - unfold hl_wf, np_full, np_zeros_int. simpl.
    rewrite !length_replicate. done.
  - rewrite Hrun, hl_fold. reflexivity.
Qed.

End HalfLifeLoop.

(** ** The AR(1) coefficient *)

Lemma np_mul_sub_scalar (a b : list Q) (ca cb : Q) :
  np_mul (np_sub_scalar a ca) (np_sub_scalar b cb)
  = zip_with (fun u v => (u - ca) * (v - cb)) a b.
Proof.
  unfold np_mul, np_sub_scalar. revert b.
  induction a as [|u a IH]; intros [|v b]; simpl; [done.. |].
  by rewrite IH.
Qed.

Lemma np_mul_square (a : list Q) (c : Q) :
  np_mul (np_sub_scalar a c) (np_sub_scalar a c)
  = map (fun v => (v - c) ^ 2) a.
Proof.
  rewrite np_mul_sub_scalar.
  induction a as [|u a IH]; simpl; [done |]. by rewrite IH.
Qed.

Lemma map_square_sub_scalar (a : list Q) (c : Q) :
  map (fun v => v ^ 2) (np_sub_scalar a c) = map (fun v => (v - c) ^ 2) a.
Proof. unfold np_sub_scalar. by rewrite map_map. Qed.

Lemma np_mean_nonempty (a : list Q) :
  (1 <= length a)%nat -> np_mean a = Some (Qsum a / of_nat (length a)).
Proof. destruct a; simpl; [lia | done]. Qed.

Section Phi.
Variables (yt ylag : list Q).
Hypothesis same_length : length yt = length ylag.

Lemma phi_code_pairs :
  (2 <= length ylag)%nat ->
  let n := of_nat (length ylag) in
  let mean_y := Qsum yt / n in
  let mean_lag := Qsum ylag / n in
  let cov := Qsum (zip_with (fun a b => (a - mean_y) * (b - mean_lag)) yt ylag)
             / (n - 1) in
  let var_lag := Qsum (map (fun b => (b - mean_lag) ^ 2) ylag) / (n - 1) in
  exists phi, phi_code yt ylag = Some phi /\
    phi == if Qltb 1e-10 var_lag then cov / var_lag else 0.
Proof.
  intros Hlen n mean_y mean_lag cov var_lag. unfold phi_code.
  assert (np_var_ddof1 ylag = Some var_lag) as ->.
  { unfold np_var_ddof1. rewrite np_mean_nonempty by lia.
    rewrite decide_False by lia. by rewrite np_mul_square. }
  assert (cov01 yt ylag
          = Some (Qsum (zip_with (fun a b => (a - mean_y) * (b - mean_lag))
                                 yt ylag) * (1 / (n - 1)))) as ->.
  { unfold cov01. rewrite !np_mean_nonempty by lia.
    rewrite decide_False by lia. unfold dot.
    rewrite np_mul_sub_scalar, same_length. reflexivity. }
  cbn [cell_ltb cell_div]. destruct (Qltb 1e-10 var_lag).
  - eexists. split; [reflexivity |]. unfold cov, Qdiv. ring.
  - eexists. split; reflexivity.
Qed.

Lemma phi_code_degenerate :
  (length ylag <= 1)%nat -> phi_code yt ylag = Some 0.
Proof.
  clear same_length. intros Hlen. unfold phi_code, np_var_ddof1.
  destruct (np_mean ylag); [rewrite decide_True by lia |]; reflexivity.
Qed.

Lemma phi_code_sample :
  cell_equiv (phi_code yt ylag) (DebugComparison.phi_sample yt ylag).
Proof.
  destruct (decide (2 <= length ylag)%nat) as [Hlen | Hshort].
  - destruct (phi_code_pairs Hlen) as (phi & -> & Hphi).
    unfold DebugComparison.phi_sample, DebugComparison.var_lag_sample,
      DebugComparison.cov_sample_correct.
    rewrite !np_mean_nonempty by lia.
    rewrite !decide_False by lia.
    rewrite map_square_sub_scalar, np_mul_sub_scalar, same_length.
    cbn [cell_ltb cell_div].
    destruct (Qltb _ _); simpl; exact Hphi.
  - rewrite phi_code_degenerate by lia.
    unfold DebugComparison.phi_sample, DebugComparison.var_lag_sample.
    destruct ylag as [|v [|v' l]]; simpl in *; [reflexivity.. | lia].
Qed.

End Phi.

Lemma length_slice {A} (l : list A) (a b : nat) :
  (b <= length l)%nat -> length (slice l a b) = (b - a)%nat.
Proof. intros Hb. unfold slice. rewrite length_take, length_drop. lia. Qed.

Lemma length_window_data (series : list Q) (window t : nat) :
  (1 <= window)%nat -> (window - 1 <= t < length series)%nat ->
  length (window_data series window t) = window.
Proof.
  intros Hw Ht. unfold window_data. rewrite length_slice by lia. lia.
Qed.

Section HalfLifeRows.
Context `{Libraries}.
Import HalfLife.

(** The row of the returned frame at a computed index. *)
Lemma half_life_at_index (series : list Q) (window t : nat) :
  (window - 1 <= t < length series)%nat ->
  exists df, compute_half_life_ar1 series window = Returns df /\
    half_lives df !! t = Some (half_life_at series window t) /\
    ar1_coefs df !! t = Some (phi_at series window t) /\
    is_mean_reverting df !! t
      = Some (if mean_reverting (phi_at series window t) then 1%Z else 0%Z).
Proof.
  intros Ht. eexists. split; [apply compute_half_life_ar1_spec |].
  cbn [half_lives ar1_coefs is_mean_reverting].
  rewrite !writes_range_lookup. unfold np_full, np_zeros_int.
  rewrite !length_replicate, !decide_True by lia.
  split; [done |]. split; [done |].
  unfold flag_at. destruct (mean_reverting _); [done |].
  apply lookup_replicate_2. lia.
Qed.

End HalfLifeRows.

(** C1.  At every computed index [t] (with [window - 1 <= t]) the stored
    AR(1) coefficient is a number [phi], never NaN.  On the [n = window - 1]
    lag pairs [y_t = slice[1:]], [y_lag = slice[:-1]] it is the sample
    covariance over the sample variance of [y_lag], both with the [n - 1]
    denominator, when that variance exceeds 1e-10, and 0 otherwise; with
    fewer than two pairs the variance is NaN and [phi] is 0.  It agrees with
    the sample formula ("Method 3") of [debug_comparison.py]. *)
Theorem half_life_phi_sample_convention `{Libraries}
  (series : list Q) (window t : nat) :
  (1 <= window)%nat -> (window - 1 <= t < length series)%nat ->
  let y_t := drop 1 (slice series (t + 1 - window) (t + 1)) in
  let y_lag := take (window - 1) (slice series (t + 1 - window) (t + 1)) in
  let n := of_nat (window - 1) in
  let mean_y := Qsum y_t / n in
  let mean_lag := Qsum y_lag / n in
  let cov :=
    Qsum (zip_with (fun a b => (a - mean_y) * (b - mean_lag)) y_t y_lag)
    / (n - 1) in
  let var_lag := Qsum (map (fun b => (b - mean_lag) ^ 2) y_lag) / (n - 1) in
  exists df phi,
    HalfLife.compute_half_life_ar1 series window = Returns df /\
    HalfLife.ar1_coefs df !! t = Some (Some phi) /\
    (length y_t = (window - 1)%nat /\ length y_lag = (window - 1)%nat) /\
    ((3 <= window)%nat ->
       phi == if Qltb 1e-10 var_lag then cov / var_lag else 0) /\
    ((window <= 2)%nat -> phi = 0) /\
    cell_equiv (Some phi) (DebugComparison.phi_sample y_t y_lag).
Proof.
  intros Hw Ht y_t0 y_lag0 n mean_y mean_lag cov var_lag.
  destruct (half_life_at_index series window t Ht) as (df & Hdf & _ & Har & _).
  pose proof (length_window_data series window t Hw Ht) as Hwd.
  assert (Summary.y_t series window t = y_t0) as Hyt by reflexivity.
  assert (Summary.y_lag series window t = y_lag0) as Hyl.
  { unfold Summary.y_lag. by rewrite Hwd. }
  assert (length y_lag0 = (window - 1)%nat) as Hlen_lag.
  { unfold y_lag0. fold (window_data series window t).
    rewrite length_take, Hwd. lia. }
  assert (length y_t0 = length y_lag0) as Hsame.
  { rewrite <- Hyt, <- Hyl. apply lag_pairs_length. }
  unfold phi_at in Har. rewrite Hyt, Hyl in Har.
  destruct (decide (3 <= window)%nat) as [Hbig | Hsmall].
  - destruct (phi_code_pairs y_t0 y_lag0 Hsame ltac:(lia)) as (phi & Hphi & Heq).
    exists df, phi. rewrite Hlen_lag in Heq.
    split; [done |]. split; [rewrite Hphi in Har; exact Har |].
    split; [split; congruence |]. split; [intros _; exact Heq |].
    split; [lia |].
    rewrite <- Hphi. by apply phi_code_sample.
  - assert (phi_code y_t0 y_lag0 = Some 0) as Hphi
      by (apply phi_code_degenerate; lia).
    exists df, 0. split; [done |]. split; [rewrite Hphi in Har; exact Har |].
    split; [split; congruence |]. split; [lia |]. split; [done |].
    rewrite <- Hphi. by apply phi_code_sample.
Qed.

Lemma phi_at_value `{Libraries} (series : list Q) (window t : nat) :
  exists phi, phi_at series window t = Some phi.
Proof.
  unfold phi_at.
  pose proof (lag_pairs_length series window t) as Hsame.
  destruct (decide (2 <= length (y_lag series window t))%nat) as [Hlen | Hshort].
  - destruct (phi_code_pairs _ _ Hsame Hlen) as (phi & Hphi & _). eauto.
  - exists 0. apply phi_code_degenerate. lia.
Qed.

(** ** The half-life *)

(** C6.  At every computed index the coefficient [phi] is a number.  If
    [0 < phi < 1], the half-life is the minimum of [-ln(2) / ln(phi)] and
    [window * 10], hence at most [window * 10], and the flag is 1;
    otherwise the half-life is NaN and the flag is 0. *)
Theorem half_life_capped_or_sentinel `{Libraries}
  (series : list Q) (window t : nat) :
  (1 <= window)%nat -> (window - 1 <= t < length series)%nat ->
  exists df phi,
    HalfLife.compute_half_life_ar1 series window = Returns df /\
    HalfLife.ar1_coefs df !! t = Some (Some phi) /\
    (0 < phi /\ phi < 1 ->
       exists h, HalfLife.half_lives df !! t = Some (Some h) /\
         h == Qmin (- np_log 2 / np_log phi) (of_nat (window * 10)) /\
         h <= of_nat (window * 10) /\
         HalfLife.is_mean_reverting df !! t = Some 1%Z) /\
    (~ (0 < phi /\ phi < 1) ->
       HalfLife.half_lives df !! t = Some nan /\
       HalfLife.is_mean_reverting df !! t = Some 0%Z).
Proof.
  intros _ Ht.
  destruct (half_life_at_index series window t Ht)
    as (df & Hdf & Hhl & Har & Hmr).
  destruct (phi_at_value series window t) as (phi & Hphi).
  exists df, phi. unfold half_life_at in Hhl.
  rewrite Hphi in Hhl, Har, Hmr. unfold mean_reverting in Hhl, Hmr.
  cbn [cell_ltb] in Hhl, Hmr.
  split; [done |]. split; [exact Har |]. split.
  - intros [Hpos Hlt1].
    apply Qltb_true in Hpos, Hlt1. rewrite Hpos, Hlt1 in Hhl, Hmr.
    cbn [andb] in Hhl, Hmr.
    unfold HalfLife.raw_half_life, py_min in Hhl.
    cbn [option_map cell_div cell_ltb] in Hhl.
    destruct (Qltb (of_nat (window * 10)) (- np_log 2 / np_log phi)) eqn:Ecap.
    + exists (of_nat (window * 10)). split; [exact Hhl |].
      apply Qltb_true in Ecap.
      split; [| split; [apply Qle_refl | exact Hmr]].
      symmetry. apply Q.min_r. by apply Qlt_le_weak.
    + exists (- np_log 2 / np_log phi). split; [exact Hhl |].
      apply Qltb_false in Ecap.
      split; [| split; [exact Ecap | exact Hmr]].
      symmetry. by apply Q.min_l.
  - intros Hnot.
    assert (Qltb 0 phi && Qltb phi 1 = false) as Hb.
    { destruct (Qltb 0 phi) eqn:E0, (Qltb phi 1) eqn:E1; try reflexivity.
      exfalso. apply Hnot. split; by apply Qltb_true. }
    rewrite Hb in Hhl, Hmr. done.
Qed.

(** ** The rolling ADF loop *)

(** One array write whose index is in range; [unfold_frame] reduces the
    loads and stores of the frame at hand. *)
Tactic Notation "run_assign" tactic3(unfold_frame) :=
  unfold bind at 1;
  rewrite assign_ok by (unfold_frame; rewrite ?length_insert; lia);
  unfold_frame.

Section RollingADFLoop.
Context `{Libraries}.
Import RollingADF.
Variables (series : list Q) (window maxlag : nat) (regression : string).

Lemma adf_step_wf n i s :
  adf_wf n s -> adf_wf n (adf_step series window maxlag regression i s).
Proof.
  intros (H1 & H2 & H3 & H4 & H5 & H6). unfold adf_wf, adf_step. simpl.
  rewrite !length_write. done.
Qed.

Ltac adf_red :=
  cbn [load store adf_stats p_values critical_1pct critical_5pct
       critical_10pct is_stationary].

Lemma adf_try_block_spec (i : nat) (s : frame) :
  (i < length series)%nat -> adf_wf (length series) s ->
  try_except_pass (try_block series window maxlag regression i) s
  = (Returns tt, adf_step series window maxlag regression i s).
Proof.
  intros Hi (H1 & H2 & H3 & H4 & H5 & H6).
  destruct s as [st pv c1 c5 c10 fl]. simpl in H1, H2, H3, H4, H5, H6.
  unfold try_except_pass, try_block, adf_step, adf_answer. f_equal.
  unfold bind at 1. unfold lift at 1.
  destruct (adfuller (request series window maxlag regression i)) as [r | e];
    [| reflexivity].
  cbn [on_return fmap option_fmap option_map write].
  unfold adf_stats_var, p_values_var, critical_1pct_var, critical_5pct_var,
    critical_10pct_var, is_stationary_var.
  do 5 run_assign adf_red.
  rewrite assign_ok by (adf_red; rewrite ?length_insert; lia). reflexivity.
Qed.

Lemma adf_fold (idx : list nat) :
  forall st pv c1 c5 c10 fl,
    foldl (fun s i => adf_step series window maxlag regression i s)
          {| adf_stats := st; p_values := pv; critical_1pct := c1;
             critical_5pct := c5; critical_10pct := c10;
             is_stationary := fl |} idx
    = let a := adf_answer series window maxlag regression in
      {| adf_stats :=
           writes (fun i => (fun r => Some (adf_statistic r)) <$> a i) idx st;
         p_values :=
           writes (fun i => (fun r => Some (adf_pvalue r)) <$> a i) idx pv;
         critical_1pct :=
           writes (fun i => (fun r => Some (adf_crit_1pct r)) <$> a i) idx c1;
         critical_5pct :=
           writes (fun i => (fun r => Some (adf_crit_5pct r)) <$> a i) idx c5;
         critical_10pct :=
           writes (fun i => (fun r => Some (adf_crit_10pct r)) <$> a i) idx c10;
         is_stationary := writes (fun i => adf_flag <$> a i) idx fl |}.
Proof.
  unfold writes.
  induction idx as [|i idx IH]; intros st pv c1 c5 c10 fl; [reflexivity |].
  cbn [foldl]. cbv zeta in IH |- *. rewrite <- IH. reflexivity.
Qed.

(** The function never raises: it returns the arrays left by the loop. *)
Lemma compute_rolling_adf_spec :
  let n := length series in
  let idx := range (window - 1) n in
  let a := adf_answer series window maxlag regression in
  compute_rolling_adf series window maxlag regression =
    Returns
      {| adf_stats :=
           writes (fun i => (fun r => Some (adf_statistic r)) <$> a i) idx
                  (np_full n nan);
         p_values :=
           writes (fun i => (fun r => Some (adf_pvalue r)) <$> a i) idx
                  (np_full n nan);
         critical_1pct :=
           writes (fun i => (fun r => Some (adf_crit_1pct r)) <$> a i) idx
                  (np_full n nan);
         critical_5pct :=
           writes (fun i => (fun r => Some (adf_crit_5pct r)) <$> a i) idx
                  (np_full n nan);
         critical_10pct :=
           writes (fun i => (fun r => Some (adf_crit_10pct r)) <$> a i) idx
                  (np_full n nan);
         is_stationary :=
           writes (fun i => adf_flag <$> a i) idx (np_zeros_int n) |}.
Proof.
  intros n idx a. unfold compute_rolling_adf, run. fold n. fold idx.
  destruct (for_each_fold (adf_wf n)
              (adf_step series window maxlag regression)
              (fun i => try_except_pass
                          (try_block series window maxlag regression i)) idx)
    with (s := {| adf_stats := np_full n nan; p_values := np_full n nan;
                  critical_1pct := np_full n nan;
                  critical_5pct := np_full n nan;
                  critical_10pct := np_full n nan;
                  is_stationary := np_zeros_int n |}) as [Hrun _].
  - intros i s Hi Hwf. apply elem_of_range in Hi. split.
    + apply adf_try_block_spec; [lia | done].
    + by apply adf_step_wf.
  - unfold adf_wf, np_full, np_zeros_int. simpl.
    rewrite !length_replicate. done.
  - rewrite Hrun, adf_fold. reflexivity.
Qed.

End RollingADFLoop.

(** ** The Engle-Granger loop *)

Section EngleGrangerLoop.
Context `{Libraries}.
Import EngleGranger.
Variables (y x : list Q) (window : nat).

Lemma eg_step_wf n i s : eg_wf n s -> eg_wf n (eg_step y x window i s).
Proof.
  intros (H1 & H2 & H3 & H4 & H5 & H6 & H7 & H8 & H9).
  unfold eg_wf, eg_step. simpl. rewrite !length_write. done.
Qed.

Ltac eg_red :=
  cbn [load store hedge_ratios intercepts spreads adf_stats p_values
       critical_1pct critical_5pct critical_10pct is_cointegrated].

Lemma eg_try_block_spec (i : nat) (s : frame) :
  (i < length y)%nat -> eg_wf (length y) s ->
  try_except_pass (try_block y x window i) s
  = (Returns tt, eg_step y x window i s).
Proof.
  intros Hi (H1 & H2 & H3 & H4 & H5 & H6 & H7 & H8 & H9).
  destruct s as [hr ic sp st pv c1 c5 c10 fl].
  simpl in H1, H2, H3, H4, H5, H6, H7, H8, H9.
  unfold try_except_pass, try_block, eg_step, eg_test, eg_spread,
    eg_alpha_beta. f_equal.
  unfold hedge_ratios_var, intercepts_var, spreads_var, adf_stats_var,
    p_values_var, critical_1pct_var, critical_5pct_var, critical_10pct_var,
    is_cointegrated_var.
  unfold bind at 1. unfold lift at 1.
  destruct (ols_params (ols_request y x window i)) as [params | e];
    [| reflexivity].
  cbn [on_return mbind option_bind].
  unfold bind at 1. unfold lift at 1. unfold getitem at 1.
  destruct (params !! 0%nat) as [alpha |]; [| reflexivity].
  unfold bind at 1. unfold lift at 1. unfold getitem at 1.
  destruct (params !! 1%nat) as [beta |]; [| reflexivity].
  cbn [mbind option_bind fmap option_fmap option_map write fst snd].
  do 2 run_assign eg_red.
  unfold bind at 1. unfold lift at 1. unfold getitem at 1.
  destruct (y !! i) as [yi |]; [| reflexivity].
  unfold bind at 1. unfold lift at 1. unfold getitem at 1.
  destruct (x !! i) as [xi |]; [| reflexivity].
  cbn [mbind option_bind fmap option_fmap option_map write fst snd].
  run_assign eg_red.
  unfold bind at 1. unfold lift at 1.
  destruct (coint (coint_request y x window i)) as [r | e]; [| reflexivity].
  cbn [on_return fmap option_fmap option_map write].
  do 5 run_assign eg_red.
  rewrite assign_ok by (eg_red; rewrite ?length_insert; lia). reflexivity.
Qed.

Lemma eg_fold (idx : list nat) :
  forall hr ic sp st pv c1 c5 c10 fl,
    foldl (fun s i => eg_step y x window i s)
          {| hedge_ratios := hr; intercepts := ic; spreads := sp;
             adf_stats := st; p_values := pv; critical_1pct := c1;
             critical_5pct := c5; critical_10pct := c10;
             is_cointegrated := fl |} idx
    = let ab := eg_alpha_beta y x window in
      let sprd := eg_spread y x window in
      let test := eg_test y x window in
      {| hedge_ratios := writes (fun i => (fun p => Some p.2) <$> ab i) idx hr;
         intercepts := writes (fun i => (fun p => Some p.1) <$> ab i) idx ic;
         spreads := writes (fun i => Some <$> sprd i) idx sp;
         adf_stats :=
           writes (fun i => (fun r => Some (coint_t r)) <$> test i) idx st;
         p_values :=
           writes (fun i => (fun r => Some (coint_pvalue r)) <$> test i) idx pv;
         critical_1pct :=
           writes (fun i => (fun r => Some (coint_crit_0 r)) <$> test i) idx c1;
         critical_5pct :=
           writes (fun i => (fun r => Some (coint_crit_1 r)) <$> test i) idx c5;
         critical_10pct :=
           writes (fun i => (fun r => Some (coint_crit_2 r)) <$> test i) idx c10;
         is_cointegrated := writes (fun i => eg_flag <$> test i) idx fl |}.
Proof.
  unfold writes.
  induction idx as [|i idx IH]; intros hr ic sp st pv c1 c5 c10 fl;
    [reflexivity |].
  cbn [foldl]. cbv zeta in IH |- *. rewrite <- IH. reflexivity.
Qed.

(** The function never raises: it returns the arrays left by the loop. *)
Lemma compute_engle_granger_spec :
  let n := length y in
  let idx := range (window - 1) n in
  let ab := eg_alpha_beta y x window in
  let sprd := eg_spread y x window in
  let test := eg_test y x window in
  compute_engle_granger y x window =
    Returns
      {| hedge_ratios :=
           writes (fun i => (fun p => Some p.2) <$> ab i) idx (np_full n nan);
         intercepts :=
           writes (fun i => (fun p => Some p.1) <$> ab i) idx (np_full n nan);
         spreads := writes (fun i => Some <$> sprd i) idx (np_full n nan);
         adf_stats :=
           writes (fun i => (fun r => Some (coint_t r)) <$> test i) idx
                  (np_full n nan);
         p_values :=
           writes (fun i => (fun r => Some (coint_pvalue r)) <$> test i) idx
                  (np_full n nan);
         critical_1pct :=
           writes (fun i => (fun r => Some (coint_crit_0 r)) <$> test i) idx
                  (np_full n nan);
         critical_5pct :=
           writes (fun i => (fun r => Some (coint_crit_1 r)) <$> test i) idx
                  (np_full n nan);
         critical_10pct :=
           writes (fun i => (fun r => Some (coint_crit_2 r)) <$> test i) idx
                  (np_full n nan);
         is_cointegrated :=
           writes (fun i => eg_flag <$> test i) idx (np_zeros_int n) |}.
Proof.
  intros n idx ab sprd test. unfold compute_engle_granger, run.
  fold n. fold idx.
  destruct (for_each_fold (eg_wf n) (eg_step y x window)
              (fun i => try_except_pass (try_block y x window i)) idx)
    with (s := {| hedge_ratios := np_full n nan; intercepts := np_full n nan;
                  spreads := np_full n nan; adf_stats := np_full n nan;
                  p_values := np_full n nan;
                  critical_1pct := np_full n nan;
                  critical_5pct := np_full n nan;
                  critical_10pct := np_full n nan;
                  is_cointegrated := np_zeros_int n |}) as [Hrun _].
  - intros i s Hi Hwf. apply elem_of_range in Hi. split.
    + apply eg_try_block_spec; [lia | done].
    + by apply eg_step_wf.
  - unfold eg_wf, np_full, np_zeros_int. simpl.
    rewrite !length_replicate. done.
  - rewrite Hrun, eg_fold. reflexivity.
Qed.

End EngleGrangerLoop.

(** ** The Johansen loop *)

Lemma rank_decision_spec {S} (result : johansen_result) (s : S) :
  Johansen.rank_decision result s
  = (match rank_value result with
     | Some z => Returns z
     | None => Raises IndexError
     end, s).
Proof.
  unfold Johansen.rank_decision, rank_value, bind, lift, ret, getitem2, getitem.
  destruct (lr1 result !! 0%nat) as [l0 |]; [| reflexivity].
  cbn [mbind option_bind].
  destruct (cvt result !! 0%nat) as [row0 |]; [| reflexivity].
  cbn [mbind option_bind].
  destruct (row0 !! 1%nat) as [c0 |]; [| reflexivity].
  cbn [mbind option_bind].
  destruct (Qltb c0 l0); [| reflexivity].
  destruct (lr1 result !! 1%nat) as [l1 |]; [| reflexivity].
  cbn [mbind option_bind].
  destruct (cvt result !! 1%nat) as [row1 |]; [| reflexivity].
  cbn [mbind option_bind].
  destruct (row1 !! 1%nat) as [c1 |]; [| reflexivity].
  cbn [mbind option_bind].
  destruct (Qltb c1 l1); reflexivity.
Qed.

Section JohansenLoop.
Context `{Libraries}.
Import Johansen.
Variables (data : ndarray2) (window : nat) (det_order : Z) (k_ar_diff : nat).

Lemma joh_step_wf n i s :
  joh_wf n s -> joh_wf n (joh_step data window det_order k_ar_diff i s).
Proof.
  intros (H1 & H2 & H3 & H4 & H5 & H6 & H7).
  unfold joh_wf, joh_step. simpl. rewrite !length_write. done.
Qed.

Ltac joh_red :=
  cbn [load store ranks trace_stat_0 trace_stat_1 max_stat_0 max_stat_1
       eigval_0 eigval_1].

(** One subscript of the answer, then the write of the value read. *)
Ltac run_getitem :=
  unfold bind at 1; unfold lift at 1; unfold getitem at 1;
  match goal with
  | |- context [match ?l !! ?k with _ => _ end] =>
      destruct (l !! k); [| reflexivity]
  end;
  cbn [mbind option_bind fmap option_fmap option_map write];
  run_assign joh_red.

Lemma joh_try_block_spec (i : nat) (s : frame) :
  (i < length (rows data))%nat -> joh_wf (length (rows data)) s ->
  try_except_pass (try_block data window det_order k_ar_diff i) s
  = (Returns tt, joh_step data window det_order k_ar_diff i s).
Proof.
  intros Hi (H1 & H2 & H3 & H4 & H5 & H6 & H7).
  destruct s as [rk t0 t1 m0 m1 e0 e1].
  simpl in H1, H2, H3, H4, H5, H6, H7.
  unfold try_except_pass, try_block, joh_step, joh_rank, joh_m1, joh_m0,
    joh_t1, joh_t0, joh_e1, joh_e0, joh_answer. f_equal.
  unfold ranks_var, trace_stat_0_var, trace_stat_1_var, max_stat_0_var,
    max_stat_1_var, eigval_0_var, eigval_1_var.
  unfold bind at 1. unfold lift at 1.
  destruct (coint_johansen (request data window det_order k_ar_diff i))
    as [r | e]; [| reflexivity].
  cbn [on_return mbind option_bind].
  do 6 run_getitem.
  unfold bind at 1. rewrite rank_decision_spec.
  destruct (rank_value r) as [z |]; [| reflexivity].
  cbn [mbind option_bind fmap option_fmap option_map write].
  rewrite assign_ok by (joh_red; rewrite ?length_insert; lia). reflexivity.
Qed.

Lemma joh_fold (idx : list nat) :
  forall rk t0 t1 m0 m1 e0 e1,
    foldl (fun s i => joh_step data window det_order k_ar_diff i s)
          {| ranks := rk; trace_stat_0 := t0; trace_stat_1 := t1;
             max_stat_0 := m0; max_stat_1 := m1;
             eigval_0 := e0; eigval_1 := e1 |} idx
    = {| ranks :=
           writes (fun i => (fun z => Some (inject_Z z))
                              <$> joh_rank data window det_order k_ar_diff i)
                  idx rk;
         trace_stat_0 :=
           writes (fun i => Some <$> joh_t0 data window det_order k_ar_diff i)
                  idx t0;
         trace_stat_1 :=
           writes (fun i => Some <$> joh_t1 data window det_order k_ar_diff i)
                  idx t1;
         max_stat_0 :=
           writes (fun i => Some <$> joh_m0 data window det_order k_ar_diff i)
                  idx m0;
         max_stat_1 :=
           writes (fun i => Some <$> joh_m1 data window det_order k_ar_diff i)
                  idx m1;
         eigval_0 :=
           writes (fun i => Some <$> joh_e0 data window det_order k_ar_diff i)
                  idx e0;
         eigval_1 :=
           writes (fun i => Some <$> joh_e1 data window det_order k_ar_diff i)
                  idx e1 |}.
Proof.
  unfold writes.
  induction idx as [|i idx IH]; intros rk t0 t1 m0 m1 e0 e1; [reflexivity |].
  cbn [foldl]. rewrite <- IH. reflexivity.
Qed.

(** The function never raises: it returns the arrays left by the loop. *)
Lemma compute_johansen_spec :
  let n := length (rows data) in
  let idx := range (window - 1) n in
  compute_johansen data window det_order k_ar_diff =
    Returns
      {| ranks :=
           writes (fun i => (fun z => Some (inject_Z z))
                              <$> joh_rank data window det_order k_ar_diff i)
                  idx (np_full n nan);
         trace_stat_0 :=
           writes (fun i => Some <$> joh_t0 data window det_order k_ar_diff i)
                  idx (np_full n nan);
         trace_stat_1 :=
           writes (fun i => Some <$> joh_t1 data window det_order k_ar_diff i)
                  idx (np_full n nan);
         max_stat_0 :=
           writes (fun i => Some <$> joh_m0 data window det_order k_ar_diff i)
                  idx (np_full n nan);
         max_stat_1 :=
           writes (fun i => Some <$> joh_m1 data window det_order k_ar_diff i)
                  idx (np_full n nan);
         eigval_0 :=
           writes (fun i => Some <$> joh_e0 data window det_order k_ar_diff i)
                  idx (np_full n nan);
         eigval_1 :=
           writes (fun i => Some <$> joh_e1 data window det_order k_ar_diff i)
                  idx (np_full n nan) |}.
Proof.
  intros n idx. unfold compute_johansen, run. fold n. fold idx.
  destruct (for_each_fold (joh_wf n)
              (joh_step data window det_order k_ar_diff)
              (fun i => try_except_pass
                          (try_block data window det_order k_ar_diff i)) idx)
    with (s := {| ranks := np_full n nan; trace_stat_0 := np_full n nan;
                  trace_stat_1 := np_full n nan; max_stat_0 := np_full n nan;
                  max_stat_1 := np_full n nan; eigval_0 := np_full n nan;
                  eigval_1 := np_full n nan |}) as [Hrun _].
  - intros i s Hi Hwf. apply elem_of_range in Hi. split.
    + apply joh_try_block_spec; [lia | done].
    + by apply joh_step_wf.
  - unfold joh_wf, np_full. simpl. rewrite !length_replicate. done.
  - rewrite Hrun, joh_fold. reflexivity.
Qed.

End JohansenLoop.

(** ** Rows of the returned frames *)

Section Blank.
Context {A : Type}.
Implicit Types (g : nat -> option A) (v : A).

(** After the loop over [range(a, n)] on an array filled with [v]: the
    value written at a processed index, [v] elsewhere. *)
Lemma writes_blank_in g a n v t :
  (a <= t < n)%nat ->
  writes g (range a n) (replicate n v) !! t = Some (default v (g t)).
Proof.
  intros Ht. rewrite writes_range_lookup, length_replicate.
  rewrite decide_True by lia.
  destruct (g t); [done |]. apply lookup_replicate_2. lia.
Qed.

Lemma writes_blank_warm g a n v t :
  (t < a)%nat -> (t < n)%nat ->
  writes g (range a n) (replicate n v) !! t = Some v.
Proof.
  intros Ht Hn. rewrite writes_range_lookup.
  rewrite decide_False by lia. apply lookup_replicate_2. lia.
Qed.

Lemma writes_blank_length g a n v :
  length (writes g (range a n) (replicate n v)) = n.
Proof. by rewrite length_writes, length_replicate. Qed.

Lemma writes_no_window g a n (l : list A) :
  (n <= a)%nat -> writes g (range a n) l = l.
Proof.
  intros Hle. unfold range. replace (n - a)%nat with 0%nat by lia. reflexivity.
Qed.

End Blank.

Section Columns.
Context `{Libraries}.

Lemma frac_diff_columns (series : list Q) (d threshold : Q) :
  let weights := FracDiff.compute_ffd_weights d threshold FracDiff.MAX_SIZE in
  exists result,
    FracDiff.frac_diff_manual series d threshold = Returns result /\
    length result = length series /\
    (forall t, (t < length weights - 1)%nat -> (t < length series)%nat ->
       result !! t = Some nan) /\
    (forall t, (length weights - 1 <= t < length series)%nat ->
       result !! t = Some (Some (conv_value weights series t))) /\
    ((length series <= length weights - 1)%nat ->
       result = np_full (length series) nan).
Proof.
  intros weights. eexists. split; [apply frac_diff_manual_spec |].
  fold weights. unfold np_full.
  split; [apply writes_blank_length |]. split; [| split].
  - intros t Ht Hn. by apply writes_blank_warm.
  - intros t Ht. by rewrite writes_blank_in.
  - intros Hshort. by apply writes_no_window.
Qed.

Lemma adf_columns (series : list Q) (window maxlag : nat) (regression : string) :
  let a := adf_answer series window maxlag regression in
  exists df,
    RollingADF.compute_rolling_adf series window maxlag regression = Returns df /\
    adf_wf (length series) df /\
    (forall t, (t < window - 1)%nat -> (t < length series)%nat ->
       adf_row df t
       = Some [sentinel; sentinel; sentinel; sentinel; sentinel; Int 0]) /\
    (forall t, (window - 1 <= t < length series)%nat ->
       adf_row df t
       = Some [Float (default nan ((fun r => Some (adf_statistic r)) <$> a t));
               Float (default nan ((fun r => Some (adf_pvalue r)) <$> a t));
               Float (default nan ((fun r => Some (adf_crit_1pct r)) <$> a t));
               Float (default nan ((fun r => Some (adf_crit_5pct r)) <$> a t));
               Float (default nan ((fun r => Some (adf_crit_10pct r)) <$> a t));
               Int (default 0%Z (adf_flag <$> a t))]) /\
    ((length series <= window - 1)%nat -> df = adf_blank (length series)).
Proof.
  intros a. eexists. split; [apply compute_rolling_adf_spec |].
  unfold adf_wf, adf_row, adf_blank, np_full, np_zeros_int.
  cbn [RollingADF.adf_stats RollingADF.p_values RollingADF.critical_1pct
       RollingADF.critical_5pct RollingADF.critical_10pct
       RollingADF.is_stationary].
  split; [rewrite !writes_blank_length; done |]. split; [| split].
  - intros t Ht Hn. by rewrite !writes_blank_warm.
  - intros t Ht. by rewrite !writes_blank_in.
  - intros Hshort. by rewrite !writes_no_window.
Qed.

Lemma engle_granger_columns (y x : list Q) (window : nat) :
  let ab := eg_alpha_beta y x window in
  let sprd := eg_spread y x window in
  let test := eg_test y x window in
  exists df,
    EngleGranger.compute_engle_granger y x window = Returns df /\
    eg_wf (length y) df /\
    (forall t, (t < window - 1)%nat -> (t < length y)%nat ->
       engle_granger_row df t
       = Some [sentinel; sentinel; sentinel; sentinel; sentinel; sentinel;
               sentinel; sentinel; Int 0]) /\
    (forall t, (window - 1 <= t < length y)%nat ->
       engle_granger_row df t
       = Some [Float (default nan ((fun p => Some p.2) <$> ab t));
               Float (default nan ((fun p => Some p.1) <$> ab t));
               Float (default nan (Some <$> sprd t));
               Float (default nan ((fun r => Some (coint_t r)) <$> test t));
               Float (default nan ((fun r => Some (coint_pvalue r)) <$> test t));
               Float (default nan ((fun r => Some (coint_crit_0 r)) <$> test t));
               Float (default nan ((fun r => Some (coint_crit_1 r)) <$> test t));
               Float (default nan ((fun r => Some (coint_crit_2 r)) <$> test t));
               Int (default 0%Z (eg_flag <$> test t))]) /\
    ((length y <= window - 1)%nat -> df = engle_granger_blank (length y)).
Proof.
  intros ab sprd test. eexists. split; [apply compute_engle_granger_spec |].
  unfold eg_wf, engle_granger_row, engle_granger_blank, np_full, np_zeros_int.
  cbn [EngleGranger.hedge_ratios EngleGranger.intercepts EngleGranger.spreads
       EngleGranger.adf_stats EngleGranger.p_values
       EngleGranger.critical_1pct EngleGranger.critical_5pct
       EngleGranger.critical_10pct EngleGranger.is_cointegrated].
  split; [rewrite !writes_blank_length; done |]. split; [| split].
  - intros t Ht Hn. by rewrite !writes_blank_warm.
  - intros t Ht. by rewrite !writes_blank_in.
  - intros Hshort. by rewrite !writes_no_window.
Qed.

Lemma johansen_columns (data : Johansen.ndarray2) (window : nat)
  (det_order : Z) (k_ar_diff : nat) :
  let n := length (Johansen.rows data) in
  exists df,
    Johansen.compute_johansen data window det_order k_ar_diff = Returns df /\
    joh_wf n df /\
    (forall t, (t < window - 1)%nat -> (t < n)%nat ->
       johansen_row df t
       = Some [sentinel; sentinel; sentinel; sentinel; sentinel; sentinel;
               sentinel]) /\
    (forall t, (window - 1 <= t < n)%nat ->
       johansen_row df t
       = Some [Float (default nan
                        ((fun z => Some (inject_Z z))
                           <$> joh_rank data window det_order k_ar_diff t));
               Float (default nan
                        (Some <$> joh_t0 data window det_order k_ar_diff t));
               Float (default nan
                        (Some <$> joh_t1 data window det_order k_ar_diff t));
               Float (default nan
                        (Some <$> joh_m0 data window det_order k_ar_diff t));
               Float (default nan
                        (Some <$> joh_m1 data window det_order k_ar_diff t));
               Float (default nan
                        (Some <$> joh_e0 data window det_order k_ar_diff t));
               Float (default nan
                        (Some <$> joh_e1 data window det_order k_ar_diff t))]) /\
    ((n <= window - 1)%nat -> df = johansen_blank n).
Proof.
  intros n. eexists. split; [apply compute_johansen_spec |].
  unfold joh_wf, johansen_row, johansen_blank, np_full. fold n.
  cbn [Johansen.ranks Johansen.trace_stat_0 Johansen.trace_stat_1
       Johansen.max_stat_0 Johansen.max_stat_1 Johansen.eigval_0
       Johansen.eigval_1].
  split; [rewrite !writes_blank_length; done |]. split; [| split].
  - intros t Ht Hn. by rewrite !writes_blank_warm.
  - intros t Ht. by rewrite !writes_blank_in.
  - intros Hshort. by rewrite !writes_no_window.
Qed.

Lemma half_life_columns (series : list Q) (window : nat) :
  exists df,
    HalfLife.compute_half_life_ar1 series window = Returns df /\
    hl_wf (length series) df /\
    (forall t, (t < window - 1)%nat -> (t < length series)%nat ->
       half_life_row df t = Some [sentinel; sentinel; Int 0]) /\
    (forall t, (window - 1 <= t < length series)%nat ->
       half_life_row df t
       = Some [Float (half_life_at series window t);
               Float (phi_at series window t);
               Int (default 0%Z (flag_at series window t))]) /\
    ((length series <= window - 1)%nat ->
       df = half_life_blank (length series)).
Proof.
  eexists. split; [apply compute_half_life_ar1_spec |].
  unfold hl_wf, half_life_row, half_life_blank, np_full, np_zeros_int.
  cbn [HalfLife.half_lives HalfLife.ar1_coefs HalfLife.is_mean_reverting].
  split; [rewrite !writes_blank_length; done |]. split; [| split].
  - intros t Ht Hn. by rewrite !writes_blank_warm.
  - intros t Ht. by rewrite !writes_blank_in.
  - intros Hshort. by rewrite !writes_no_window.
Qed.

End Columns.

(** ** Warm-up *)

(** C8, as the code has it.  Every operation returns arrays of the length
    of its input.  At every warm-up index ([t < len(weights) - 1] for the
    filter, [t < window - 1] for the rolling operations) every float column
    holds the sentinel; the integer flag columns [is_mean_reverting],
    [is_stationary] and [is_cointegrated] hold 0 there. *)
Theorem warm_up_rows `{Libraries} :
  (forall (series : list Q) (d threshold : Q),
     let weights := FracDiff.compute_ffd_weights d threshold FracDiff.MAX_SIZE in
     exists result,
       FracDiff.frac_diff_manual series d threshold = Returns result /\
       length result = length series /\
       forall t, (t < length weights - 1)%nat -> (t < length series)%nat ->
         frac_diff_row result t = Some [sentinel]) /\
  (forall (series : list Q) (window : nat), (1 <= window)%nat ->
     exists df,
       HalfLife.compute_half_life_ar1 series window = Returns df /\
       hl_wf (length series) df /\
       forall t, (t < window - 1)%nat -> (t < length series)%nat ->
         half_life_row df t = Some [sentinel; sentinel; Int 0]) /\
  (forall (series : list Q) (window maxlag : nat) (regression : string),
     (1 <= window)%nat ->
     exists df,
       RollingADF.compute_rolling_adf series window maxlag regression
         = Returns df /\
       adf_wf (length series) df /\
       forall t, (t < window - 1)%nat -> (t < length series)%nat ->
         adf_row df t
         = Some [sentinel; sentinel; sentinel; sentinel; sentinel; Int 0]) /\
  (forall (y x : list Q) (window : nat), (1 <= window)%nat ->
     exists df,
       EngleGranger.compute_engle_granger y x window = Returns df /\
       eg_wf (length y) df /\
       forall t, (t < window - 1)%nat -> (t < length y)%nat ->
         engle_granger_row df t
         = Some [sentinel; sentinel; sentinel; sentinel; sentinel; sentinel;
                 sentinel; sentinel; Int 0]) /\
  (forall (data : Johansen.ndarray2) (window : nat) (det_order : Z)
          (k_ar_diff : nat), (1 <= window)%nat ->
     exists df,
       Johansen.compute_johansen data window det_order k_ar_diff
         = Returns df /\
       joh_wf (length (Johansen.rows data)) df /\
       forall t, (t < window - 1)%nat ->
         (t < length (Johansen.rows data))%nat ->
         johansen_row df t
         = Some [sentinel; sentinel; sentinel; sentinel; sentinel; sentinel;
                 sentinel]).
Proof.
  split; [| split; [| split; [| split]]].
  - intros series d threshold weights.
    destruct (frac_diff_columns series d threshold)
      as (result & Hrun & Hlen & Hwarm & _).
    exists result. split; [done |]. split; [done |].
    intros t Ht Hn. unfold frac_diff_row.
    fold weights in Hwarm. by rewrite (Hwarm t Ht Hn).
  - intros series window _.
    destruct (half_life_columns series window) as (df & Hrun & Hwf & Hwarm & _).
    by exists df.
  - intros series window maxlag regression _.
    destruct (adf_columns series window maxlag regression)
      as (df & Hrun & Hwf & Hwarm & _).
    by exists df.
  - intros y x window _.
    destruct (engle_granger_columns y x window)
      as (df & Hrun & Hwf & Hwarm & _).
    by exists df.
  - intros data window det_order k_ar_diff _.
    destruct (johansen_columns data window det_order k_ar_diff)
      as (df & Hrun & Hwf & Hwarm & _).
    by exists df.
Qed.

(** ** Input shapes *)

Lemma ffd_weights_nonempty (d threshold : Q) (max_size : nat) :
  (1 <= length (FracDiff.compute_ffd_weights d threshold max_size))%nat.
Proof.
  destruct (compute_ffd_weights_spec d threshold max_size) as (L & _ & -> & _).
  rewrite length_map, length_seq. lia.
Qed.

(** C4, as the code has it.  No operation checks the shape of its input.
    When the window exceeds the series length, or the series is empty, the
    loop has no index to process and the operation returns, without any
    error, the arrays it started from: the sentinel in every float column
    and 0 in the flag column, at the length of the input. *)
Theorem short_series_returns_blank_frame `{Libraries} (window : nat) :
  (1 <= window)%nat ->
  (forall series : list Q,
     (length series < window)%nat \/ series = [] ->
     HalfLife.compute_half_life_ar1 series window
     = Returns (half_life_blank (length series))) /\
  (forall (series : list Q) (maxlag : nat) (regression : string),
     (length series < window)%nat \/ series = [] ->
     RollingADF.compute_rolling_adf series window maxlag regression
     = Returns (adf_blank (length series))) /\
  (forall y x : list Q,
     (length y < window)%nat \/ y = [] ->
     EngleGranger.compute_engle_granger y x window
     = Returns (engle_granger_blank (length y))) /\
  (forall (data : Johansen.ndarray2) (det_order : Z) (k_ar_diff : nat),
     (length (Johansen.rows data) < window)%nat \/ Johansen.rows data = [] ->
     Johansen.compute_johansen data window det_order k_ar_diff
     = Returns (johansen_blank (length (Johansen.rows data)))) /\
  (forall (series : list Q) (d threshold : Q),
     (length series
      < length (FracDiff.compute_ffd_weights d threshold FracDiff.MAX_SIZE))%nat
     \/ series = [] ->
     FracDiff.frac_diff_manual series d threshold
     = Returns (np_full (length series) nan)).
Proof.
  intros Hw.
  assert (forall (A : Type) (l : list A) (w : nat), (1 <= w)%nat ->
            (length l < w)%nat \/ l = [] -> (length l <= w - 1)%nat) as Hshort.
  { intros A l w Hw1 [Hlt | ->]; simpl; lia. }
  split; [| split; [| split; [| split]]].
  - intros series Hs.
    destruct (half_life_columns series window) as (df & -> & _ & _ & _ & Hb).
    f_equal. apply Hb. by apply Hshort.
  - intros series maxlag regression Hs.
    destruct (adf_columns series window maxlag regression)
      as (df & -> & _ & _ & _ & Hb).
    f_equal. apply Hb. by apply Hshort.
  - intros y x Hs.
    destruct (engle_granger_columns y x window) as (df & -> & _ & _ & _ & Hb).
    f_equal. apply Hb. by apply Hshort.
  - intros data det_order k_ar_diff Hs.
    destruct (johansen_columns data window det_order k_ar_diff)
      as (df & -> & _ & _ & _ & Hb).
    f_equal. apply Hb. by apply Hshort.
  - intros series d threshold Hs.
    destruct (frac_diff_columns series d threshold)
      as (result & -> & _ & _ & _ & Hb).
    f_equal. apply Hb. apply Hshort; [apply ffd_weights_nonempty | done].
Qed.

(** ** The flag columns *)

Section Flags.
Context `{Libraries}.

Lemma writes_flag_lookup (g : nat -> option Z) (a n t : nat) :
  (t < n)%nat ->
  writes g (range a n) (np_zeros_int n) !! t
  = Some (if decide (a <= t)%nat then default 0%Z (g t) else 0%Z).
Proof.
  intros Ht. unfold np_zeros_int. destruct (decide (a <= t)%nat).
  - apply writes_blank_in. lia.
  - apply writes_blank_warm; lia.
Qed.

Lemma half_life_flag (series : list Q) (window : nat) :
  exists df,
    HalfLife.compute_half_life_ar1 series window = Returns df /\
    length (HalfLife.is_mean_reverting df) = length series /\
    forall t, (t < length series)%nat ->
      HalfLife.is_mean_reverting df !! t
      = Some (if decide (window - 1 <= t)%nat
              then default 0%Z (flag_at series window t) else 0%Z).
Proof.
  eexists. split; [apply compute_half_life_ar1_spec |].
  cbn [HalfLife.is_mean_reverting]. split.
  - unfold np_zeros_int. apply writes_blank_length.
  - intros t Ht. by apply writes_flag_lookup.
Qed.

Lemma adf_flag_column (series : list Q) (window maxlag : nat)
  (regression : string) :
  exists df,
    RollingADF.compute_rolling_adf series window maxlag regression
      = Returns df /\
    length (RollingADF.is_stationary df) = length series /\
    forall t, (t < length series)%nat ->
      RollingADF.is_stationary df !! t
      = Some (if decide (window - 1 <= t)%nat
              then default 0%Z
                     (adf_flag <$> adf_answer series window maxlag regression t)
              else 0%Z).
Proof.
  eexists. split; [apply compute_rolling_adf_spec |].
  cbn [RollingADF.is_stationary]. split.
  - unfold np_zeros_int. apply writes_blank_length.
  - intros t Ht. by apply writes_flag_lookup.
Qed.

Lemma engle_granger_flag_column (y x : list Q) (window : nat) :
  exists df,
    EngleGranger.compute_engle_granger y x window = Returns df /\
    length (EngleGranger.is_cointegrated df) = length y /\
    forall t, (t < length y)%nat ->
      EngleGranger.is_cointegrated df !! t
      = Some (if decide (window - 1 <= t)%nat
              then default 0%Z (eg_flag <$> eg_test y x window t)
              else 0%Z).
Proof.
  eexists. split; [apply compute_engle_granger_spec |].
  cbn [EngleGranger.is_cointegrated]. split.
  - unfold np_zeros_int. apply writes_blank_length.
  - intros t Ht. by apply writes_flag_lookup.
Qed.

Lemma adf_flag_01 (r : adfuller_result) : adf_flag r = 0%Z \/ adf_flag r = 1%Z.
Proof. unfold adf_flag. destruct (Qltb _ _); auto. Qed.

Lemma eg_flag_01 (r : coint_result) : eg_flag r = 0%Z \/ eg_flag r = 1%Z.
Proof. unfold eg_flag. destruct (Qltb _ _); auto. Qed.

Lemma eg_test_raise_ols (y x : list Q) (window t : nat) e :
  ols_params (EngleGranger.ols_request y x window t) = Raises e ->
  eg_test y x window t = None.
Proof.
  intros Hols. unfold eg_test, eg_spread, eg_alpha_beta. by rewrite Hols.
Qed.

Lemma eg_test_raise_coint (y x : list Q) (window t : nat) e :
  coint (EngleGranger.coint_request y x window t) = Raises e ->
  eg_test y x window t = None.
Proof.
  intros Hc. unfold eg_test. rewrite Hc.
  by destruct (eg_spread y x window t).
Qed.

Lemma eg_test_short_params (y x : list Q) (window t : nat) params :
  ols_params (EngleGranger.ols_request y x window t) = Returns params ->
  (length params < 2)%nat ->
  eg_test y x window t = None.
Proof.
  intros Hols Hlen. unfold eg_test, eg_spread, eg_alpha_beta. rewrite Hols.
  destruct params as [|p0 [|p1 ?]]; simpl in *; [done.. | lia].
Qed.

Lemma eg_test_short_x (y x : list Q) (window t : nat) :
  (length x <= t)%nat -> eg_test y x window t = None.
Proof.
  intros Hx. unfold eg_test, eg_spread.
  destruct (eg_alpha_beta y x window t); [| done]. simpl.
  destruct (y !! t); [| done]. simpl.
  by rewrite (lookup_ge_None_2 x t Hx).
Qed.

Lemma eg_test_return (y x : list Q) (window t : nat) r :
  coint (EngleGranger.coint_request y x window t) = Returns r ->
  eg_test y x window t = None \/ eg_test y x window t = Some r.
Proof.
  intros Hc. unfold eg_test. rewrite Hc.
  destruct (eg_spread y x window t); auto.
Qed.

End Flags.

(** C10.  The flag columns are integer arrays: every entry of
    [is_mean_reverting], [is_stationary] and [is_cointegrated] is 0 or 1,
    never the sentinel.  The flag is 0 at every warm-up index and at every
    window whose collaborator raises, exactly as at a window that was
    computed with a p-value of 0.05 or more: the flag column alone does not
    tell "not computed" from "computed and false". *)
Theorem flags_never_sentinel `{Libraries} :
  (forall (series : list Q) (window : nat), (1 <= window)%nat ->
     exists df,
       HalfLife.compute_half_life_ar1 series window = Returns df /\
       length (HalfLife.is_mean_reverting df) = length series /\
       (forall t f, HalfLife.is_mean_reverting df !! t = Some f ->
          f = 0%Z \/ f = 1%Z) /\
       (forall t, (t < window - 1)%nat -> (t < length series)%nat ->
          HalfLife.is_mean_reverting df !! t = Some 0%Z)) /\
  (forall (series : list Q) (window maxlag : nat) (regression : string),
     (1 <= window)%nat ->
     exists df,
       RollingADF.compute_rolling_adf series window maxlag regression
         = Returns df /\
       length (RollingADF.is_stationary df) = length series /\
       (forall t f, RollingADF.is_stationary df !! t = Some f ->
          f = 0%Z \/ f = 1%Z) /\
       (forall t, (t < window - 1)%nat -> (t < length series)%nat ->
          RollingADF.is_stationary df !! t = Some 0%Z) /\
       (forall t e, (window - 1 <= t < length series)%nat ->
          adfuller (RollingADF.request series window maxlag regression t)
            = Raises e ->
          RollingADF.is_stationary df !! t = Some 0%Z) /\
       (forall t r, (window - 1 <= t < length series)%nat ->
          adfuller (RollingADF.request series window maxlag regression t)
            = Returns r ->
          0.05 <= adf_pvalue r ->
          RollingADF.is_stationary df !! t = Some 0%Z)) /\
  (forall (y x : list Q) (window : nat), (1 <= window)%nat ->
     exists df,
       EngleGranger.compute_engle_granger y x window = Returns df /\
       length (EngleGranger.is_cointegrated df) = length y /\
       (forall t f, EngleGranger.is_cointegrated df !! t = Some f ->
          f = 0%Z \/ f = 1%Z) /\
       (forall t, (t < window - 1)%nat -> (t < length y)%nat ->
          EngleGranger.is_cointegrated df !! t = Some 0%Z) /\
       (forall t e, (window - 1 <= t < length y)%nat ->
          ols_params (EngleGranger.ols_request y x window t) = Raises e \/
          coint (EngleGranger.coint_request y x window t) = Raises e ->
          EngleGranger.is_cointegrated df !! t = Some 0%Z) /\
       (forall t params, (window - 1 <= t < length y)%nat ->
          ols_params (EngleGranger.ols_request y x window t) = Returns params ->
          (length params < 2)%nat ->
          EngleGranger.is_cointegrated df !! t = Some 0%Z) /\
       (forall t, (window - 1 <= t < length y)%nat -> (length x <= t)%nat ->
          EngleGranger.is_cointegrated df !! t = Some 0%Z) /\
       (forall t r, (window - 1 <= t < length y)%nat ->
          coint (EngleGranger.coint_request y x window t) = Returns r ->
          0.05 <= coint_pvalue r ->
          EngleGranger.is_cointegrated df !! t = Some 0%Z)).
Proof.
  split; [| split].
  - intros series window _.
    destruct (half_life_flag series window) as (df & Hrun & Hlen & Hflag).
    exists df. split; [done |]. split; [done |]. split.
    + intros t f Hf.
      assert (t < length series)%nat as Ht
        by (rewrite <- Hlen; by apply lookup_lt_Some in Hf).
      rewrite (Hflag t Ht) in Hf. injection Hf as <-.
      destruct (decide _); [| by left].
      unfold flag_at. destruct (mean_reverting _); simpl; auto.
    + intros t Ht Hn. rewrite (Hflag t Hn). by rewrite decide_False by lia.
  - intros series window maxlag regression _.
    destruct (adf_flag_column series window maxlag regression)
      as (df & Hrun & Hlen & Hflag).
    exists df. split; [done |]. split; [done |].
    split; [| split; [| split]].
    + intros t f Hf.
      assert (t < length series)%nat as Ht
        by (rewrite <- Hlen; by apply lookup_lt_Some in Hf).
      rewrite (Hflag t Ht) in Hf. injection Hf as <-.
      destruct (decide _); [| by left].
      destruct (adf_answer series window maxlag regression t) as [r |];
        simpl; [apply adf_flag_01 | by left].
    + intros t Ht Hn. rewrite (Hflag t Hn). by rewrite decide_False by lia.
    + intros t e Ht Hraise. rewrite (Hflag t) by lia.
      rewrite decide_True by lia. unfold adf_answer. by rewrite Hraise.
    + intros t r Ht Hret Hp. rewrite (Hflag t) by lia.
      rewrite decide_True by lia. unfold adf_answer. rewrite Hret. simpl.
      unfold adf_flag. apply Qltb_false in Hp. by rewrite Hp.
  - intros y x window _.
    destruct (engle_granger_flag_column y x window)
      as (df & Hrun & Hlen & Hflag).
    exists df. split; [done |]. split; [done |].
    split; [| split; [| split; [| split; [| split]]]].
    + intros t f Hf.
      assert (t < length y)%nat as Ht
        by (rewrite <- Hlen; by apply lookup_lt_Some in Hf).
      rewrite (Hflag t Ht) in Hf. injection Hf as <-.
      destruct (decide _); [| by left].
      destruct (eg_test y x window t) as [r |];
        simpl; [apply eg_flag_01 | by left].
    + intros t Ht Hn. rewrite (Hflag t Hn). by rewrite decide_False by lia.
    + intros t e Ht Hraise. rewrite (Hflag t) by lia.
      rewrite decide_True by lia.
      destruct Hraise as [Hols | Hc].
      * by rewrite (eg_test_raise_ols _ _ _ _ _ Hols).
      * by rewrite (eg_test_raise_coint _ _ _ _ _ Hc).
    + intros t params Ht Hols Hlen2. rewrite (Hflag t) by lia.
      rewrite decide_True by lia.
      by rewrite (eg_test_short_params _ _ _ _ _ Hols Hlen2).
    + intros t Ht Hx. rewrite (Hflag t) by lia.
      rewrite decide_True by lia. by rewrite (eg_test_short_x _ _ _ _ Hx).
    + intros t r Ht Hret Hp. rewrite (Hflag t) by lia.
      rewrite decide_True by lia.
      destruct (eg_test_return _ _ _ _ _ Hret) as [-> | ->]; [done |].
      simpl. unfold eg_flag. apply Qltb_false in Hp. by rewrite Hp.
Qed.

(** ** Collaborator failures *)

Lemma eg_row_depends_on_answers (L1 L2 : Libraries) (y x : list Q)
  (window t : nat) :
  @ols_params L1 (EngleGranger.ols_request y x window t)
    = @ols_params L2 (EngleGranger.ols_request y x window t) ->
  @coint L1 (EngleGranger.coint_request y x window t)
    = @coint L2 (EngleGranger.coint_request y x window t) ->
  @eg_alpha_beta L1 y x window t = @eg_alpha_beta L2 y x window t /\
  @eg_spread L1 y x window t = @eg_spread L2 y x window t /\
  @eg_test L1 y x window t = @eg_test L2 y x window t.
Proof.
  intros Hols Hc.
  assert (@eg_alpha_beta L1 y x window t = @eg_alpha_beta L2 y x window t)
    as Hab by (unfold eg_alpha_beta; by rewrite Hols).
  assert (@eg_spread L1 y x window t = @eg_spread L2 y x window t)
    as Hsp by (unfold eg_spread; by rewrite Hab).
  split; [done |]. split; [done |].
  unfold eg_test. by rewrite Hsp, Hc.
Qed.

Lemma joh_row_depends_on_answer (L1 L2 : Libraries) (data : Johansen.ndarray2)
  (window : nat) (det_order : Z) (k_ar_diff t : nat) :
  @coint_johansen L1 (Johansen.request data window det_order k_ar_diff t)
    = @coint_johansen L2 (Johansen.request data window det_order k_ar_diff t) ->
  @joh_answer L1 data window det_order k_ar_diff t
    = @joh_answer L2 data window det_order k_ar_diff t.
Proof. intros Heq. unfold joh_answer. by rewrite Heq. Qed.

(** C3, as the code has it.  The loops of [compute_engle_granger],
    [compute_johansen] and [compute_rolling_adf] always return.  At a window
    whose test or eigen-decomposition fails (the call does not return: it
    raises, whatever the exception), every float column filled from that
    collaborator's answer holds the sentinel and the integer flag holds 0:
    for Johansen that is the whole row, for the rolling ADF the whole row
    but the flag.  In Engle-Granger the [hedge_ratio], [intercept] and
    [spread] columns keep what Step 1 wrote before the test failed; the row
    is all sentinel (with flag 0) when the regression itself fails.  In
    each of the three operations the row of a window depends on the
    collaborators' answers for that window only: two runs whose
    collaborators agree at a window give it the same row, whatever fails
    or differs at the other windows, so a failure elsewhere leaves it
    unaffected. *)
Theorem collaborator_failure_is_isolated :
  (forall (L : Libraries) (y x : list Q) (window : nat), (1 <= window)%nat ->
     exists df,
       EngleGranger.compute_engle_granger y x window = Returns df /\
       (forall t e params alpha beta, (window - 1 <= t < length y)%nat ->
          ols_params (EngleGranger.ols_request y x window t) = Returns params ->
          params !! 0%nat = Some alpha -> params !! 1%nat = Some beta ->
          coint (EngleGranger.coint_request y x window t) = Raises e ->
          engle_granger_row df t
          = Some [Float (Some beta); Float (Some alpha);
                  Float (default nan (Some <$> eg_spread y x window t));
                  sentinel; sentinel; sentinel; sentinel; sentinel; Int 0]) /\
       (forall t e, (window - 1 <= t < length y)%nat ->
          ols_params (EngleGranger.ols_request y x window t) = Raises e ->
          engle_granger_row df t
          = Some [sentinel; sentinel; sentinel; sentinel; sentinel; sentinel;
                  sentinel; sentinel; Int 0])) /\
  (forall (L : Libraries) (data : Johansen.ndarray2) (window : nat)
          (det_order : Z) (k_ar_diff : nat), (1 <= window)%nat ->
     exists df,
       Johansen.compute_johansen data window det_order k_ar_diff
         = Returns df /\
       forall t e, (window - 1 <= t < length (Johansen.rows data))%nat ->
         coint_johansen (Johansen.request data window det_order k_ar_diff t)
           = Raises e ->
         johansen_row df t
         = Some [sentinel; sentinel; sentinel; sentinel; sentinel; sentinel;
                 sentinel]) /\
  (forall (L : Libraries) (series : list Q) (window maxlag : nat)
          (regression : string), (1 <= window)%nat ->
     exists df,
       RollingADF.compute_rolling_adf series window maxlag regression
         = Returns df /\
       forall t e, (window - 1 <= t < length series)%nat ->
         adfuller (RollingADF.request series window maxlag regression t)
           = Raises e ->
         adf_row df t
         = Some [sentinel; sentinel; sentinel; sentinel; sentinel; Int 0]) /\
  (forall (L1 L2 : Libraries) (y x : list Q) (window t : nat),
     (1 <= window)%nat -> (window - 1 <= t < length y)%nat ->
     @ols_params L1 (EngleGranger.ols_request y x window t)
       = @ols_params L2 (EngleGranger.ols_request y x window t) ->
     @coint L1 (EngleGranger.coint_request y x window t)
       = @coint L2 (EngleGranger.coint_request y x window t) ->
     exists df1 df2,
       @EngleGranger.compute_engle_granger L1 y x window = Returns df1 /\
       @EngleGranger.compute_engle_granger L2 y x window = Returns df2 /\
       engle_granger_row df1 t = engle_granger_row df2 t) /\
  (forall (L1 L2 : Libraries) (data : Johansen.ndarray2) (window : nat)
          (det_order : Z) (k_ar_diff t : nat),
     (1 <= window)%nat ->
     (window - 1 <= t < length (Johansen.rows data))%nat ->
     @coint_johansen L1 (Johansen.request data window det_order k_ar_diff t)
       = @coint_johansen L2 (Johansen.request data window det_order k_ar_diff t) ->
     exists df1 df2,
       @Johansen.compute_johansen L1 data window det_order k_ar_diff
         = Returns df1 /\
       @Johansen.compute_johansen L2 data window det_order k_ar_diff
         = Returns df2 /\
       johansen_row df1 t = johansen_row df2 t) /\
  (forall (L1 L2 : Libraries) (series : list Q) (window maxlag : nat)
          (regression : string) (t : nat),
     (1 <= window)%nat -> (window - 1 <= t < length series)%nat ->
     @adfuller L1 (RollingADF.request series window maxlag regression t)
       = @adfuller L2 (RollingADF.request series window maxlag regression t) ->
     exists df1 df2,
       @RollingADF.compute_rolling_adf L1 series window maxlag regression
         = Returns df1 /\
       @RollingADF.compute_rolling_adf L2 series window maxlag regression
         = Returns df2 /\
       adf_row df1 t = adf_row df2 t).
Proof.
  split; [| split; [| split; [| split; [| split]]]].
  - intros L y x window _.
    destruct (engle_granger_columns y x window) as (df & Hrun & _ & _ & Hrow & _).
    exists df. split; [done |]. split.
    + intros t e params alpha beta Ht Hols H0 H1 Hc.
      rewrite (Hrow t Ht), (eg_test_raise_coint _ _ _ _ _ Hc).
      unfold eg_alpha_beta. rewrite Hols. simpl. rewrite H0. simpl.
      rewrite H1. reflexivity.
    + intros t e Ht Hols.
      rewrite (Hrow t Ht), (eg_test_raise_ols _ _ _ _ _ Hols).
      unfold eg_spread, eg_alpha_beta. rewrite Hols. reflexivity.
  - intros L data window det_order k_ar_diff _.
    destruct (johansen_columns data window det_order k_ar_diff)
      as (df & Hrun & _ & _ & Hrow & _).
    exists df. split; [done |].
    intros t e Ht Hraise. rewrite (Hrow t Ht).
    unfold joh_rank, joh_m1, joh_m0, joh_t1, joh_t0, joh_e1, joh_e0,
      joh_answer.
    rewrite Hraise. reflexivity.
  - intros L series window maxlag regression _.
    destruct (adf_columns series window maxlag regression)
      as (df & Hrun & _ & _ & Hrow & _).
    exists df. split; [done |].
    intros t e Ht Hraise. rewrite (Hrow t Ht).
    unfold adf_answer. rewrite Hraise. reflexivity.
  - intros L1 L2 y x window t _ Ht Hols Hc.
    destruct (@engle_granger_columns L1 y x window)
      as (df1 & Hrun1 & _ & _ & Hrow1 & _).
    destruct (@engle_granger_columns L2 y x window)
      as (df2 & Hrun2 & _ & _ & Hrow2 & _).
    exists df1, df2. split; [done |]. split; [done |].
    rewrite (Hrow1 t Ht), (Hrow2 t Ht).
    destruct (eg_row_depends_on_answers L1 L2 y x window t Hols Hc)
      as (-> & -> & ->).
    reflexivity.
  - intros L1 L2 data window det_order k_ar_diff t _ Ht Heq.
    destruct (@johansen_columns L1 data window det_order k_ar_diff)
      as (df1 & Hrun1 & _ & _ & Hrow1 & _).
    destruct (@johansen_columns L2 data window det_order k_ar_diff)
      as (df2 & Hrun2 & _ & _ & Hrow2 & _).
    exists df1, df2. split; [done |]. split; [done |].
    rewrite (Hrow1 t Ht), (Hrow2 t Ht).
    unfold joh_rank, joh_m1, joh_m0, joh_t1, joh_t0, joh_e1, joh_e0.
    rewrite (joh_row_depends_on_answer L1 L2 _ _ _ _ _ Heq). reflexivity.
  - intros L1 L2 series window maxlag regression t _ Ht Heq.
    destruct (@adf_columns L1 series window maxlag regression)
      as (df1 & Hrun1 & _ & _ & Hrow1 & _).
    destruct (@adf_columns L2 series window maxlag regression)
      as (df2 & Hrun2 & _ & _ & Hrow2 & _).
    exists df1, df2. split; [done |]. split; [done |].
    rewrite (Hrow1 t Ht), (Hrow2 t Ht).
    unfold adf_answer. rewrite Heq. reflexivity.
Qed.

(** ** The two steps of Engle-Granger *)

(** C5, as the code has it.  At every window, Step 2 calls the test
    collaborator on the two window slices of [y] and [x] themselves (with
    trend "c" and maxlag 1), not on the residual series of Step 1.  When the
    regression returns [alpha], [beta] and the test returns, the statistic,
    the p-value and the three critical values of the answer are that
    window's test result, [is_cointegrated] is 1 exactly when the p-value is
    below 0.05, and [alpha], [beta] feed the [intercept], [hedge_ratio] and
    current-point [spread] columns only. *)
Theorem engle_granger_test_on_window_slices `{Libraries}
  (y x : list Q) (window t : nat) (params : list Q) (alpha beta yi xi : Q)
  (r : coint_result) :
  (1 <= window)%nat -> (window - 1 <= t < length y)%nat ->
  ols_params {| ols_endog := slice y (t + 1 - window) (t + 1);
                ols_exog := slice x (t + 1 - window) (t + 1) |}
    = Returns params ->
  params !! 0%nat = Some alpha -> params !! 1%nat = Some beta ->
  y !! t = Some yi -> x !! t = Some xi ->
  coint {| coint_y0 := slice y (t + 1 - window) (t + 1);
           coint_y1 := slice x (t + 1 - window) (t + 1);
           coint_trend := "c";
           coint_maxlag := 1 |}
    = Returns r ->
  EngleGranger.coint_request y x window t
    = {| coint_y0 := slice y (t + 1 - window) (t + 1);
         coint_y1 := slice x (t + 1 - window) (t + 1);
         coint_trend := "c";
         coint_maxlag := 1 |} /\
  exists df,
    EngleGranger.compute_engle_granger y x window = Returns df /\
    engle_granger_row df t
    = Some [Float (Some beta); Float (Some alpha);
            Float (Some (yi - alpha - beta * xi));
            Float (Some (coint_t r)); Float (Some (coint_pvalue r));
            Float (Some (coint_crit_0 r)); Float (Some (coint_crit_1 r));
            Float (Some (coint_crit_2 r));
            Int (if Qltb (coint_pvalue r) 0.05 then 1 else 0)].
Proof.
  intros _ Ht Hols H0 H1 Hy Hx Hc. split; [reflexivity |].
  destruct (engle_granger_columns y x window) as (df & Hrun & _ & _ & Hrow & _).
  exists df. split; [done |]. rewrite (Hrow t Ht).
  assert (eg_alpha_beta y x window t = Some (alpha, beta)) as Hab.
  { unfold eg_alpha_beta, EngleGranger.ols_request, EngleGranger.y_win,
      EngleGranger.x_win.
    rewrite Hols. simpl. rewrite H0. simpl. by rewrite H1. }
  assert (eg_spread y x window t = Some (yi - alpha - beta * xi)) as Hsp.
  { unfold eg_spread. rewrite Hab. simpl. rewrite Hy. simpl. by rewrite Hx. }
  assert (eg_test y x window t = Some r) as Htest.
  { unfold eg_test. rewrite Hsp. simpl.
    unfold EngleGranger.coint_request, EngleGranger.y_win, EngleGranger.x_win.
    by rewrite Hc. }
  rewrite Hab, Hsp, Htest. reflexivity.
Qed.

(** ** The rank decision *)

Lemma getitem2_lookup {A} (c : list (list A)) (i j : nat) (v : A) :
  getitem2 c i j = Returns v <-> c !! i ≫= (fun row => row !! j) = Some v.
Proof.
  unfold getitem2, getitem.
  destruct (c !! i) as [row |]; simpl; [| split; discriminate].
  destruct (row !! j); split; congruence.
Qed.

(** C9.  At a window where the eigen-decomposition returns two eigenvalues,
    two trace statistics [lr1], two max statistics and a critical-value
    table [cvt] with the 5% column in its first two rows, the stored rank is
    0 if [lr1[0] <= cvt[0][5%]], 1 if [lr1[0]] exceeds it and
    [lr1[1] <= cvt[1][5%]], and 2 if both exceed; with one trace statistic
    per variable it never exceeds [n_vars]. *)
Theorem johansen_rank_decision `{Libraries}
  (data : Johansen.ndarray2) (window : nat) (det_order : Z)
  (k_ar_diff t : nat) (result : johansen_result) (l0 l1 c0 c1 : Q) :
  (1 <= window)%nat ->
  (window - 1 <= t < length (Johansen.rows data))%nat ->
  coint_johansen (Johansen.request data window det_order k_ar_diff t)
    = Returns result ->
  (2 <= length (eig result))%nat -> (2 <= length (lr2 result))%nat ->
  lr1 result !! 0%nat = Some l0 -> lr1 result !! 1%nat = Some l1 ->
  getitem2 (cvt result) 0 1 = Returns c0 ->
  getitem2 (cvt result) 1 1 = Returns c1 ->
  length (lr1 result) = Johansen.shape1 data ->
  exists df rank,
    Johansen.compute_johansen data window det_order k_ar_diff = Returns df /\
    Johansen.ranks df !! t = Some (Some (inject_Z rank)) /\
    (l0 <= c0 -> rank = 0%Z) /\
    (c0 < l0 -> l1 <= c1 -> rank = 1%Z) /\
    (c0 < l0 -> c1 < l1 -> rank = 2%Z) /\
    (0 <= rank <= Z.of_nat (Johansen.shape1 data))%Z.
Proof.
  intros _ Ht Hret Heig Hlr2 Hl0 Hl1 Hc0 Hc1 Hvars.
  apply getitem2_lookup in Hc0, Hc1.
  pose (rank := if Qltb c0 l0 then (if Qltb c1 l1 then 2%Z else 1%Z) else 0%Z).
  assert (rank_value result = Some rank) as Hrank.
  { unfold rank_value, rank. rewrite Hl0. simpl. rewrite Hc0. simpl.
    destruct (Qltb c0 l0); [| done].
    rewrite Hl1. simpl. rewrite Hc1. reflexivity. }
  assert (joh_rank data window det_order k_ar_diff t = Some rank) as Hjoh.
  { unfold joh_rank, joh_m1, joh_m0, joh_t1, joh_t0, joh_e1, joh_e0,
      joh_answer.
    rewrite Hret. simpl.
    destruct (eig result) as [|e0 [|e1 ?]]; simpl in Heig; try lia.
    destruct (lr2 result) as [|m0 [|m1 ?]]; simpl in Hlr2; try lia.
    simpl. rewrite Hl0. simpl. rewrite Hl1. simpl. exact Hrank. }
  eexists _, rank. split; [apply compute_johansen_spec |].
  cbn [Johansen.ranks]. unfold np_full.
  rewrite writes_blank_in by lia. rewrite Hjoh.
  split; [reflexivity |]. unfold rank.
  assert (2 <= Johansen.shape1 data)%nat as Hn.
  { rewrite <- Hvars. apply lookup_lt_Some in Hl1. lia. }
  split; [| split; [| split]].
  - intros Hle. apply Qltb_false in Hle. by rewrite Hle.
  - intros Hgt Hle. apply Qltb_true in Hgt. apply Qltb_false in Hle.
    by rewrite Hgt, Hle.
  - intros Hgt0 Hgt1. apply Qltb_true in Hgt0, Hgt1. by rewrite Hgt0, Hgt1.
  - destruct (Qltb c0 l0), (Qltb c1 l1); lia.
Qed.

(** * Concrete runs *)

Import Samples.

(** The sample and the population convention differ: on the lag pairs
    [(0, 1.7e-5)], [(1.7e-5, 0)] the sample variance exceeds 1e-10 and the
    coefficient is -1, while the population variance does not and
    "Method 2" gives 0.  The loop stores the former. *)
Lemma population_variant_differs :
  exists df phi,
    @HalfLife.compute_half_life_ar1 sample_libraries [0; 0.000017; 0] 3
      = Returns df /\
    HalfLife.ar1_coefs df !! 2%nat = Some (Some phi) /\
    phi == - 1 /\
    DebugComparison.phi_pop [0.000017; 0] [0; 0.000017] = Some 0.
Proof.
  eexists _, _. split; [vm_compute; reflexivity |].
  split; [reflexivity |]. split; reflexivity.
Qed.

(** On [series5] with window 3, at index 3: the lag pairs are [(2, 3)],
    [(3, 3.5)] and the coefficient is 1/2. *)
Lemma half_life_phi_sample_convention_witness :
  exists df phi,
    @HalfLife.compute_half_life_ar1 sample_libraries series5 3 = Returns df /\
    HalfLife.ar1_coefs df !! 3%nat = Some (Some phi) /\
    phi == 0.5.
Proof.
  destruct (@half_life_phi_sample_convention sample_libraries series5 3 3)
    as (df & phi & Hrun & Har & _ & Hbig & _ & _).
  - lia.
  - unfold series5. simpl. lia.
  - exists df, phi. split; [exact Hrun |]. split; [exact Har |].
    rewrite (Hbig ltac:(lia)). vm_compute. reflexivity.
Defined.

(** With [d = 1] the second weight is kept and follows the recurrence from
    the first. *)
Lemma ffd_weights_recurrence_and_stop_witness :
  exists wprev,
    FracDiff.compute_ffd_weights 1 1e-5 FracDiff.MAX_SIZE !! 0%nat
      = Some wprev /\
    FracDiff.next_weight 1 1 1 = (- wprev) * (1 - of_nat 1 + 1) / of_nat 1 /\
    ~ Qabs (FracDiff.next_weight 1 1 1) < 1e-5.
Proof.
  destruct (ffd_weights_recurrence_and_stop 1 1e-5)
    as (_ & Hrec & _ & Hkept & _).
  assert (FracDiff.compute_ffd_weights 1 1e-5 FracDiff.MAX_SIZE !! 1%nat
          = Some (FracDiff.next_weight 1 1 1)) as Hw1
    by (vm_compute; reflexivity).
  destruct (Hrec 1%nat (FracDiff.next_weight 1 1 1) ltac:(lia) Hw1)
    as (wprev & Hprev & Heq).
  exists wprev. split; [exact Hprev |]. split; [exact Heq |].
  exact (Hkept 1%nat (FracDiff.next_weight 1 1 1) ltac:(lia) Hw1).
Defined.

(** On [series5] with window 3, at index 3: [phi = 1/2] lies in (0, 1), the
    half-life is below the cap of 30 and the flag is 1. *)
Lemma half_life_capped_or_sentinel_witness :
  exists df h,
    @HalfLife.compute_half_life_ar1 sample_libraries series5 3 = Returns df /\
    HalfLife.half_lives df !! 3%nat = Some (Some h) /\
    h <= of_nat (3 * 10) /\
    HalfLife.is_mean_reverting df !! 3%nat = Some 1%Z.
Proof.
  destruct (@half_life_capped_or_sentinel sample_libraries series5 3 3)
    as (df & phi & Hrun & Har & Hin & _).
  - lia.
  - unfold series5. simpl. lia.
  - assert (phi = 64000 # 128000) as ->.
    { vm_compute in Hrun. injection Hrun as <-.
      vm_compute in Har. by injection Har as <-. }
    destruct Hin as (h & Hh & _ & Hcap & Hflag); [split; reflexivity |].
    exists df, h. done.
Defined.

(** The identity filter on [series5]. *)
Lemma frac_diff_identity_witness :
  FracDiff.compute_ffd_weights 0 1e-5 FracDiff.MAX_SIZE = [1] /\
  FracDiff.frac_diff_manual series5 0 1e-5 = Returns (map Some series5).
Proof.
  apply (frac_diff_identity series5 0 1e-5); reflexivity.
Defined.

(** C8 as stated fails: at the warm-up index 0 of a half-life run the flag
    column holds 0, which is not the sentinel. *)
Lemma warm_up_flag_is_not_sentinel :
  exists df row,
    @HalfLife.compute_half_life_ar1 sample_libraries series5 3 = Returns df /\
    half_life_row df 0 = Some row /\
    ~ Forall (fun v => v = sentinel) row.
Proof.
  eexists _, _. split; [vm_compute; reflexivity |].
  split; [reflexivity |].
  intros Hall. apply Forall_cons in Hall as [_ Hall].
  apply Forall_cons in Hall as [_ Hall].
  apply Forall_cons in Hall as [Hflag _]. discriminate Hflag.
Qed.

(** One warm-up row of each operation. *)
Lemma warm_up_rows_witness :
  (exists result,
     FracDiff.frac_diff_manual series5 1 1e-5 = Returns result /\
     frac_diff_row result 0 = Some [sentinel]) /\
  (exists df,
     @HalfLife.compute_half_life_ar1 sample_libraries series5 3 = Returns df /\
     half_life_row df 1 = Some [sentinel; sentinel; Int 0]) /\
  (exists df,
     @RollingADF.compute_rolling_adf sample_libraries series5 4 1 "c"
       = Returns df /\
     adf_row df 2
     = Some [sentinel; sentinel; sentinel; sentinel; sentinel; Int 0]) /\
  (exists df,
     @EngleGranger.compute_engle_granger sample_libraries y5 x5 4
       = Returns df /\
     engle_granger_row df 0
     = Some [sentinel; sentinel; sentinel; sentinel; sentinel; sentinel;
             sentinel; sentinel; Int 0]) /\
  (exists df,
     @Johansen.compute_johansen sample_libraries data5 4 0 1 = Returns df /\
     johansen_row df 1
     = Some [sentinel; sentinel; sentinel; sentinel; sentinel; sentinel;
             sentinel]).
Proof.
  destruct (@warm_up_rows sample_libraries) as (Hf & Hh & Ha & He & Hj).
  split; [| split; [| split; [| split]]].
  - destruct (Hf series5 1 1e-5) as (result & Hrun & _ & Hwarm).
    exists result. split; [exact Hrun |].
    apply Hwarm; [vm_compute; lia | simpl; lia].
  - destruct (Hh series5 3%nat ltac:(lia)) as (df & Hrun & _ & Hwarm).
    exists df. split; [exact Hrun |]. apply Hwarm; simpl; lia.
  - destruct (Ha series5 4%nat 1%nat "c"%string ltac:(lia))
      as (df & Hrun & _ & Hwarm).
    exists df. split; [exact Hrun |]. apply Hwarm; simpl; lia.
  - destruct (He y5 x5 4%nat ltac:(lia)) as (df & Hrun & _ & Hwarm).
    exists df. split; [exact Hrun |]. apply Hwarm; simpl; lia.
  - destruct (Hj data5 4%nat 0%Z 1%nat ltac:(lia)) as (df & Hrun & _ & Hwarm).
    exists df. split; [exact Hrun |]. apply Hwarm; simpl; lia.
Defined.

(** C4 as stated fails: with a window longer than the series, and with an
    empty series, the operations return a frame; none raises. *)
Lemma short_series_returns_instead_of_raising :
  (forall e, @HalfLife.compute_half_life_ar1 sample_libraries series5 7
             <> Raises e) /\
  (forall e, @HalfLife.compute_half_life_ar1 sample_libraries [] 3
             <> Raises e) /\
  (forall e, FracDiff.frac_diff_manual [5] 1 1e-5 <> Raises e) /\
  @HalfLife.compute_half_life_ar1 sample_libraries series5 7
    = Returns (half_life_blank 5) /\
  FracDiff.frac_diff_manual [5] 1 1e-5 = Returns [nan].
Proof.
  assert (@HalfLife.compute_half_life_ar1 sample_libraries series5 7
          = Returns (half_life_blank 5)) as H7 by (vm_compute; reflexivity).
  assert (@HalfLife.compute_half_life_ar1 sample_libraries [] 3
          = Returns (half_life_blank 0)) as H0 by (vm_compute; reflexivity).
  assert (FracDiff.frac_diff_manual [5] 1 1e-5 = Returns [nan]) as Hf
    by (vm_compute; reflexivity).
  repeat split; try done; intros e; congruence.
Qed.

(** A window of 7 on five observations, and an empty pair of series. *)
Lemma short_series_returns_blank_frame_witness :
  @HalfLife.compute_half_life_ar1 sample_libraries series5 7
    = Returns (half_life_blank 5) /\
  @EngleGranger.compute_engle_granger sample_libraries [] [] 7
    = Returns (engle_granger_blank 0) /\
  FracDiff.frac_diff_manual [5] 1 1e-5 = Returns (np_full 1 nan).
Proof.
  destruct (@short_series_returns_blank_frame sample_libraries 7 ltac:(lia))
    as (Hh & _ & He & _ & Hf).
  split; [| split].
  - apply (Hh series5). left. simpl. lia.
  - apply (He [] []). by right.
  - apply (Hf [5] 1 1e-5). left. vm_compute. lia.
Defined.

(** C3 as stated fails: at window 2 of this run the test collaborator
    raises, yet the row keeps the hedge ratio, the intercept and the spread
    of Step 1, and its flag is 0: it is not all sentinel. *)
Lemma failed_test_row_not_all_sentinel :
  @coint sample_libraries (EngleGranger.coint_request y3 x3 3 2)
    = Raises BackendError /\
  exists df hedge row,
    @EngleGranger.compute_engle_granger sample_libraries y3 x3 3
      = Returns df /\
    EngleGranger.hedge_ratios df !! 2%nat = Some (Some hedge) /\
    hedge == 0.5 /\
    engle_granger_row df 2 = Some row /\
    ~ Forall (fun v => v = sentinel) row.
Proof.
  split; [reflexivity |].
  eexists _, _, _. split; [vm_compute; reflexivity |].
  split; [reflexivity |]. split; [reflexivity |].
  split; [reflexivity |].
  intros Hall. apply Forall_cons in Hall as [Hhedge _]. discriminate Hhedge.
Qed.

(** A window whose test raises after a successful regression, a window
    whose eigen-decomposition raises, a window whose rolling ADF test
    raises, and, for each operation, a window that two sets of
    collaborators answer alike. *)
Lemma collaborator_failure_is_isolated_witness :
  (exists df alpha beta,
     @EngleGranger.compute_engle_granger sample_libraries y3 x3 3
       = Returns df /\
     engle_granger_row df 2
     = Some [Float (Some beta); Float (Some alpha);
             Float (default nan
                      (Some <$> @eg_spread sample_libraries y3 x3 3 2));
             sentinel; sentinel; sentinel; sentinel; sentinel; Int 0]) /\
  (exists df,
     @Johansen.compute_johansen sample_libraries data5 3 0 1 = Returns df /\
     johansen_row df 2
     = Some [sentinel; sentinel; sentinel; sentinel; sentinel; sentinel;
             sentinel]) /\
  (exists df,
     @RollingADF.compute_rolling_adf sample_libraries series5 3 1 "c"
       = Returns df /\
     adf_row df 2
     = Some [sentinel; sentinel; sentinel; sentinel; sentinel; Int 0]) /\
  (exists df1 df2,
     @EngleGranger.compute_engle_granger sample_libraries y5 x5 4
       = Returns df1 /\
     @EngleGranger.compute_engle_granger answering_libraries y5 x5 4
       = Returns df2 /\
     engle_granger_row df1 3 = engle_granger_row df2 3) /\
  (exists df1 df2,
     @Johansen.compute_johansen sample_libraries data5 4 0 1 = Returns df1 /\
     @Johansen.compute_johansen answering_libraries data5 4 0 1
       = Returns df2 /\
     johansen_row df1 3 = johansen_row df2 3) /\
  (exists df1 df2,
     @RollingADF.compute_rolling_adf sample_libraries series5 4 1 "c"
       = Returns df1 /\
     @RollingADF.compute_rolling_adf answering_libraries series5 4 1 "c"
       = Returns df2 /\
     adf_row df1 3 = adf_row df2 3).
Proof.
  destruct collaborator_failure_is_isolated
    as (Heg & Hjoh & Hadf & Hiso & Hisoj & Hisoa).
  split; [| split; [| split; [| split; [| split]]]].
  - destruct (Heg sample_libraries y3 x3 3%nat ltac:(lia))
      as (df & Hrun & Hfail & _).
    exists df. eexists _, _. split; [exact Hrun |].
    eapply Hfail.
    + simpl. lia.
    + vm_compute. reflexivity.
    + reflexivity.
    + reflexivity.
    + vm_compute. reflexivity.
  - destruct (Hjoh sample_libraries data5 3%nat 0%Z 1%nat ltac:(lia))
      as (df & Hrun & Hfail).
    exists df. split; [exact Hrun |].
    eapply Hfail; [simpl; lia | vm_compute; reflexivity].
  - destruct (Hadf sample_libraries series5 3%nat 1%nat "c"%string ltac:(lia))
      as (df & Hrun & Hfail).
    exists df. split; [exact Hrun |].
    eapply Hfail; [simpl; lia | vm_compute; reflexivity].
  - apply (Hiso sample_libraries answering_libraries y5 x5 4%nat 3%nat).
    + lia.
    + simpl. lia.
    + reflexivity.
    + vm_compute. reflexivity.
  - apply (Hisoj sample_libraries answering_libraries data5 4%nat 0%Z 1%nat
             3%nat).
    + lia.
    + simpl. lia.
    + vm_compute. reflexivity.
  - apply (Hisoa sample_libraries answering_libraries series5 4%nat 1%nat
             "c"%string 3%nat).
    + lia.
    + simpl. lia.
    + vm_compute. reflexivity.
Defined.

(** C5 as stated fails: at window 2 of this run the residual spread series
    of Step 1 is [-1/2; 1; -1/2], while the series handed to the test are
    the window slices [1; 3; 2] and [1; 2; 3]: the residual series is not
    among them. *)
Lemma test_input_is_not_residual_spread :
  exists resid,
    @residual_spread sample_libraries y3 x3 3 2 = Some resid /\
    Forall2 Qeq resid [- 0.5; 1; - 0.5] /\
    coint_inputs y3 x3 3 2 = [[1; 3; 2]; [1; 2; 3]] /\
    forall input, In input (coint_inputs y3 x3 3 2) ->
      ~ Forall2 Qeq input resid.
Proof.
  eexists. split; [vm_compute; reflexivity |].
  split; [repeat constructor |]. split; [reflexivity |].
  intros input [<- | [<- | []]] Hall;
    apply Forall2_cons in Hall as [Hhead _]; discriminate Hhead.
Qed.

(** A window on which both steps return. *)
Lemma engle_granger_test_on_window_slices_witness :
  exists df alpha beta spread,
    @EngleGranger.compute_engle_granger sample_libraries y5 x5 4
      = Returns df /\
    engle_granger_row df 3
    = Some [Float (Some beta); Float (Some alpha); Float (Some spread);
            Float (Some (- 3.6)); Float (Some 0.02);
            Float (Some (- 3.9)); Float (Some (- 3.3));
            Float (Some (- 3.0)); Int 1].
Proof.
  edestruct (@engle_granger_test_on_window_slices sample_libraries
               y5 x5 4 3) as (_ & df & Hrun & Hrow).
  - lia.
  - simpl. lia.
  - vm_compute. reflexivity.
  - reflexivity.
  - reflexivity.
  - reflexivity.
  - reflexivity.
  - vm_compute. reflexivity.
  - exists df. eexists _, _, _. split; [exact Hrun |]. exact Hrow.
Defined.

(** A window with [lr1 = [20; 2]] against the 5% values 15.4943 and 3.8415:
    rank 1. *)
Lemma johansen_rank_decision_witness :
  exists df,
    @Johansen.compute_johansen sample_libraries data5 4 0 1 = Returns df /\
    Johansen.ranks df !! 3%nat = Some (Some (inject_Z 1)).
Proof.
  edestruct (@johansen_rank_decision sample_libraries data5 4 0 1 3)
    as (df & rank & Hrun & Hrank & _ & Hone & _ & _).
  - lia.
  - simpl. lia.
  - vm_compute. reflexivity.
  - simpl. lia.
  - simpl. lia.
  - reflexivity.
  - reflexivity.
  - reflexivity.
  - reflexivity.
  - reflexivity.
  - exists df. split; [exact Hrun |].
    assert (rank = 1%Z) as <-
      by (apply Hone; [reflexivity | unfold Qle; simpl; lia]).
    exact Hrank.
Defined.

(** A warm-up index and two windows whose test raises: the flag is 0. *)
Lemma flags_never_sentinel_witness :
  (exists df,
     @HalfLife.compute_half_life_ar1 sample_libraries series5 3 = Returns df /\
     HalfLife.is_mean_reverting df !! 1%nat = Some 0%Z) /\
  (exists df,
     @RollingADF.compute_rolling_adf sample_libraries series5 3 1 "c"
       = Returns df /\
     RollingADF.is_stationary df !! 2%nat = Some 0%Z) /\
  (exists df,
     @EngleGranger.compute_engle_granger sample_libraries y3 x3 3
       = Returns df /\
     EngleGranger.is_cointegrated df !! 2%nat = Some 0%Z).
Proof.
  destruct (@flags_never_sentinel sample_libraries) as (Hh & Ha & He).
  split; [| split].
  - destruct (Hh series5 3%nat ltac:(lia)) as (df & Hrun & _ & _ & Hwarm).
    exists df. split; [exact Hrun |]. apply Hwarm; simpl; lia.
  - destruct (Ha series5 3%nat 1%nat "c"%string ltac:(lia))
      as (df & Hrun & _ & _ & _ & Hfail & _).
    exists df. split; [exact Hrun |].
    apply (Hfail 2%nat BackendError); [simpl; lia | vm_compute; reflexivity].
  - destruct (He y3 x3 3%nat ltac:(lia))
      as (df & Hrun & _ & _ & _ & Hfail & _).
    exists df. split; [exact Hrun |].
    apply (Hfail 2%nat BackendError); [simpl; lia |].
    right. vm_compute. reflexivity.
Defined.

(** * Further properties of the filter *)

(** The output of [frac_diff_manual] at a computed index: for every [t]
    with [len(weights) - 1 <= t < len(series)] the stored entry is the sum
    the inner loop accumulates from 0.0 in the order [k = 0, 1, ...], one
    term [weights[k] * series[t - k]] for every kept weight.  Each weight
    and each observation read exists, and [k <= t]: no subscript [t - k]
    is negative, so no observation is read from the end of the series. *)
Theorem frac_diff_computed_value (series : list Q) (d threshold : Q) (t : nat) :
  let weights := FracDiff.compute_ffd_weights d threshold FracDiff.MAX_SIZE in
  (length weights - 1 <= t < length series)%nat ->
  exists result,
    FracDiff.frac_diff_manual series d threshold = Returns result /\
    result !! t
    = Some (Some (foldl (fun sum_val k =>
                           sum_val + nth k weights 0 * nth (t - k) series 0)
                        0 (seq 0 (length weights)))) /\
    forall k, (k < length weights)%nat ->
      (k <= t)%nat /\
      exists wk x, weights !! k = Some wk /\ series !! (t - k)%nat = Some x /\
                   nth k weights 0 = wk /\ nth (t - k) series 0 = x.
Proof.
  intros weights Ht.
  destruct (frac_diff_columns series d threshold)
    as (result & Hrun & _ & _ & Hval & _).
  exists result. split; [exact Hrun |]. split.
  - rewrite (Hval t Ht). unfold conv_value, range.
    by rewrite Nat.sub_0_r.
  - intros k Hk. fold weights in Ht. split; [lia |].
    destruct (lookup_lt_is_Some_2 weights k Hk) as [wk Hwk].
    destruct (lookup_lt_is_Some_2 series (t - k)) as [x Hx]; [lia |].
    exists wk, x. split; [exact Hwk |]. split; [exact Hx |].
    split; by apply nth_lookup_Some.
Qed.

(** On [series5] with [d = 1] and index 2. *)
Lemma frac_diff_computed_value_witness :
  exists result,
    FracDiff.frac_diff_manual series5 1 1e-5 = Returns result /\
    exists v, result !! 2%nat = Some (Some v).
Proof.
  destruct (frac_diff_computed_value series5 1 1e-5 2)
    as (result & Hrun & Hv & _).
  - vm_compute. lia.
  - exists result. split; [exact Hrun |]. eexists. exact Hv.
Defined.

Lemma ffd_weights_d1 (d threshold : Q) :
  d == 1 -> 0 < threshold -> threshold <= 1 ->
  FracDiff.compute_ffd_weights d threshold FracDiff.MAX_SIZE
    = [1; FracDiff.next_weight d 1 1]
  /\ FracDiff.next_weight d 1 1 == - 1.
Proof.
  intros Hd Hpos Hle.
  assert (FracDiff.next_weight d 1 1 == - 1) as Hw1.
  { unfold FracDiff.next_weight, of_nat. rewrite Hd. reflexivity. }
  split; [| exact Hw1].
  unfold FracDiff.compute_ffd_weights, range.
  assert (exists m, (FracDiff.MAX_SIZE - 1 = S (S m))%nat) as [m ->].
  { exists (Z.to_nat 9997). rewrite MAX_SIZE_val. lia. }
  change (seq 1 (S (S m))) with (1%nat :: 2%nat :: seq 3 m).
  cbn [FracDiff.ffd_loop].
  assert (Qltb (Qabs (FracDiff.next_weight d 1 1)) threshold = false) as ->.
  { apply Qltb_false. rewrite Hw1. exact Hle. }
  assert (FracDiff.next_weight d 2 (FracDiff.next_weight d 1 1) == 0) as Hw2.
  { unfold FracDiff.next_weight at 1. rewrite Hw1. unfold of_nat.
    rewrite Hd. reflexivity. }
  assert (Qltb (Qabs (FracDiff.next_weight d 2 (FracDiff.next_weight d 1 1)))
               threshold = true) as ->.
  { apply Qltb_true. rewrite Hw2. exact Hpos. }
  reflexivity.
Qed.

(** With [d = 1] and a threshold in (0, 1] the weights are [[1; -1]] and the
    filter is the first difference: the first entry is the sentinel and
    every later entry is [series[t] - series[t - 1]]. *)
Theorem frac_diff_first_difference (series : list Q) (d threshold : Q) :
  d == 1 -> 0 < threshold -> threshold <= 1 ->
  exists w1 result,
    FracDiff.compute_ffd_weights d threshold FracDiff.MAX_SIZE = [1; w1] /\
    w1 == - 1 /\
    FracDiff.frac_diff_manual series d threshold = Returns result /\
    length result = length series /\
    (forall x0, series !! 0%nat = Some x0 -> result !! 0%nat = Some nan) /\
    (forall t xt xp,
       series !! S t = Some xt -> series !! t = Some xp ->
       exists v, result !! S t = Some (Some v) /\ v == xt - xp).
Proof.
  intros Hd Hpos Hle.
  destruct (ffd_weights_d1 d threshold Hd Hpos Hle) as [Hw Hw1].
  destruct (frac_diff_columns series d threshold)
    as (result & Hrun & Hlen & Hwarm & Hval & _).
  rewrite Hw in Hwarm, Hval. simpl length in Hwarm, Hval.
  exists (FracDiff.next_weight d 1 1), result.
  split; [exact Hw |]. split; [exact Hw1 |]. split; [exact Hrun |].
  split; [exact Hlen |]. split.
  - intros x0 Hx0. apply lookup_lt_Some in Hx0. apply Hwarm; lia.
  - intros t xt xp Hxt Hxp. eexists. split.
    + apply Hval. apply lookup_lt_Some in Hxt. lia.
    + unfold conv_value, range. simpl.
      replace (t - 0)%nat with t by lia.
      rewrite (nth_lookup_Some _ _ 0 _ Hxt), (nth_lookup_Some _ _ 0 _ Hxp).
      rewrite Hw1. ring.
Qed.

(** The first difference of [series5], at index 3: [3.5 - 3]. *)
Lemma frac_diff_first_difference_witness :
  exists result v,
    FracDiff.frac_diff_manual series5 1 1e-5 = Returns result /\
    result !! 3%nat = Some (Some v) /\ v == 0.5.
Proof.
  destruct (frac_diff_first_difference series5 1 1e-5)
    as (w1 & result & _ & _ & Hrun & _ & _ & Hdiff);
    [reflexivity | reflexivity | discriminate |].
  destruct (Hdiff 2%nat 3.5 3) as (v & Hv & Heq); [reflexivity.. |].
  exists result, v. split; [exact Hrun |]. split; [exact Hv |].
  rewrite Heq. reflexivity.
Defined.

(** ** Decay of the weights for [0 < d < 1] *)








(** ** The filter is causal *)

Lemma foldl_ext_elem {A B} (f g : A -> B -> A) (l : list B) : forall acc,
  (forall a k, k ∈ l -> f a k = g a k) ->
  foldl f acc l = foldl g acc l.
Proof.
  induction l as [|k l IH]; intros acc Hext; [reflexivity |].
  simpl. rewrite (Hext acc k) by (by left).
  apply IH. intros a j Hj. apply Hext. by right.
Qed.

Lemma conv_value_app (weights series future : list Q) (t : nat) :
  (t < length series)%nat ->
  conv_value weights (series ++ future) t = conv_value weights series t.
Proof.
  intros Ht. unfold conv_value. apply foldl_ext_elem.
  intros acc k _. rewrite app_nth1 by lia. reflexivity.
Qed.

(** Appending later observations to the series does not change any entry
    already produced: the filter has no look-ahead. *)
Theorem frac_diff_no_look_ahead (series future : list Q) (d threshold : Q) :
  exists result result',
    FracDiff.frac_diff_manual series d threshold = Returns result /\
    FracDiff.frac_diff_manual (series ++ future) d threshold = Returns result' /\
    take (length series) result' = result.
Proof.
  destruct (frac_diff_columns series d threshold)
    as (result & Hrun & Hlen & Hwarm & Hval & _).
  destruct (frac_diff_columns (series ++ future) d threshold)
    as (result' & Hrun' & Hlen' & Hwarm' & Hval' & _).
  exists result, result'. split; [exact Hrun |]. split; [exact Hrun' |].
  rewrite length_app in Hlen', Hwarm', Hval'.
  apply list_eq. intros t. rewrite lookup_take.
  destruct (decide (t < length series)%nat) as [Ht | Ht].
  - set (L := length (FracDiff.compute_ffd_weights d threshold
                        FracDiff.MAX_SIZE)) in *.
    destruct (decide (t < L - 1)%nat) as [Hw | Hc].
    + rewrite Hwarm by lia. rewrite Hwarm' by lia. reflexivity.
    + rewrite Hval by lia. rewrite Hval' by lia.
      by rewrite conv_value_app.
  - symmetry. apply lookup_ge_None_2. lia.
Qed.

(** * Further properties of the rolling operations *)

(** ** No look-ahead *)

Lemma slice_app_l {A} (l l' : list A) (a b : nat) :
  (b <= length l)%nat -> slice (l ++ l') a b = slice l a b.
Proof.
  intros Hb. unfold slice.
  destruct (decide (a <= length l)%nat) as [Ha | Ha].
  - rewrite drop_app, take_app_le by (rewrite length_drop; lia). reflexivity.
  - replace (b - a)%nat with 0%nat by lia. reflexivity.
Qed.

Section LookAhead.
Context `{Libraries}.

Lemma window_data_app (series future : list Q) (window t : nat) :
  (t < length series)%nat ->
  window_data (series ++ future) window t = window_data series window t.
Proof. intros Ht. unfold window_data. apply slice_app_l. lia. Qed.

Lemma half_life_summaries_app (series future : list Q) (window t : nat) :
  (t < length series)%nat ->
  half_life_at (series ++ future) window t = half_life_at series window t /\
  phi_at (series ++ future) window t = phi_at series window t /\
  flag_at (series ++ future) window t = flag_at series window t.
Proof.
  intros Ht. unfold half_life_at, flag_at, phi_at, y_t, y_lag.
  rewrite (window_data_app series future window t Ht). done.
Qed.

Lemma adf_answer_app (series future : list Q) (window maxlag : nat)
  (regression : string) (t : nat) :
  (t < length series)%nat ->
  adf_answer (series ++ future) window maxlag regression t
  = adf_answer series window maxlag regression t.
Proof.
  intros Ht. unfold adf_answer, RollingADF.request.
  rewrite slice_app_l by lia. reflexivity.
Qed.

Lemma eg_summaries_app (y x fy fx : list Q) (window t : nat) :
  (t < length y)%nat -> (length y <= length x)%nat ->
  eg_alpha_beta (y ++ fy) (x ++ fx) window t = eg_alpha_beta y x window t /\
  eg_spread (y ++ fy) (x ++ fx) window t = eg_spread y x window t /\
  eg_test (y ++ fy) (x ++ fx) window t = eg_test y x window t.
Proof.
  intros Ht Hx.
  assert (eg_alpha_beta (y ++ fy) (x ++ fx) window t
          = eg_alpha_beta y x window t) as Hab.
  { unfold eg_alpha_beta, EngleGranger.ols_request, EngleGranger.y_win,
      EngleGranger.x_win.
    rewrite !slice_app_l by lia. reflexivity. }
  assert (eg_spread (y ++ fy) (x ++ fx) window t = eg_spread y x window t)
    as Hsp.
  { unfold eg_spread. rewrite Hab, !lookup_app_l by lia. reflexivity. }
  split; [exact Hab |]. split; [exact Hsp |].
  unfold eg_test, EngleGranger.coint_request, EngleGranger.y_win,
    EngleGranger.x_win.
  rewrite Hsp, !slice_app_l by lia. reflexivity.
Qed.

Lemma joh_answer_app (data : Johansen.ndarray2) (future : list (list Q))
  (window : nat) (det_order : Z) (k_ar_diff t : nat) :
  (t < length (Johansen.rows data))%nat ->
  joh_answer {| Johansen.rows := Johansen.rows data ++ future;
                Johansen.shape1 := Johansen.shape1 data |}
             window det_order k_ar_diff t
  = joh_answer data window det_order k_ar_diff t.
Proof.
  intros Ht. unfold joh_answer, Johansen.request. simpl.
  rewrite slice_app_l by lia. reflexivity.
Qed.

End LookAhead.

(** Appending later observations to the series leaves every row already
    produced by [compute_half_life_ar1] unchanged: the estimate at [t] uses
    the observations up to [t] only. *)
Theorem half_life_no_look_ahead `{Libraries}
  (series future : list Q) (window t : nat) :
  (1 <= window)%nat -> (t < length series)%nat ->
  exists df df',
    HalfLife.compute_half_life_ar1 series window = Returns df /\
    HalfLife.compute_half_life_ar1 (series ++ future) window = Returns df' /\
    half_life_row df' t = half_life_row df t.
Proof.
  intros _ Ht.
  destruct (half_life_columns series window) as (df & Hrun & _ & Hw & Hr & _).
  destruct (half_life_columns (series ++ future) window)
    as (df' & Hrun' & _ & Hw' & Hr' & _).
  rewrite length_app in Hw', Hr'.
  exists df, df'. split; [exact Hrun |]. split; [exact Hrun' |].
  destruct (decide (t < window - 1)%nat) as [Hwarm | Hc].
  - rewrite Hw by lia. rewrite Hw' by lia. reflexivity.
  - rewrite Hr by lia. rewrite Hr' by lia.
    destruct (half_life_summaries_app series future window t Ht)
      as (-> & -> & ->).
    reflexivity.
Qed.

(** The row at index 3 of [series5] is the same when two observations are
    appended. *)
Lemma half_life_no_look_ahead_witness :
  exists df df',
    @HalfLife.compute_half_life_ar1 sample_libraries series5 3 = Returns df /\
    @HalfLife.compute_half_life_ar1 sample_libraries (series5 ++ [4; 2]) 3
      = Returns df' /\
    half_life_row df' 3 = half_life_row df 3.
Proof.
  apply (@half_life_no_look_ahead sample_libraries series5 [4; 2] 3 3).
  - lia.
  - simpl. lia.
Defined.

(** Appending later observations leaves every row already produced by the
    rolling ADF, Engle-Granger (with [x] at least as long as [y]) and
    Johansen loops unchanged: the collaborators are called on the same
    windows and their answers fill the same rows. *)
Theorem rolling_tests_no_look_ahead `{Libraries} (window t : nat) :
  (1 <= window)%nat ->
  (forall (series future : list Q) (maxlag : nat) (regression : string),
     (t < length series)%nat ->
     exists df df',
       RollingADF.compute_rolling_adf series window maxlag regression
         = Returns df /\
       RollingADF.compute_rolling_adf (series ++ future) window maxlag
         regression = Returns df' /\
       adf_row df' t = adf_row df t) /\
  (forall y x fy fx : list Q,
     (t < length y)%nat -> (length y <= length x)%nat ->
     exists df df',
       EngleGranger.compute_engle_granger y x window = Returns df /\
       EngleGranger.compute_engle_granger (y ++ fy) (x ++ fx) window
         = Returns df' /\
       engle_granger_row df' t = engle_granger_row df t) /\
  (forall (data : Johansen.ndarray2) (future : list (list Q))
          (det_order : Z) (k_ar_diff : nat),
     (t < length (Johansen.rows data))%nat ->
     exists df df',
       Johansen.compute_johansen data window det_order k_ar_diff
         = Returns df /\
       Johansen.compute_johansen
         {| Johansen.rows := Johansen.rows data ++ future;
            Johansen.shape1 := Johansen.shape1 data |}
         window det_order k_ar_diff = Returns df' /\
       johansen_row df' t = johansen_row df t).
Proof.
  intros _. split; [| split].
  - intros series future maxlag regression Ht.
    destruct (adf_columns series window maxlag regression)
      as (df & Hrun & _ & Hw & Hr & _).
    destruct (adf_columns (series ++ future) window maxlag regression)
      as (df' & Hrun' & _ & Hw' & Hr' & _).
    rewrite length_app in Hw', Hr'.
    exists df, df'. split; [exact Hrun |]. split; [exact Hrun' |].
    destruct (decide (t < window - 1)%nat) as [Hwarm | Hc].
    + rewrite Hw by lia. rewrite Hw' by lia. reflexivity.
    + rewrite Hr by lia. rewrite Hr' by lia.
      by rewrite adf_answer_app.
  - intros y x fy fx Ht Hx.
    destruct (engle_granger_columns y x window)
      as (df & Hrun & _ & Hw & Hr & _).
    destruct (engle_granger_columns (y ++ fy) (x ++ fx) window)
      as (df' & Hrun' & _ & Hw' & Hr' & _).
    rewrite length_app in Hw', Hr'.
    exists df, df'. split; [exact Hrun |]. split; [exact Hrun' |].
    destruct (decide (t < window - 1)%nat) as [Hwarm | Hc].
    + rewrite Hw by lia. rewrite Hw' by lia. reflexivity.
    + rewrite Hr by lia. rewrite Hr' by lia.
      destruct (eg_summaries_app y x fy fx window t Ht Hx) as (-> & -> & ->).
      reflexivity.
  - intros data future det_order k_ar_diff Ht.
    destruct (johansen_columns data window det_order k_ar_diff)
      as (df & Hrun & _ & Hw & Hr & _).
    destruct (johansen_columns
                {| Johansen.rows := Johansen.rows data ++ future;
                   Johansen.shape1 := Johansen.shape1 data |}
                window det_order k_ar_diff)
      as (df' & Hrun' & _ & Hw' & Hr' & _).
    simpl Johansen.rows in Hw', Hr'. rewrite length_app in Hw', Hr'.
    exists df, df'. split; [exact Hrun |]. split; [exact Hrun' |].
    destruct (decide (t < window - 1)%nat) as [Hwarm | Hc].
    + rewrite Hw by lia. rewrite Hw' by lia. reflexivity.
    + rewrite Hr by lia. rewrite Hr' by lia.
      unfold joh_rank, joh_m1, joh_m0, joh_t1, joh_t0, joh_e1, joh_e0.
      rewrite (joh_answer_app data future window det_order k_ar_diff t Ht).
      reflexivity.
Qed.

(** Row 3 of the rolling ADF on [series5], and of Engle-Granger on
    [y5], [x5], with later observations appended. *)
Lemma rolling_tests_no_look_ahead_witness :
  (exists df df',
     @RollingADF.compute_rolling_adf sample_libraries series5 4 1 "c"
       = Returns df /\
     @RollingADF.compute_rolling_adf sample_libraries (series5 ++ [4]) 4 1 "c"
       = Returns df' /\
     adf_row df' 3 = adf_row df 3) /\
  (exists df df',
     @EngleGranger.compute_engle_granger sample_libraries y5 x5 4
       = Returns df /\
     @EngleGranger.compute_engle_granger sample_libraries
        (y5 ++ [6]) (x5 ++ [6]) 4 = Returns df' /\
     engle_granger_row df' 3 = engle_granger_row df 3).
Proof.
  destruct (@rolling_tests_no_look_ahead sample_libraries 4 3 ltac:(lia))
    as (Hadf & Heg & _).
  split.
  - apply (Hadf series5 [4] 1%nat "c"%string). simpl. lia.
  - apply (Heg y5 x5 [6] [6]); simpl; lia.
Defined.

(** ** Window slices *)

Lemma lookup_slice {A} (l : list A) (a b i : nat) :
  slice l a b !! i = if decide (i < b - a)%nat then l !! (a + i)%nat else None.
Proof.
  unfold slice. rewrite lookup_take.
  destruct (decide _); [apply lookup_drop | reflexivity].
Qed.

(** * Consistency of the returned columns *)

Ltac row_inv Hrow t :=
  repeat match type of Hrow with
         | context [mbind _ (?l !! t)] =>
             destruct (l !! t); cbn [mbind option_bind] in Hrow;
             [| discriminate Hrow]
         end;
  injection Hrow as <-; repeat split; congruence.

Lemma adf_row_inv (df : RollingADF.frame) (t : nat) st pv c1 c5 c10 f :
  adf_row df t
  = Some [Float st; Float pv; Float c1; Float c5; Float c10; Int f] ->
  RollingADF.adf_stats df !! t = Some st
  /\ RollingADF.p_values df !! t = Some pv
  /\ RollingADF.critical_1pct df !! t = Some c1
  /\ RollingADF.critical_5pct df !! t = Some c5
  /\ RollingADF.critical_10pct df !! t = Some c10
  /\ RollingADF.is_stationary df !! t = Some f.
Proof. intros Hrow. unfold adf_row in Hrow. row_inv Hrow t. Qed.

Lemma engle_granger_row_inv (df : EngleGranger.frame) (t : nat)
  hr ic sp st pv c1 c5 c10 f :
  engle_granger_row df t
  = Some [Float hr; Float ic; Float sp; Float st; Float pv; Float c1;
          Float c5; Float c10; Int f] ->
  EngleGranger.hedge_ratios df !! t = Some hr
  /\ EngleGranger.intercepts df !! t = Some ic
  /\ EngleGranger.spreads df !! t = Some sp
  /\ EngleGranger.adf_stats df !! t = Some st
  /\ EngleGranger.p_values df !! t = Some pv
  /\ EngleGranger.critical_1pct df !! t = Some c1
  /\ EngleGranger.critical_5pct df !! t = Some c5
  /\ EngleGranger.critical_10pct df !! t = Some c10
  /\ EngleGranger.is_cointegrated df !! t = Some f.
Proof. intros Hrow. unfold engle_granger_row in Hrow. row_inv Hrow t. Qed.

Lemma johansen_row_inv (df : Johansen.frame) (t : nat) rk t0 t1 m0 m1 e0 e1 :
  johansen_row df t
  = Some [Float rk; Float t0; Float t1; Float m0; Float m1; Float e0;
          Float e1] ->
  Johansen.ranks df !! t = Some rk
  /\ Johansen.trace_stat_0 df !! t = Some t0
  /\ Johansen.trace_stat_1 df !! t = Some t1
  /\ Johansen.max_stat_0 df !! t = Some m0
  /\ Johansen.max_stat_1 df !! t = Some m1
  /\ Johansen.eigval_0 df !! t = Some e0
  /\ Johansen.eigval_1 df !! t = Some e1.
Proof. intros Hrow. unfold johansen_row in Hrow. row_inv Hrow t. Qed.

(** An exception never leaves a row of the rolling ADF frame half
    written.  At every index the row is either the whole answer of
    [adfuller] on that index's window (its statistic, p-value and three
    critical values as returned, and the flag that tells whether the
    p-value is below 0.05), or, in the warm-up and where [adfuller]
    raised, entirely untouched: five sentinels and flag 0. *)
Theorem adf_row_is_whole_answer_or_blank `{Libraries}
  (series : list Q) (window maxlag : nat) (regression : string) :
  (1 <= window)%nat ->
  exists df,
    RollingADF.compute_rolling_adf series window maxlag regression
      = Returns df /\
    forall t, (t < length series)%nat ->
      (exists r,
         (window - 1 <= t)%nat /\
         adfuller (RollingADF.request series window maxlag regression t)
           = Returns r /\
         adf_row df t
         = Some [Float (Some (adf_statistic r)); Float (Some (adf_pvalue r));
                 Float (Some (adf_crit_1pct r)); Float (Some (adf_crit_5pct r));
                 Float (Some (adf_crit_10pct r));
                 Int (if Qltb (adf_pvalue r) 0.05 then 1 else 0)])
      \/ (((t < window - 1)%nat
           \/ exists e,
                adfuller (RollingADF.request series window maxlag regression t)
                  = Raises e) /\
          adf_row df t
          = Some [sentinel; sentinel; sentinel; sentinel; sentinel; Int 0]).
Proof.
  intros _.
  destruct (adf_columns series window maxlag regression)
    as (df & Hrun & _ & Hwarm & Hin & _).
  exists df. split; [exact Hrun |]. intros t Ht.
  destruct (decide (t < window - 1)%nat) as [Hw | Hw].
  - right. split; [by left | by apply Hwarm].
  - rewrite Hin by lia. unfold adf_answer, on_return.
    destruct (adfuller (RollingADF.request series window maxlag regression t))
      as [r | e].
    + left. exists r. split; [lia |]. split; reflexivity.
    + right. split; [right; by exists e | reflexivity].
Qed.

(** [series5] with window 4 and the sample collaborators. *)
Lemma adf_row_is_whole_answer_or_blank_witness :
  exists df,
    @RollingADF.compute_rolling_adf sample_libraries series5 4 1 "c"
      = Returns df /\
    forall t, (t < length series5)%nat ->
      (exists r,
         (4 - 1 <= t)%nat /\
         @adfuller sample_libraries
           (RollingADF.request series5 4 1 "c" t)
           = Returns r /\
         adf_row df t
         = Some [Float (Some (adf_statistic r)); Float (Some (adf_pvalue r));
                 Float (Some (adf_crit_1pct r)); Float (Some (adf_crit_5pct r));
                 Float (Some (adf_crit_10pct r));
                 Int (if Qltb (adf_pvalue r) 0.05 then 1 else 0)])
      \/ (((t < 4 - 1)%nat
           \/ exists e,
                @adfuller sample_libraries
                  (RollingADF.request series5 4 1 "c" t)
                  = Raises e) /\
          adf_row df t
          = Some [sentinel; sentinel; sentinel; sentinel; sentinel; Int 0]).
Proof.
  apply (@adf_row_is_whole_answer_or_blank sample_libraries series5 4 1 "c").
  lia.
Defined.

(** The columns of the Engle-Granger frame agree with each other at every
    index.  A stored spread is [y[t] - intercept - hedge_ratio * x[t]] of
    the stored intercept and hedge ratio (so there is none where [x] is
    shorter than [y]); a stored p-value comes with the spread, the
    statistic and the three critical values, and with the flag that tells
    whether it is below 0.05; the flag is 1 only beside such a p-value. *)
Theorem engle_granger_columns_consistent `{Libraries}
  (y x : list Q) (window : nat) :
  (1 <= window)%nat ->
  exists df,
    EngleGranger.compute_engle_granger y x window = Returns df /\
    forall t,
      (forall s, EngleGranger.spreads df !! t = Some (Some s) ->
         exists a b yt xt,
           EngleGranger.intercepts df !! t = Some (Some a) /\
           EngleGranger.hedge_ratios df !! t = Some (Some b) /\
           y !! t = Some yt /\ x !! t = Some xt /\
           s = yt - a - b * xt) /\
      (forall p, EngleGranger.p_values df !! t = Some (Some p) ->
         exists s st c1 c5 c10,
           EngleGranger.spreads df !! t = Some (Some s) /\
           EngleGranger.adf_stats df !! t = Some (Some st) /\
           EngleGranger.critical_1pct df !! t = Some (Some c1) /\
           EngleGranger.critical_5pct df !! t = Some (Some c5) /\
           EngleGranger.critical_10pct df !! t = Some (Some c10) /\
           EngleGranger.is_cointegrated df !! t
           = Some (if Qltb p 0.05 then 1%Z else 0%Z)) /\
      (EngleGranger.is_cointegrated df !! t = Some 1%Z ->
         exists p, EngleGranger.p_values df !! t = Some (Some p) /\ p < 0.05).
Proof.
  intros _.
  destruct (engle_granger_columns y x window)
    as (df & Hrun & Hwf & Hwarm & Hin & _).
  exists df. split; [exact Hrun |]. intros t.
  destruct (decide (t < length y)%nat) as [Ht | Ht].
  2: { destruct Hwf as (_ & _ & Hs & _ & Hp & _ & _ & _ & Hf).
       split; [intros ? Hl | split; [intros ? Hl | intros Hl]];
         apply lookup_lt_Some in Hl; unfold cell in *; lia. }
  destruct (decide (t < window - 1)%nat) as [Hw | Hw].
  { specialize (Hwarm t Hw Ht). apply engle_granger_row_inv in Hwarm.
    destruct Hwarm as (_ & _ & Es & _ & Ep & _ & _ & _ & Ef).
    unfold cell in *. rewrite Es, Ep, Ef.
    repeat split; intros; discriminate. }
  specialize (Hin t ltac:(lia)). apply engle_granger_row_inv in Hin.
  destruct Hin as (Eh & Ei & Es & Ea & Ep & E1 & E5 & E10 & Ef).
  unfold cell in *. rewrite Eh, Ei, Es, Ea, Ep, E1, E5, E10, Ef.
  clear Eh Ei Es Ea Ep E1 E5 E10 Ef.
  unfold eg_test, eg_spread.
  destruct (eg_alpha_beta y x window t) as [[a b] |];
    cbn [mbind option_bind fmap option_fmap option_map default fst snd];
    [| repeat split; intros; discriminate].
  destruct (y !! t) as [yt |];
    cbn [mbind option_bind fmap option_fmap option_map default];
    [| repeat split; intros; discriminate].
  destruct (x !! t) as [xt |];
    cbn [mbind option_bind fmap option_fmap option_map default];
    [| repeat split; intros; discriminate].
  split.
  { intros s [= <-]. exists a, b, yt, xt. done. }
  destruct (on_return _) as [r |];
    cbn [fmap option_fmap option_map default];
    [| repeat split; intros; discriminate].
  split.
  - intros p [= <-]. eexists _, _, _, _, _. repeat split.
  - intros [= Hflag]. exists (coint_pvalue r). split; [reflexivity |].
    unfold eg_flag in Hflag.
    destruct (Qltb (coint_pvalue r) 0.05) eqn:Hp; [| discriminate].
    by apply Qltb_true.
Qed.

(** [y3] against [x3] with window 3 and the sample collaborators. *)
Lemma engle_granger_columns_consistent_witness :
  exists df,
    @EngleGranger.compute_engle_granger sample_libraries y3 x3 3
      = Returns df /\
    forall t,
      (forall s, EngleGranger.spreads df !! t = Some (Some s) ->
         exists a b yt xt,
           EngleGranger.intercepts df !! t = Some (Some a) /\
           EngleGranger.hedge_ratios df !! t = Some (Some b) /\
           y3 !! t = Some yt /\ x3 !! t = Some xt /\
           s = yt - a - b * xt) /\
      (forall p, EngleGranger.p_values df !! t = Some (Some p) ->
         exists s st c1 c5 c10,
           EngleGranger.spreads df !! t = Some (Some s) /\
           EngleGranger.adf_stats df !! t = Some (Some st) /\
           EngleGranger.critical_1pct df !! t = Some (Some c1) /\
           EngleGranger.critical_5pct df !! t = Some (Some c5) /\
           EngleGranger.critical_10pct df !! t = Some (Some c10) /\
           EngleGranger.is_cointegrated df !! t
           = Some (if Qltb p 0.05 then 1%Z else 0%Z)) /\
      (EngleGranger.is_cointegrated df !! t = Some 1%Z ->
         exists p, EngleGranger.p_values df !! t = Some (Some p) /\ p < 0.05).
Proof.
  apply (@engle_granger_columns_consistent sample_libraries y3 x3 3). lia.
Defined.

Lemma rank_value_range (result : johansen_result) (z : Z) :
  rank_value result = Some z -> z = 0%Z \/ z = 1%Z \/ z = 2%Z.
Proof.
  unfold rank_value. intros Hz.
  destruct (lr1 result !! 0%nat); cbn [mbind option_bind] in Hz; [| done].
  destruct (cvt result !! 0%nat ≫= _); cbn [mbind option_bind] in Hz; [| done].
  destruct (Qltb _ _); [| injection Hz as <-; auto].
  destruct (lr1 result !! 1%nat); cbn [mbind option_bind] in Hz; [| done].
  destruct (cvt result !! 1%nat ≫= _); cbn [mbind option_bind] in Hz; [| done].
  destruct (Qltb _ _); injection Hz as <-; auto.
Qed.

(** A rank is stored only by a [try] block that ran to its end.  Where
    the [rank] column holds a number, the index is a computed one, the
    number is 0, 1 or 2, [coint_johansen] answered on that index's window
    with at least two eigenvalues, two trace statistics and two max
    statistics, and the six statistic columns of the row hold exactly
    those entries of the answer. *)
Theorem johansen_rank_needs_complete_answer `{Libraries}
  (data : Johansen.ndarray2) (window : nat) (det_order : Z) (k_ar_diff : nat) :
  (1 <= window)%nat ->
  exists df,
    Johansen.compute_johansen data window det_order k_ar_diff = Returns df /\
    forall t r, Johansen.ranks df !! t = Some (Some r) ->
      (window - 1 <= t < length (Johansen.rows data))%nat /\
      (r = 0 \/ r = 1 \/ r = 2) /\
      exists result e0 e1 l0 l1 m0 m1,
        coint_johansen (Johansen.request data window det_order k_ar_diff t)
          = Returns result /\
        eig result !! 0%nat = Some e0 /\ eig result !! 1%nat = Some e1 /\
        lr1 result !! 0%nat = Some l0 /\ lr1 result !! 1%nat = Some l1 /\
        lr2 result !! 0%nat = Some m0 /\ lr2 result !! 1%nat = Some m1 /\
        Johansen.eigval_0 df !! t = Some (Some e0) /\
        Johansen.eigval_1 df !! t = Some (Some e1) /\
        Johansen.trace_stat_0 df !! t = Some (Some l0) /\
        Johansen.trace_stat_1 df !! t = Some (Some l1) /\
        Johansen.max_stat_0 df !! t = Some (Some m0) /\
        Johansen.max_stat_1 df !! t = Some (Some m1).
Proof.
  intros _.
  destruct (johansen_columns data window det_order k_ar_diff)
    as (df & Hrun & Hwf & Hwarm & Hin & _).
  exists df. split; [exact Hrun |]. intros t r Hr.
  assert (t < length (Johansen.rows data))%nat as Ht.
  { destruct Hwf as (Hlen & _). apply lookup_lt_Some in Hr.
    unfold cell in *. lia. }
  destruct (decide (t < window - 1)%nat) as [Hw | Hw].
  { specialize (Hwarm t Hw Ht). apply johansen_row_inv in Hwarm.
    destruct Hwarm as (Er & _). unfold cell in *. rewrite Er in Hr.
    discriminate Hr. }
  split; [lia |].
  specialize (Hin t ltac:(lia)). apply johansen_row_inv in Hin.
  destruct Hin as (Er & Et0 & Et1 & Em0 & Em1 & Ee0 & Ee1).
  unfold cell in *. rewrite Er in Hr. clear Er.
  unfold joh_rank, joh_m1, joh_m0, joh_t1, joh_t0, joh_e1, joh_e0,
    joh_answer, on_return in *.
  destruct (coint_johansen (Johansen.request data window det_order k_ar_diff t))
    as [result | e] eqn:Hret; cbn [mbind option_bind] in *;
    [| discriminate Hr].
  destruct (eig result !! 0%nat) as [e0 |] eqn:Ee0';
    cbn [mbind option_bind] in *; [| discriminate Hr].
  destruct (eig result !! 1%nat) as [e1 |] eqn:Ee1';
    cbn [mbind option_bind] in *; [| discriminate Hr].
  destruct (lr1 result !! 0%nat) as [l0 |] eqn:El0;
    cbn [mbind option_bind] in *; [| discriminate Hr].
  destruct (lr1 result !! 1%nat) as [l1 |] eqn:El1;
    cbn [mbind option_bind] in *; [| discriminate Hr].
  destruct (lr2 result !! 0%nat) as [m0 |] eqn:Em0';
    cbn [mbind option_bind] in *; [| discriminate Hr].
  destruct (lr2 result !! 1%nat) as [m1 |] eqn:Em1';
    cbn [mbind option_bind] in *; [| discriminate Hr].
  destruct (rank_value result) as [z |] eqn:Hz;
    cbn [fmap option_fmap option_map default] in *; [| discriminate Hr].
  injection Hr as <-. split.
  - destruct (rank_value_range result z Hz) as [-> | [-> | ->]]; auto.
  - exists result, e0, e1, l0, l1, m0, m1.
    repeat split; first [reflexivity | assumption].
Qed.

(** [data5] with window 4 and the sample collaborators. *)
Lemma johansen_rank_needs_complete_answer_witness :
  exists df,
    @Johansen.compute_johansen sample_libraries data5 4 0 1 = Returns df /\
    forall t r, Johansen.ranks df !! t = Some (Some r) ->
      (4 - 1 <= t < length (Johansen.rows data5))%nat /\
      (r = 0 \/ r = 1 \/ r = 2) /\
      exists result e0 e1 l0 l1 m0 m1,
        @coint_johansen sample_libraries (Johansen.request data5 4 0 1 t)
          = Returns result /\
        eig result !! 0%nat = Some e0 /\ eig result !! 1%nat = Some e1 /\
        lr1 result !! 0%nat = Some l0 /\ lr1 result !! 1%nat = Some l1 /\
        lr2 result !! 0%nat = Some m0 /\ lr2 result !! 1%nat = Some m1 /\
        Johansen.eigval_0 df !! t = Some (Some e0) /\
        Johansen.eigval_1 df !! t = Some (Some e1) /\
        Johansen.trace_stat_0 df !! t = Some (Some l0) /\
        Johansen.trace_stat_1 df !! t = Some (Some l1) /\
        Johansen.max_stat_0 df !! t = Some (Some m0) /\
        Johansen.max_stat_1 df !! t = Some (Some m1).
Proof.
  apply (@johansen_rank_needs_complete_answer sample_libraries data5 4 0 1).
  lia.
Defined.

(** * The rows of a window whose test answers *)

Lemma slice_window_eq {A} (l obs : list A) (window t : nat) :
  (1 <= window)%nat -> (window - 1 <= t < length l)%nat ->
  length obs = window ->
  (forall j, (j < window)%nat -> obs !! j = l !! (t + 1 - window + j)%nat) ->
  slice l (t + 1 - window) (t + 1) = obs.
Proof.
  intros Hw Ht Hlen Hobs. apply list_eq. intros j.
  rewrite lookup_slice. destruct (decide _) as [Hj | Hj].
  - symmetry. apply Hobs. lia.
  - symmetry. apply lookup_ge_None_2. lia.
Qed.

(** At a computed index the rolling ADF hands the collaborator exactly the
    [window] observations that end at that index, in order, with the
    caller's [maxlag] and [regression]; when it answers, the row holds the
    statistic, the p-value and the three critical values of the answer,
    and the flag is 1 exactly when the p-value is below 0.05. *)
Theorem rolling_adf_row_is_answer_on_window `{Libraries}
  (series obs : list Q) (window maxlag : nat) (regression : string)
  (t : nat) (r : adfuller_result) :
  (1 <= window)%nat -> (window - 1 <= t < length series)%nat ->
  length obs = window ->
  (forall j, (j < window)%nat ->
     obs !! j = series !! (t + 1 - window + j)%nat) ->
  adfuller {| adf_x := obs; adf_maxlag := maxlag;
              adf_regression := regression |} = Returns r ->
  exists df,
    RollingADF.compute_rolling_adf series window maxlag regression
      = Returns df /\
    adf_row df t
    = Some [Float (Some (adf_statistic r)); Float (Some (adf_pvalue r));
            Float (Some (adf_crit_1pct r)); Float (Some (adf_crit_5pct r));
            Float (Some (adf_crit_10pct r));
            Int (if Qltb (adf_pvalue r) 0.05 then 1 else 0)].
Proof.
  intros Hw Ht Hlen Hobs Hret.
  destruct (adf_columns series window maxlag regression)
    as (df & Hrun & _ & _ & Hin & _).
  exists df. split; [exact Hrun |]. rewrite (Hin t Ht).
  assert (adf_answer series window maxlag regression t = Some r) as ->.
  { unfold adf_answer, RollingADF.request.
    rewrite (slice_window_eq series obs window t Hw Ht Hlen Hobs), Hret.
    reflexivity. }
  reflexivity.
Qed.

(** [series5] at index 4 with window 4: the observations are
    [2; 3; 3.5; 3.75]. *)
Lemma rolling_adf_row_is_answer_on_window_witness :
  exists df,
    @RollingADF.compute_rolling_adf sample_libraries series5 4 1 "c"
      = Returns df /\
    adf_row df 4
    = Some [Float (Some (- 3.1)); Float (Some 0.03); Float (Some (- 3.5));
            Float (Some (- 2.9)); Float (Some (- 2.6)); Int 1].
Proof.
  apply (@rolling_adf_row_is_answer_on_window sample_libraries series5
           [2; 3; 3.5; 3.75] 4 1 "c" 4
           {| adf_statistic := - 3.1; adf_pvalue := 0.03;
              adf_crit_1pct := - 3.5; adf_crit_5pct := - 2.9;
              adf_crit_10pct := - 2.6 |}).
  - lia.
  - simpl. lia.
  - reflexivity.
  - intros [|[|[|[|j]]]] Hj; [reflexivity.. | lia].
  - reflexivity.
Defined.

(** At a computed index the Johansen operation hands the collaborator
    exactly the [window] rows of the data that end at that index, with the
    caller's [det_order] and [k_ar_diff]; when it answers with two
    eigenvalues, two trace and two max statistics, those six numbers are
    the row's statistic columns, whatever the rank decision does
    afterwards. *)
Theorem johansen_row_is_answer_on_window `{Libraries}
  (data : Johansen.ndarray2) (obs : list (list Q)) (window : nat)
  (det_order : Z) (k_ar_diff t : nat) (result : johansen_result)
  (e0 e1 l0 l1 m0 m1 : Q) :
  (1 <= window)%nat -> (window - 1 <= t < length (Johansen.rows data))%nat ->
  length obs = window ->
  (forall j, (j < window)%nat ->
     obs !! j = Johansen.rows data !! (t + 1 - window + j)%nat) ->
  coint_johansen {| joh_endog := obs; joh_det_order := det_order;
                    joh_k_ar_diff := k_ar_diff |} = Returns result ->
  eig result !! 0%nat = Some e0 -> eig result !! 1%nat = Some e1 ->
  lr1 result !! 0%nat = Some l0 -> lr1 result !! 1%nat = Some l1 ->
  lr2 result !! 0%nat = Some m0 -> lr2 result !! 1%nat = Some m1 ->
  exists df,
    Johansen.compute_johansen data window det_order k_ar_diff = Returns df /\
    Johansen.eigval_0 df !! t = Some (Some e0) /\
    Johansen.eigval_1 df !! t = Some (Some e1) /\
    Johansen.trace_stat_0 df !! t = Some (Some l0) /\
    Johansen.trace_stat_1 df !! t = Some (Some l1) /\
    Johansen.max_stat_0 df !! t = Some (Some m0) /\
    Johansen.max_stat_1 df !! t = Some (Some m1).
Proof.
  intros Hw Ht Hlen Hobs Hret He0 He1 Hl0 Hl1 Hm0 Hm1.
  destruct (johansen_columns data window det_order k_ar_diff)
    as (df & Hrun & _ & _ & Hin & _).
  exists df. split; [exact Hrun |].
  specialize (Hin t Ht). apply johansen_row_inv in Hin.
  destruct Hin as (_ & Et0 & Et1 & Em0 & Em1 & Ee0 & Ee1).
  assert (joh_answer data window det_order k_ar_diff t = Some result) as Ha.
  { unfold joh_answer, Johansen.request.
    rewrite (slice_window_eq (Johansen.rows data) obs window t Hw Ht Hlen Hobs).
    rewrite Hret. reflexivity. }
  assert (joh_e0 data window det_order k_ar_diff t = Some e0) as H0.
  { unfold joh_e0. rewrite Ha. exact He0. }
  assert (joh_e1 data window det_order k_ar_diff t = Some e1) as H1.
  { unfold joh_e1. rewrite H0, Ha. exact He1. }
  assert (joh_t0 data window det_order k_ar_diff t = Some l0) as H2.
  { unfold joh_t0. rewrite H1, Ha. exact Hl0. }
  assert (joh_t1 data window det_order k_ar_diff t = Some l1) as H3.
  { unfold joh_t1. rewrite H2, Ha. exact Hl1. }
  assert (joh_m0 data window det_order k_ar_diff t = Some m0) as H4.
  { unfold joh_m0. rewrite H3, Ha. exact Hm0. }
  assert (joh_m1 data window det_order k_ar_diff t = Some m1) as H5.
  { unfold joh_m1. rewrite H4, Ha. exact Hm1. }
  rewrite H0 in Ee0. rewrite H1 in Ee1. rewrite H2 in Et0.
  rewrite H3 in Et1. rewrite H4 in Em0. rewrite H5 in Em1.
  repeat split; assumption.
Qed.

(** [data5] at index 4 with window 4. *)
Lemma johansen_row_is_answer_on_window_witness :
  exists df,
    @Johansen.compute_johansen sample_libraries data5 4 0 1 = Returns df /\
    Johansen.eigval_0 df !! 4%nat = Some (Some 0.3) /\
    Johansen.eigval_1 df !! 4%nat = Some (Some 0.1) /\
    Johansen.trace_stat_0 df !! 4%nat = Some (Some 20) /\
    Johansen.trace_stat_1 df !! 4%nat = Some (Some 2) /\
    Johansen.max_stat_0 df !! 4%nat = Some (Some 18) /\
    Johansen.max_stat_1 df !! 4%nat = Some (Some 2).
Proof.
  apply (@johansen_row_is_answer_on_window sample_libraries data5
           [[3; 2]; [2; 3]; [5; 4]; [4; 5]] 4 0 1 4
           {| eig := [0.3; 0.1]; lr1 := [20; 2]; lr2 := [18; 2];
              cvt := [[13.4294; 15.4943; 19.9349];
                      [2.7055; 3.8415; 6.6349]] |}).
  - lia.
  - simpl. lia.
  - reflexivity.
  - intros [|[|[|[|j]]]] Hj; [reflexivity.. | lia].
  - reflexivity.
  - reflexivity.
  - reflexivity.
  - reflexivity.
  - reflexivity.
  - reflexivity.
  - reflexivity.
Defined.

(** * The synthetic pair *)

Section PairGenerator.
Context `{Pair.Random}.
Import Pair.

Lemma normal_array_length (loc scale : Q) (n : nat) (g : rng) :
  length (normal_array loc scale n g).1 = n.
Proof.
  revert g. induction n as [|n IH]; intros g; simpl; [reflexivity |].
  destruct (normal loc scale g) as [v g']. specialize (IH g').
  destruct (normal_array loc scale n g') as [vs g'']. simpl in *. by rewrite IH.
Qed.

Lemma cumsum_from_length (acc : Q) (l : list Q) :
  length (cumsum_from acc l) = length l.
Proof.
  revert acc. induction l as [|v l IH]; intros acc; simpl; [done |].
  by rewrite IH.
Qed.

Lemma np_cumsum_length (l : list Q) : length (np_cumsum l) = length l.
Proof. destruct l; simpl; [done |]. by rewrite cumsum_from_length. Qed.

Lemma cumsum_from_step (acc : Q) (l : list Q) (t : nat) (r : Q) :
  l !! S t = Some r ->
  exists a, cumsum_from acc l !! t = Some a /\
            cumsum_from acc l !! S t = Some (a + r).
Proof.
  revert acc t. induction l as [|v l IH]; intros acc t Hr; [done |].
  destruct t as [|t].
  - destruct l as [|v' l]; [done |]. simpl in Hr. injection Hr as ->.
    simpl. eexists. split; reflexivity.
  - simpl in Hr. destruct (IH (acc + v) t Hr) as (a & Ha & Hb).
    exists a. simpl. done.
Qed.

(** The running sum adds one draw at each step. *)
Lemma np_cumsum_step (l : list Q) (t : nat) (r : Q) :
  l !! S t = Some r ->
  exists a, np_cumsum l !! t = Some a /\
            np_cumsum l !! S t = Some (a + r).
Proof.
  destruct l as [|v l]; [done |]. intros Hr. unfold np_cumsum.
  destruct t as [|t].
  - destruct l as [|v' l]; [done |]. simpl in Hr. injection Hr as ->.
    simpl. eexists. split; reflexivity.
  - simpl in Hr. destruct (cumsum_from_step v l t r Hr) as (a & Ha & Hb).
    exists a. simpl. done.
Qed.

(** One turn of the noise loop. *)
Lemma noise_body_spec (phi : Q) (g : rng) (k : nat) (s : state) :
  (S k < length (noise s))%nat ->
  noise s !! k = Some (noise_at phi g k) ->
  generator s = after_shocks k g ->
  noise_body phi (S k) s = (Returns tt, noise_step phi g (S k) s).
Proof.
  intros Hlen Hprev Hgen.
  unfold noise_body, bind, read, getitem, draw, assign, setitem, noise_step.
  cbn [load store noise_var]. rewrite Nat.sub_1_r. cbn [Nat.pred].
  rewrite Hprev.
  cbn [noise_at after_shocks]. unfold shock. rewrite <- Hgen.
  destruct (normal 0 2 (generator s)) as [v g'].
  cbn [noise generator fst snd]. rewrite decide_True by done. reflexivity.
Qed.

Lemma noise_loop (phi : Q) (g : rng) (m : nat) : forall (k : nat) (s : state),
  (S k + m <= length (noise s))%nat ->
  noise s !! k = Some (noise_at phi g k) ->
  generator s = after_shocks k g ->
  for_each (seq (S k) m) (noise_body phi) s
  = (Returns tt,
     {| noise := writes (fun i => Some (noise_at phi g i)) (seq (S k) m)
                        (noise s);
        generator := after_shocks (k + m) g |}).
Proof.
  induction m as [|m IH]; intros k s Hlen Hprev Hgen.
  - destruct s as [l g0]. simpl in *. subst g0. by rewrite Nat.add_0_r.
  - change (seq (S k) (S m)) with (S k :: seq (S (S k)) m).
    cbn [for_each]. unfold bind at 1.
    rewrite (noise_body_spec phi g k s) by (done || lia).
    rewrite IH.
    + unfold noise_step. cbn [noise generator].
      replace (S k + m)%nat with (k + S m)%nat by lia. reflexivity.
    + unfold noise_step. cbn [noise]. rewrite length_insert. lia.
    + unfold noise_step. cbn [noise]. apply list_lookup_insert_eq. lia.
    + reflexivity.
Qed.

(** The array the loop of [generate_cointegrated_pair] leaves. *)
Lemma noise_loop_lookup (phi : Q) (g : rng) (n t : nat) :
  (t < n)%nat ->
  exists s,
    for_each (range 1 n) (noise_body phi)
             {| noise := replicate n 0; generator := g |} = (Returns tt, s) /\
    length (noise s) = n /\
    forall j, (j < n)%nat -> noise s !! j = Some (noise_at phi g j).
Proof.
  intros Ht. eexists. split; [| split].
  - unfold range. apply (noise_loop phi g (n - 1) 0).
    + cbn [noise]. rewrite length_replicate. lia.
    + cbn [noise]. apply lookup_replicate_2. lia.
    + reflexivity.
  - cbn [noise]. by rewrite length_writes, length_replicate.
  - intros j Hj. cbn [noise]. fold (range 1 n).
    destruct j as [|j].
    + rewrite writes_blank_warm by lia. reflexivity.
    + rewrite writes_blank_in by lia. reflexivity.
Qed.

End PairGenerator.

Section PairFrame.
Context `{Pair.Random}.
Import Pair.

Lemma generate_from_spec (g0 : rng) (n : nat) :
  length (date_index n) = n -> (1 <= n)%nat ->
  exists df,
    generate_from g0 n = Returns df /\
    length (x df) = n /\ length (y df) = n /\
    true_phi df = replicate n 0.7 /\
    forall t, (t < n)%nat ->
      exists ct, np_cumsum (normal_array 0 1 n g0).1 !! t = Some ct /\
        x df !! t = Some (100 + ct) /\
        y df !! t
        = Some (10 + 1.5 * (100 + ct)
                + noise_at 0.7 (normal_array 0 1 n g0).2 t).
Proof.
  intros Hidx Hn. unfold generate_from.
  pose proof (normal_array_length 0 1 n g0) as Hlen.
  destruct (normal_array 0 1 n g0) as [xr g1].
  cbn [fst snd] in *.
  destruct (noise_loop_lookup 0.7 g1 n 0 ltac:(lia)) as (s & -> & Hns & Hnoise).
  set (xs := map (fun c => 100 + c) (np_cumsum xr)).
  assert (length xs = n) as Hxs.
  { unfold xs. by rewrite length_map, np_cumsum_length. }
  unfold np_binary. rewrite decide_True by (rewrite length_map; congruence).
  unfold data_frame.
  rewrite decide_True
    by (rewrite length_zip_with, length_map, Hxs, Hns, Nat.min_id; done).
  eexists. split; [reflexivity |]. cbn [x y true_beta true_alpha true_phi].
  rewrite Hxs.
  split; [done |].
  split; [by rewrite length_zip_with, length_map, Hxs, Hns, Nat.min_id |].
  split; [reflexivity |].
  intros t Ht.
  destruct (lookup_lt_is_Some_2 (np_cumsum xr) t) as [ct Hct];
    [rewrite np_cumsum_length; lia |].
  exists ct. split; [exact Hct |].
  assert (xs !! t = Some (100 + ct)) as Hxt.
  { unfold xs. change (map (fun c => 100 + c) (np_cumsum xr))
      with ((fun c => 100 + c) <$> np_cumsum xr).
    by rewrite list_lookup_fmap, Hct. }
  split; [exact Hxt |].
  rewrite lookup_zip_with.
  change (map (fun v => 10 + 1.5 * v) xs)
    with ((fun v => 10 + 1.5 * v) <$> xs).
  rewrite list_lookup_fmap, Hxt.
  cbn [fmap option_fmap option_map mbind option_bind].
  rewrite (Hnoise t Ht). reflexivity.
Qed.

End PairFrame.

(** What [generate_cointegrated_pair] returns for a non-negative seed and
    [n >= 1].  Both columns have [n] entries.  [x[t]] is 100 plus the
    running sum [c[t]] of the standard draws ([c[0]] is the first draw and
    [c[t+1] = c[t] + r[t+1]]), so [x] is a random walk.  [y[t]] is
    [10 + 1.5 * x[t] + noise[t]], where the noise starts at 0 and each
    value is the stored [true_phi] times the one before it plus that
    turn's draw of scale 2: an AR(1) series. *)
Theorem generated_pair_recurrences `{Pair.Random} (n : nat) (seed : Z) :
  (0 <= seed)%Z -> (1 <= n)%nat -> length (Pair.date_index n) = n ->
  exists df c noise,
    Pair.generate_cointegrated_pair (Z.of_nat n) seed = Returns df /\
    length (Pair.x df) = n /\ length (Pair.y df) = n /\
    length c = n /\ length noise = n /\
    c !! 0%nat = Pair.x_returns n seed !! 0%nat /\
    (forall t, (S t < n)%nat ->
       exists a r,
         c !! t = Some a /\ Pair.x_returns n seed !! S t = Some r /\
         c !! S t = Some (a + r)) /\
    noise !! 0%nat = Some 0 /\
    (forall t, (S t < n)%nat ->
       exists a phi,
         noise !! t = Some a /\ Pair.true_phi df !! S t = Some phi /\
         noise !! S t
         = Some (phi * a + Pair.shock (Pair.after_returns n seed) t)) /\
    (forall t, (t < n)%nat ->
       exists ct nt,
         c !! t = Some ct /\ noise !! t = Some nt /\
         Pair.x df !! t = Some (100 + ct) /\
         Pair.y df !! t = Some (10 + 1.5 * (100 + ct) + nt)).
Proof.
  intros Hseed Hn Hidx.
  destruct (generate_from_spec (Pair.seeded seed) n Hidx Hn)
    as (df & Hrun & Hx & Hy & Hphi & Hrow).
  fold (Pair.x_returns n seed) in Hrow.
  fold (Pair.after_returns n seed) in Hrow.
  set (g := Pair.after_returns n seed) in *.
  assert (length (Pair.x_returns n seed) = n) as Hr
    by apply normal_array_length.
  exists df, (Pair.np_cumsum (Pair.x_returns n seed)),
    (map (Pair.noise_at 0.7 g) (seq 0 n)).
  assert (forall t, (t < n)%nat ->
            map (Pair.noise_at 0.7 g) (seq 0 n) !! t
            = Some (Pair.noise_at 0.7 g t)) as Hnoise.
  { intros t Ht.
    change (map (Pair.noise_at 0.7 g) (seq 0 n))
      with (Pair.noise_at 0.7 g <$> seq 0 n).
    by rewrite list_lookup_fmap, lookup_seq_lt. }
  split.
  { unfold Pair.generate_cointegrated_pair, Pair.default_rng.
    rewrite decide_False by lia. rewrite decide_False by lia.
    rewrite Nat2Z.id. exact Hrun. }
  split; [exact Hx |]. split; [exact Hy |].
  split; [by rewrite np_cumsum_length |].
  split; [by rewrite length_map, length_seq |].
  split.
  { destruct (Pair.x_returns n seed) as [|r0 l]; reflexivity. }
  split.
  { intros t Ht.
    destruct (lookup_lt_is_Some_2 (Pair.x_returns n seed) (S t)) as [r Hrt];
      [lia |].
    destruct (np_cumsum_step _ t r Hrt) as (a & Ha & Hb).
    exists a, r. done. }
  split; [apply (Hnoise 0%nat); lia |].
  split.
  { intros t Ht. exists (Pair.noise_at 0.7 g t), 0.7.
    split; [apply Hnoise; lia |].
    split; [rewrite Hphi; apply lookup_replicate_2; lia |].
    rewrite (Hnoise (S t) Ht). reflexivity. }
  intros t Ht. destruct (Hrow t Ht) as (ct & Hct & Hxt & Hyt).
  exists ct, (Pair.noise_at 0.7 g t).
  split; [exact Hct |]. split; [by apply Hnoise |].
  split; [exact Hxt | exact Hyt].
Qed.

(** Four rows from the sample generator. *)
Lemma generated_pair_recurrences_witness :
  exists df c noise,
    @Pair.generate_cointegrated_pair PairSamples.sample_random 4 42
      = Returns df /\
    length (Pair.x df) = 4%nat /\ length (Pair.y df) = 4%nat /\
    length c = 4%nat /\ length noise = 4%nat /\
    c !! 0%nat = @Pair.x_returns PairSamples.sample_random 4 42 !! 0%nat /\
    (forall t, (S t < 4)%nat ->
       exists a r,
         c !! t = Some a /\
         @Pair.x_returns PairSamples.sample_random 4 42 !! S t = Some r /\
         c !! S t = Some (a + r)) /\
    noise !! 0%nat = Some 0 /\
    (forall t, (S t < 4)%nat ->
       exists a phi,
         noise !! t = Some a /\ Pair.true_phi df !! S t = Some phi /\
         noise !! S t
         = Some (phi * a
                 + @Pair.shock PairSamples.sample_random
                     (@Pair.after_returns PairSamples.sample_random 4 42) t)) /\
    (forall t, (t < 4)%nat ->
       exists ct nt,
         c !! t = Some ct /\ noise !! t = Some nt /\
         Pair.x df !! t = Some (100 + ct) /\
         Pair.y df !! t = Some (10 + 1.5 * (100 + ct) + nt)).
Proof.
  apply (@generated_pair_recurrences PairSamples.sample_random 4 42).
  - lia.
  - lia.
  - reflexivity.
Defined.

(** * Consistency of the half-life frame *)

Lemma half_life_row_inv (df : HalfLife.frame) (t : nat) h a f :
  half_life_row df t = Some [Float h; Float a; Int f] ->
  HalfLife.half_lives df !! t = Some h
  /\ HalfLife.ar1_coefs df !! t = Some a
  /\ HalfLife.is_mean_reverting df !! t = Some f.
Proof. intros Hrow. unfold half_life_row in Hrow. row_inv Hrow t. Qed.

(** The three columns of the half-life frame tell the same story at every
    index: the flag is 1 exactly where the half-life is a number, and
    exactly where the stored coefficient lies strictly between 0 and 1;
    the coefficient is a number at computed indices only. *)
Theorem half_life_columns_consistent `{Libraries}
  (series : list Q) (window : nat) :
  (1 <= window)%nat ->
  exists df,
    HalfLife.compute_half_life_ar1 series window = Returns df /\
    forall t,
      (HalfLife.is_mean_reverting df !! t = Some 1%Z
       <-> exists h, HalfLife.half_lives df !! t = Some (Some h)) /\
      (HalfLife.is_mean_reverting df !! t = Some 1%Z
       <-> exists phi, HalfLife.ar1_coefs df !! t = Some (Some phi)
                       /\ 0 < phi /\ phi < 1) /\
      (forall phi, HalfLife.ar1_coefs df !! t = Some (Some phi) ->
                   (window - 1 <= t < length series)%nat).
Proof.
  intros _.
  destruct (half_life_columns series window)
    as (df & Hrun & Hwf & Hwarm & Hin & _).
  exists df. split; [exact Hrun |]. intros t.
  destruct (decide (t < length series)%nat) as [Ht | Ht].
  2: { destruct Hwf as (Hh & Ha & Hf). unfold cell in *.
       split; [split | split; [split |]].
       - intros Hl. apply lookup_lt_Some in Hl. lia.
       - intros (h & Hl). apply lookup_lt_Some in Hl. lia.
       - intros Hl. apply lookup_lt_Some in Hl. lia.
       - intros (p & Hl & _). apply lookup_lt_Some in Hl. lia.
       - intros p Hl. apply lookup_lt_Some in Hl. lia. }
  destruct (decide (t < window - 1)%nat) as [Hw | Hw].
  { specialize (Hwarm t Hw Ht). apply half_life_row_inv in Hwarm.
    destruct Hwarm as (Eh & Ea & Ef). unfold cell in *.
    rewrite Eh, Ea, Ef.
    split; [split | split; [split |]].
    - discriminate.
    - intros (h & [=]).
    - discriminate.
    - intros (p & [=] & _).
    - intros p [=]. }
  specialize (Hin t ltac:(lia)). apply half_life_row_inv in Hin.
  destruct Hin as (Eh & Ea & Ef). unfold cell in *. rewrite Eh, Ea, Ef.
  clear Eh Ea Ef.
  destruct (phi_at_value series window t) as (phi & Hphi).
  unfold half_life_at, flag_at. rewrite Hphi.
  unfold mean_reverting. cbn [cell_ltb].
  split; [| split; [| intros _ _; lia]].
  - destruct (Qltb 0 phi && Qltb phi 1); cbn [default].
    + split; [intros _ | reflexivity].
      unfold HalfLife.raw_half_life, py_min.
      cbn [option_map cell_div cell_ltb].
      destruct (Qltb _ _); eexists; reflexivity.
    + split; [discriminate | intros (h & [=])].
  - destruct (Qltb 0 phi) eqn:H0; destruct (Qltb phi 1) eqn:H1;
      cbn [andb default].
    + split; [intros _ | reflexivity].
      exists phi. split; [reflexivity |]. split; by apply Qltb_true.
    + split; [discriminate |].
      intros (p & [= <-] & _ & Hlt). apply Qltb_true in Hlt. congruence.
    + split; [discriminate |].
      intros (p & [= <-] & Hlt & _). apply Qltb_true in Hlt. congruence.
    + split; [discriminate |].
      intros (p & [= <-] & Hlt & _). apply Qltb_true in Hlt. congruence.
Qed.

(** [series5] with window 3. *)
Lemma half_life_columns_consistent_witness :
  exists df,
    @HalfLife.compute_half_life_ar1 sample_libraries series5 3 = Returns df /\
    forall t,
      (HalfLife.is_mean_reverting df !! t = Some 1%Z
       <-> exists h, HalfLife.half_lives df !! t = Some (Some h)) /\
      (HalfLife.is_mean_reverting df !! t = Some 1%Z
       <-> exists phi, HalfLife.ar1_coefs df !! t = Some (Some phi)
                       /\ 0 < phi /\ phi < 1) /\
      (forall phi, HalfLife.ar1_coefs df !! t = Some (Some phi) ->
                   (3 - 1 <= t < length series5)%nat).
Proof.
  apply (@half_life_columns_consistent sample_libraries series5 3). lia.
Defined.

(** * When the filter is the identity *)

Lemma ffd_weights_single (d threshold : Q) :
  Qabs (FracDiff.next_weight d 1 1) < threshold ->
  FracDiff.compute_ffd_weights d threshold FracDiff.MAX_SIZE = [1].
Proof.
  intros Hthr. unfold FracDiff.compute_ffd_weights, range.
  assert (exists m, (FracDiff.MAX_SIZE - 1 = S m)%nat) as [m ->].
  { exists (Z.to_nat 9998). rewrite MAX_SIZE_val. lia. }
  change (seq 1 (S m)) with (1%nat :: seq 2 m).
  cbn [FracDiff.ffd_loop].
  assert (Qltb (Qabs (FracDiff.next_weight d 1 1)) threshold = true) as ->.
  { by apply Qltb_true. }
  reflexivity.
Qed.

Lemma ffd_weights_two (d threshold : Q) :
  threshold <= Qabs (FracDiff.next_weight d 1 1) ->
  (2 <= length (FracDiff.compute_ffd_weights d threshold FracDiff.MAX_SIZE))%nat.
Proof.
  intros Hthr.
  destruct (compute_ffd_weights_spec d threshold FracDiff.MAX_SIZE)
    as (L & HL & -> & _ & Hstop).
  rewrite length_map, length_seq.
  destruct L as [|L]; [| lia]. exfalso.
  assert (0 < FracDiff.MAX_SIZE - 1)%nat as Hmax by (rewrite MAX_SIZE_val; lia).
  specialize (Hstop Hmax). apply Qltb_true in Hstop.
  change (ffd_weight d 1) with (FracDiff.next_weight d 1 1) in Hstop.
  apply (Qlt_irrefl threshold). eapply Qle_lt_trans; eassumption.
Qed.

Lemma frac_diff_single_weight (series : list Q) (d threshold : Q) :
  FracDiff.compute_ffd_weights d threshold FracDiff.MAX_SIZE = [1] ->
  FracDiff.frac_diff_manual series d threshold = Returns (map Some series).
Proof.
  intros Hw. rewrite frac_diff_manual_spec, Hw.
  f_equal. apply list_eq. intros t.
  rewrite writes_range_lookup. unfold np_full. rewrite length_replicate.
  change (map Some series) with (Some <$> series).
  rewrite list_lookup_fmap.
  destruct (decide _) as [[_ Hlt] | Hout].
  - destruct (series !! t) as [x|] eqn:E.
    + unfold conv_value. simpl. rewrite Nat.sub_0_r.
      rewrite (nth_lookup_Some _ _ 0 _ E), Q_zero_plus_one_times. reflexivity.
    + apply lookup_ge_None in E. lia.
  - simpl in Hout. assert (length series <= t)%nat as Hge by lia.
    rewrite (lookup_ge_None_2 series t Hge).
    apply lookup_ge_None_2. by rewrite length_replicate.
Qed.

(** On a non-empty series the filter returns its input unchanged exactly
    when the loop of [compute_ffd_weights] breaks at its first turn, that
    is when the first weight of the recurrence, [w1 = -1.0 * (d - 1 + 1) / 1],
    is below the threshold in magnitude and the weights are [[1.0]];
    otherwise at least two weights are kept and the first entry of the
    result is the sentinel. *)
Theorem frac_diff_unchanged_iff_first_weight_dropped
  (series : list Q) (d threshold : Q) :
  series <> [] ->
  let w1 := FracDiff.next_weight d 1 1 in
  (Qabs w1 < threshold
   <-> FracDiff.frac_diff_manual series d threshold
       = Returns (map Some series)) /\
  (Qabs w1 < threshold
   <-> FracDiff.compute_ffd_weights d threshold FracDiff.MAX_SIZE = [1]) /\
  (threshold <= Qabs w1 ->
   exists result,
     FracDiff.frac_diff_manual series d threshold = Returns result /\
     result !! 0%nat = Some nan).
Proof.
  intros Hne w1.
  assert (threshold <= Qabs w1 ->
          exists result,
            FracDiff.frac_diff_manual series d threshold = Returns result /\
            result !! 0%nat = Some nan) as Hkept.
  { intros Hle. pose proof (ffd_weights_two d threshold Hle) as Hlen.
    destruct (frac_diff_columns series d threshold)
      as (result & Hrun & _ & Hwarm & _).
    exists result. split; [exact Hrun |].
    destruct series as [|v l]; [done |].
    apply Hwarm; [lia | simpl; lia]. }
  split; [| split; [| exact Hkept]].
  - split.
    + intros Hthr. apply frac_diff_single_weight. by apply ffd_weights_single.
    + intros Hid. apply Qnot_le_lt. intros Hle.
      destruct (Hkept Hle) as (result & Hrun & H0).
      rewrite Hrun in Hid. injection Hid as ->.
      destruct series as [|v l]; [done |]. discriminate H0.
  - split.
    + apply ffd_weights_single.
    + intros Hw. apply Qnot_le_lt. intros Hle.
      pose proof (ffd_weights_two d threshold Hle) as Hlen.
      rewrite Hw in Hlen. simpl in Hlen. lia.
Qed.

(** [series5] with [d = 0.3] and threshold 0.5. *)
Lemma frac_diff_unchanged_iff_first_weight_dropped_witness :
  (Qabs (FracDiff.next_weight 0.3 1 1) < 0.5
   <-> FracDiff.frac_diff_manual series5 0.3 0.5
       = Returns (map Some series5)) /\
  (Qabs (FracDiff.next_weight 0.3 1 1) < 0.5
   <-> FracDiff.compute_ffd_weights 0.3 0.5 FracDiff.MAX_SIZE = [1]) /\
  (0.5 <= Qabs (FracDiff.next_weight 0.3 1 1) ->
   exists result,
     FracDiff.frac_diff_manual series5 0.3 0.5 = Returns result /\
     result !! 0%nat = Some nan).
Proof.
  apply (frac_diff_unchanged_iff_first_weight_dropped series5 0.3 0.5).
  discriminate.
Defined.

(** * Monotonicity of the rank decision *)

Lemma Qltb_mono_r (c a b : Q) : a <= b -> Qltb c a = true -> Qltb c b = true.
Proof.
  intros Hab Hc. apply Qltb_true. apply Qltb_true in Hc.
  eapply Qlt_le_trans; eassumption.
Qed.

(** The rank decision of [compute_johansen] is monotone in the trace
    statistics: against the same table of critical values, an answer whose
    trace statistics are entry by entry at least as large never gets a
    smaller rank. *)
Theorem rank_decision_monotone {S : Type}
  (result result' : johansen_result) (s : S) (rank rank' : Z) :
  cvt result' = cvt result ->
  Forall2 Qle (lr1 result) (lr1 result') ->
  Johansen.rank_decision result s = (Returns rank, s) ->
  Johansen.rank_decision result' s = (Returns rank', s) ->
  (rank <= rank')%Z.
Proof.
  intros Hcvt Hle Hr Hr'. rewrite rank_decision_spec in Hr, Hr'.
  destruct (rank_value result) as [z |] eqn:Hz; [| discriminate].
  destruct (rank_value result') as [z' |] eqn:Hz'; [| discriminate].
  injection Hr as ->. injection Hr' as ->.
  pose proof (rank_value_range result' rank' Hz') as Hrange.
  unfold rank_value in Hz, Hz'. rewrite Hcvt in Hz'.
  destruct (lr1 result !! 0%nat) as [l0 |] eqn:E0;
    cbn [mbind option_bind] in Hz; [| discriminate].
  destruct (Forall2_lookup_l _ _ _ _ _ Hle E0) as (l0' & E0' & Hl0).
  rewrite E0' in Hz'. cbn [mbind option_bind] in Hz'.
  destruct (cvt result !! 0%nat ≫= _) as [c0 |];
    cbn [mbind option_bind] in Hz, Hz'; [| discriminate].
  destruct (Qltb c0 l0) eqn:Hc0.
  - rewrite (Qltb_mono_r c0 l0 l0' Hl0 Hc0) in Hz'.
    destruct (lr1 result !! 1%nat) as [l1 |] eqn:E1;
      cbn [mbind option_bind] in Hz; [| discriminate].
    destruct (Forall2_lookup_l _ _ _ _ _ Hle E1) as (l1' & E1' & Hl1).
    rewrite E1' in Hz'. cbn [mbind option_bind] in Hz'.
    destruct (cvt result !! 1%nat ≫= _) as [c1 |];
      cbn [mbind option_bind] in Hz, Hz'; [| discriminate].
    destruct (Qltb c1 l1) eqn:Hc1.
    + rewrite (Qltb_mono_r c1 l1 l1' Hl1 Hc1) in Hz'.
      injection Hz as <-. injection Hz' as <-. lia.
    + injection Hz as <-. destruct (Qltb c1 l1'); injection Hz' as <-; lia.
  - injection Hz as <-. lia.
Qed.

(** Trace statistics [12; 2] against [20; 2] with the 5% critical values
    15.4943 and 3.8415: rank 0 against rank 1. *)
Lemma rank_decision_monotone_witness : (0 <= 1)%Z.
Proof.
  apply (@rank_decision_monotone unit
           {| eig := [0.3; 0.1]; lr1 := [12; 2]; lr2 := [18; 2];
              cvt := [[13.4294; 15.4943; 19.9349];
                      [2.7055; 3.8415; 6.6349]] |}
           {| eig := [0.3; 0.1]; lr1 := [20; 2]; lr2 := [18; 2];
              cvt := [[13.4294; 15.4943; 19.9349];
                      [2.7055; 3.8415; 6.6349]] |}
           tt 0 1).
  - reflexivity.
  - repeat constructor; discriminate.
  - reflexivity.
  - reflexivity.
Defined.
